(** * github_create_pr: a management command that opens a pull request

    A shallow embedding of
    [backend/apps/github/management/commands/github_create_pr.py]
    and the properties of its argument parsing, file publishing,
    pull-request creation, enrichment and dry-run stages.

    Conventions of the embedding:
    - a Python [str] is a [string]; a character stands for the code point
      of the same number (the model covers code points below 256);
    - a [dict] is an association list in insertion order;
    - every call into a collaborator (the GitHub client, the file system,
      the output streams, the logger) is recorded as an [event]; the
      answers of the collaborators come from an environment that may look
      at the whole history of the run;
    - Python exceptions are the [Raise] outcomes of a small monad. *)

From Stdlib Require Import String Ascii List Bool Arith NArith ZArith Lia.
From Stdlib Require Import Permutation.
From Stdlib Require Import DecimalString.
Import ListNotations.
Open Scope string_scope.
Open Scope list_scope.

Set Implicit Arguments.

(* ===================================================================== *)
(** ** Python string operations used by the command *)
(* ===================================================================== *)

Module PyStr.

(** [needle in hay] *)
Fixpoint str_in (needle hay : string) : bool :=
  if prefix needle hay then true
  else match hay with
       | EmptyString => false
       | String _ t => str_in needle t
       end.

(** [s.split(sep)] for a one-character separator. *)
Fixpoint split (sep : ascii) (s : string) : list string :=
  match s with
  | EmptyString => [EmptyString]
  | String c t =>
      if Ascii.eqb c sep then EmptyString :: split sep t
      else match split sep t with
           | h :: r => String c h :: r
           | [] => [String c EmptyString]
           end
  end.

(** [s.split(sep, 1)] for a one-character separator. *)
Fixpoint split1 (sep : ascii) (s : string) : list string :=
  match s with
  | EmptyString => [EmptyString]
  | String c t =>
      if Ascii.eqb c sep then [EmptyString; t]
      else match split1 sep t with
           | h :: r => String c h :: r
           | [] => [String c EmptyString]
           end
  end.

(** [c.isspace()] on code points below 256: TAB..CR, FS..US, space,
    NEL and the no-break space. *)
Definition is_space (c : ascii) : bool :=
  let n := N_of_ascii c in
  ((9 <=? n) && (n <=? 13) || (28 <=? n) && (n <=? 32)
   || (n =? 133) || (n =? 160))%N.

Fixpoint lstrip (s : string) : string :=
  match s with
  | EmptyString => EmptyString
  | String c t => if is_space c then lstrip t else s
  end.

Fixpoint rstrip (s : string) : string :=
  match s with
  | EmptyString => EmptyString
  | String c t =>
      match rstrip t with
      | EmptyString => if is_space c then EmptyString else String c EmptyString
      | t' => String c t'
      end
  end.

(** [s.strip()] *)
Definition strip (s : string) : string := rstrip (lstrip s).

(** [sep.join(xs)] *)
Definition join (sep : string) (xs : list string) : string := String.concat sep xs.

(** Truth value of a string: [bool(s)]. *)
Definition truthy (s : string) : bool :=
  match s with EmptyString => false | _ => true end.

(** [str(n)] for a non-negative integer. *)
Definition str_of_N (n : N) : string := NilZero.string_of_uint (N.to_uint n).

(** [str(b)] for a boolean, as an f-string prints it. *)
Definition str_of_bool (b : bool) : string := if b then "True" else "False".

End PyStr.
Import PyStr.

(* ===================================================================== *)
(** ** Data model *)
(* ===================================================================== *)

(** A [dict[str, str]]: keys in insertion order; assigning to a key that
    is present replaces its value and keeps its place. *)
Module Dict.

Definition dict := list (string * string).

(** [d[k] = v] *)
Fixpoint set (d : dict) (k v : string) : dict :=
  match d with
  | [] => [(k, v)]
  | (k', v') :: r =>
      if String.eqb k' k then (k', v) :: r else (k', v') :: set r k v
  end.

(** [d.get(k)] *)
Fixpoint get (d : dict) (k : string) : option string :=
  match d with
  | [] => None
  | (k', v') :: r => if String.eqb k' k then Some v' else get r k
  end.

(** [d.items()] *)
Definition items (d : dict) : list (string * string) := d.

(** [d.keys()] *)
Definition keys (d : dict) : list string := map fst d.

(** [len(d)] *)
Definition len (d : dict) : nat := length d.

(** [bool(d)] *)
Definition truthy (d : dict) : bool :=
  match d with [] => false | _ => true end.

End Dict.

(** The exceptions the collaborators raise, each with its [str(e)].
    All of them derive from [Exception]. *)
Inductive error : Type :=
| GithubException (s : string)
| BadCredentialsException (s : string)
| OSError (s : string)
| ValueError (s : string)
| UnicodeDecodeError (s : string)
| OtherException (s : string).

(** [str(e)] *)
Definition str (e : error) : string :=
  match e with
  | GithubException s | BadCredentialsException s | OSError s
  | ValueError s | UnicodeDecodeError s | OtherException s => s
  end.

(** [isinstance(e, GithubException)]: [BadCredentialsException] is a
    subclass of [GithubException]. *)
Definition is_GithubException (e : error) : bool :=
  match e with
  | GithubException _ | BadCredentialsException _ => true
  | _ => false
  end.

Definition is_BadCredentialsException (e : error) : bool :=
  match e with BadCredentialsException _ => true | _ => false end.

Definition is_OSError (e : error) : bool :=
  match e with OSError _ => true | _ => false end.

(** [isinstance(e, ValueError)]: [UnicodeDecodeError] is a subclass of
    [ValueError]. *)
Definition is_ValueError (e : error) : bool :=
  match e with ValueError _ | UnicodeDecodeError _ => true | _ => false end.

(** What is in flight when a Python call does not return: [SystemExit]
    (a [BaseException], not an [Exception]) or an [Exception]. *)
Inductive exn : Type :=
| SystemExit (code : Z)
| Exc (e : error).

(** The answer of a collaborator. *)
Inductive result (A : Type) : Type :=
| Ok (a : A)
| Err (e : error).
Arguments Ok {A} a.
Arguments Err {A} e.

(** The outcome of a piece of the command. *)
Inductive outcome (A : Type) : Type :=
| Return (a : A)
| Raise (e : exn).
Arguments Return {A} a.
Arguments Raise {A} e.

Record Repository := { full_name : string }.
Record Branch := { name : string; commit_sha : string }.
Record ContentFile := { sha : string }.
Record PullRequest := { number : N; html_url : string }.

(** [self.style.ERROR], [WARNING], [SUCCESS], or no style. *)
Inductive style : Type := Plain | ERROR | WARNING | SUCCESS.

(** [errors=] of [Path.read_text]. *)
Inductive decode_errors : Type := strict | replace.

(** A call into a collaborator together with its answer; the output
    streams, the logger and [gh.close()] give no answer. *)
Inductive event : Type :=
| EStdout (st : style) (msg : string)
| EStderr (st : style) (msg : string)
| ELogInfo (msg : string)
| ELogException (msg : string)
| EGetClient (r : result unit)
| EClose
| EGetRepo (repository : string) (r : result Repository)
| EGetBranch (branch : string) (r : result Branch)
| ECreateGitRef (ref sha1 : string) (r : result unit)
| EGetContents (path ref : string) (r : result ContentFile)
| EUpdateFile (path message content sha1 branch : string) (r : result unit)
| ECreateFile (path message content branch : string) (r : result unit)
| ECreatePull (title body base head : string) (draft : bool)
              (r : result PullRequest)
| EAddToLabels (labels : list string) (r : result unit)
| EAddToAssignees (assignees : list string) (r : result unit)
| EAddToReviewers (reviewers : list string) (r : result unit)
| ECwd (r : result string)
| EExists (path : string) (r : result bool)
| EIsFile (path : string) (r : result bool)
| EStatSize (path : string) (r : result N)
| EReadText (path : string) (errors : decode_errors) (r : result string).

(** The collaborators: each answer may depend on everything that
    happened in the run so far. *)
Record Env := {
  get_github_client_with_installation_token : list event -> result unit;
  get_repo : list event -> string -> result Repository;
  get_branch : list event -> string -> result Branch;
  create_git_ref : list event -> string -> string -> result unit;
  get_contents : list event -> string -> string -> result ContentFile;
  update_file :
    list event -> string -> string -> string -> string -> string -> result unit;
  create_file :
    list event -> string -> string -> string -> string -> result unit;
  create_pull :
    list event -> string -> string -> string -> string -> bool ->
    result PullRequest;
  add_to_labels : list event -> list string -> result unit;
  add_to_assignees : list event -> list string -> result unit;
  add_to_reviewers : list event -> list string -> result unit;
  cwd : list event -> result string;
  exists_ : list event -> string -> result bool;
  is_file : list event -> string -> result bool;
  stat_size : list event -> string -> result N;
  read_text : list event -> string -> decode_errors -> result string
}.

(** The command-line options after argparse. *)
Record Options := {
  repository : string;
  title : string;
  body : string;
  base_branch : string;
  head_branch : string;
  files : option string;
  labels : option string;
  assignees : option string;
  reviewers : option string;
  draft : bool;
  dry_run : bool
}.

(** Events by kind. *)
Definition is_enrichment (ev : event) : bool :=
  match ev with
  | EAddToLabels _ _ | EAddToAssignees _ _ | EAddToReviewers _ _ => true
  | _ => false
  end.

Definition is_file_write (ev : event) : bool :=
  match ev with
  | EUpdateFile _ _ _ _ _ _ | ECreateFile _ _ _ _ _ => true
  | _ => false
  end.

Definition is_ref_creation (ev : event) : bool :=
  match ev with ECreateGitRef _ _ _ => true | _ => false end.

Definition is_pull_creation (ev : event) : bool :=
  match ev with ECreatePull _ _ _ _ _ _ => true | _ => false end.

(** The remote calls that change the repository or the pull request. *)
Definition is_mutating (ev : event) : bool :=
  is_ref_creation ev || is_file_write ev || is_pull_creation ev
  || is_enrichment ev.

(** Every call that goes to the hosting platform. *)
Definition is_network_call (ev : event) : bool :=
  match ev with
  | EGetClient _ | EGetRepo _ _ | EGetBranch _ _ | EGetContents _ _ _ => true
  | _ => is_mutating ev
  end.

(* ===================================================================== *)
(** ** The monad of the command: history in, outcome and new events out *)
(* ===================================================================== *)

Definition M (A : Type) : Type := list event -> outcome A * list event.

Definition ret {A} (a : A) : M A := fun _ => (Return a, []).

Definition raise {A} (e : exn) : M A := fun _ => (Raise e, []).

(** The events [w] of the first part of a run, before those of the rest. *)
Definition after {A} (w : list event) (x : outcome A * list event)
  : outcome A * list event := (fst x, w ++ snd x).

Definition bind {A B} (m : M A) (f : A -> M B) : M B := fun h =>
  match m h with
  | (Return a, w) => after w (f a (h ++ w))
  | (Raise e, w) => (Raise e, w)
  end.

Declare Scope py_scope.
Delimit Scope py_scope with py.
Notation "x <- m ;; k" := (bind m (fun x => k))
  (at level 100, m at next level, right associativity) : py_scope.
Notation "m ;; k" := (bind m (fun _ => k))
  (at level 100, right associativity) : py_scope.
Open Scope py_scope.

(** An output that cannot fail. *)
Definition emit (ev : event) : M unit := fun _ => (Return tt, [ev]).

(** A call that the environment answers. *)
Definition call {A} (ask : list event -> result A) (mk : result A -> event)
  : M A := fun h =>
  let r := ask h in
  (match r with Ok a => Return a | Err e => Raise (Exc e) end, [mk r]).

(** [try: m except ...: handler]; [handler e = None] when no clause
    matches [e]. *)
Definition try_except {A} (m : M A) (handler : exn -> option (M A)) : M A :=
  fun h =>
  match m h with
  | (Return a, w) => (Return a, w)
  | (Raise e, w) =>
      match handler e with
      | Some k => after w (k (h ++ w))
      | None => (Raise e, w)
      end
  end.

(** [bool(xs)] for a list. *)
Definition nonempty {A} (xs : list A) : bool :=
  match xs with [] => false | _ => true end.

(** [sys.exit(code)] *)
Definition sys_exit {A} (code : Z) : M A := raise (SystemExit code).

(** [a, b = xs] *)
Definition unpack2 (xs : list string) : M (string * string) :=
  match xs with
  | [a; b] => ret (a, b)
  | _ => raise (Exc (ValueError "not enough values to unpack"))
  end.


(* ===================================================================== *)
(** ** The command *)
(* ===================================================================== *)

Section Command.

Variable env : Env.

(** *** Collaborator calls *)

Definition stdout_write (st : style) (msg : string) : M unit :=
  emit (EStdout st msg).
Definition stderr_write (st : style) (msg : string) : M unit :=
  emit (EStderr st msg).
Definition logger_info (msg : string) : M unit := emit (ELogInfo msg).
Definition logger_exception (msg : string) : M unit :=
  emit (ELogException msg).

Definition gh_new : M unit :=
  call (get_github_client_with_installation_token env) EGetClient.
Definition gh_get_repo (repository : string) : M Repository :=
  call (fun h => get_repo env h repository) (EGetRepo repository).
Definition repo_get_branch (branch : string) : M Branch :=
  call (fun h => get_branch env h branch) (EGetBranch branch).
Definition repo_create_git_ref (ref sha1 : string) : M unit :=
  call (fun h => create_git_ref env h ref sha1) (ECreateGitRef ref sha1).
Definition repo_get_contents (path ref : string) : M ContentFile :=
  call (fun h => get_contents env h path ref) (EGetContents path ref).
Definition repo_update_file (path message content sha1 branch : string)
  : M unit :=
  call (fun h => update_file env h path message content sha1 branch)
       (EUpdateFile path message content sha1 branch).
Definition repo_create_file (path message content branch : string)
  : M unit :=
  call (fun h => create_file env h path message content branch)
       (ECreateFile path message content branch).
Definition repo_create_pull (title body base head : string) (draft : bool)
  : M PullRequest :=
  call (fun h => create_pull env h title body base head draft)
       (ECreatePull title body base head draft).
Definition pr_add_to_labels (labels : list string) : M unit :=
  call (fun h => add_to_labels env h labels) (EAddToLabels labels).
Definition pr_add_to_assignees (assignees : list string) : M unit :=
  call (fun h => add_to_assignees env h assignees) (EAddToAssignees assignees).
Definition pr_add_to_reviewers (reviewers : list string) : M unit :=
  call (fun h => add_to_reviewers env h reviewers) (EAddToReviewers reviewers).
Definition path_cwd : M string := call (cwd env) ECwd.
Definition path_exists (path : string) : M bool :=
  call (fun h => exists_ env h path) (EExists path).
Definition path_is_file (path : string) : M bool :=
  call (fun h => is_file env h path) (EIsFile path).
Definition path_stat_size (path : string) : M N :=
  call (fun h => stat_size env h path) (EStatSize path).
Definition path_read_text (path : string) (errors : decode_errors)
  : M string :=
  call (fun h => read_text env h path errors) (EReadText path errors).

(** [pathlib] on POSIX. [Path(s)] is parsed into a root and its parts:
    the root is "//" for exactly two leading slashes, "/" for one or for
    three and more, and empty otherwise; the parts are the components
    between the slashes without the empty ones and without ".", so that
    repeated and trailing slashes and "." components disappear; ".." is
    kept. A path of the model is the string [str(path)]. *)
Definition path_root (s : string) : string :=
  if prefix "///" s then "/"
  else if prefix "//" s then "//"
  else if prefix "/" s then "/"
  else EmptyString.

Definition path_parts (s : string) : list string :=
  filter (fun c => negb (String.eqb c EmptyString || String.eqb c "."))
         (split "/" s).

(** [str] of the path with the given root and parts. *)
Definition path_str (root : string) (parts : list string) : string :=
  match root, parts with
  | EmptyString, [] => "."
  | _, _ => root ++ join "/" parts
  end.

(** [str(Path(s))] *)
Definition Path (s : string) : string :=
  path_str (path_root s) (path_parts s).

(** [Path.is_absolute] *)
Definition is_absolute (path : string) : bool := truthy (path_root path).

(** [dir / path] *)
Definition joinpath (dir path : string) : string :=
  if is_absolute path then Path path
  else path_str (path_root dir) (path_parts dir ++ path_parts path).

(** *** [_parse_files] *)

(** The body of the loop over [files_str.split(",")]. *)
Definition parse_file_spec (files : Dict.dict) (file_spec : string)
  : M Dict.dict :=
  if negb (str_in ":" file_spec) then
    stderr_write ERROR
      ("Invalid file specification: " ++ file_spec ++ ". "
       ++ "Expected format: 'local_path:remote_path'") ;;
    sys_exit 1
  else
    p <- unpack2 (split1 ":" file_spec) ;;
    let local_path := strip (fst p) in
    let remote_path := strip (snd p) in
    if negb (truthy local_path) then
      stderr_write ERROR
        ("Empty local path in specification: " ++ file_spec) ;;
      sys_exit 1
    else if negb (truthy remote_path) then
      stderr_write ERROR
        ("Empty remote path in specification: " ++ file_spec) ;;
      sys_exit 1
    else ret (Dict.set files local_path remote_path).

Fixpoint parse_file_specs (specs : list string) (files : Dict.dict)
  : M Dict.dict :=
  match specs with
  | [] => ret files
  | file_spec :: rest =>
      files' <- parse_file_spec files file_spec ;;
      parse_file_specs rest files'
  end.

Definition _parse_files (files_str : option string) : M Dict.dict :=
  match files_str with
  | None => ret []
  | Some s =>
      if negb (truthy s) then ret []
      else parse_file_specs (split "," s) []
  end.

(** *** [_parse_list] *)

Definition _parse_list (list_str : option string) : list string :=
  match list_str with
  | None => []
  | Some s =>
      if negb (truthy s) then []
      else map strip (filter (fun item => truthy (strip item)) (split "," s))
  end.

(** *** [_validate_file_path] *)

Definition max_size : N := 100 * 1024 * 1024.

Definition _validate_file_path (file_path : string) : M string :=
  try_except
    (let path := Path file_path in
     path <- (if negb (is_absolute path)
              then (d <- path_cwd ;; ret (joinpath d path))
              else ret path) ;;
     found <- path_exists path ;;
     if negb found then
       stderr_write ERROR ("File not found: " ++ file_path) ;;
       sys_exit 1
     else
       regular <- path_is_file path ;;
       if negb regular then
         stderr_write ERROR ("Path is not a file: " ++ file_path) ;;
         sys_exit 1
       else
         file_size <- path_stat_size path ;;
         if (max_size <? file_size)%N then
           stderr_write ERROR
             ("File too large: " ++ file_path ++ " ("
              ++ str_of_N file_size ++ " bytes). "
              ++ "Maximum size is " ++ str_of_N max_size ++ " bytes.") ;;
           sys_exit 1
         else ret path)
    (fun e =>
       match e with
       | Exc err =>
           if is_OSError err || is_ValueError err then
             Some (stderr_write ERROR
                     ("Invalid file path '" ++ file_path ++ "': " ++ str err) ;;
                   sys_exit 1)
           else None
       | SystemExit _ => None
       end).

(** *** [_read_file_content] *)

Definition _read_file_content (file_path : string) : M string :=
  try_except
    (path_read_text file_path strict)
    (fun e =>
       match e with
       | Exc (UnicodeDecodeError _) =>
           Some (try_except
                   (path_read_text file_path replace)
                   (fun e' =>
                      match e' with
                      | Exc err =>
                          Some (stderr_write ERROR
                                  ("Failed to read file '" ++ file_path
                                   ++ "': " ++ str err) ;;
                                sys_exit 1)
                      | SystemExit _ => None
                      end))
       | _ => None
       end).

(** *** [_show_dry_run] *)

(** The body of the loop over [files.items()]. *)
Definition show_dry_run_file (local_path remote_path : string) : M unit :=
  try_except
    (file_path <- _validate_file_path local_path ;;
     file_size <- path_stat_size file_path ;;
     stdout_write Plain
       ("  " ++ local_path ++ " -> " ++ remote_path ++ " ("
        ++ str_of_N file_size ++ " bytes)"))
    (fun e =>
       match e with
       | SystemExit _ =>
           Some (stdout_write Plain
                   ("  " ++ local_path ++ " -> " ++ remote_path
                    ++ " (FILE NOT FOUND)"))
       | Exc _ => None
       end).

Fixpoint show_dry_run_files (items : list (string * string)) : M unit :=
  match items with
  | [] => ret tt
  | (local_path, remote_path) :: rest =>
      show_dry_run_file local_path remote_path ;;
      show_dry_run_files rest
  end.

Definition _show_dry_run (repository title body base_branch head_branch
                          : string) (files : Dict.dict)
           (labels assignees reviewers : list string) (draft : bool)
  : M unit :=
  stdout_write WARNING "DRY RUN - No changes will be made" ;;
  stdout_write Plain ("Repository: " ++ repository) ;;
  stdout_write Plain ("Title: " ++ title) ;;
  stdout_write Plain ("Body: " ++ body) ;;
  stdout_write Plain ("Base branch: " ++ base_branch) ;;
  stdout_write Plain ("Head branch: " ++ head_branch) ;;
  stdout_write Plain ("Draft: " ++ str_of_bool draft) ;;
  (if Dict.truthy files then
     stdout_write Plain "Files to upload:" ;;
     show_dry_run_files (Dict.items files)
   else ret tt) ;;
  (if nonempty labels then
     stdout_write Plain ("Labels: " ++ join ", " labels)
   else ret tt) ;;
  (if nonempty assignees then
     stdout_write Plain ("Assignees: " ++ join ", " assignees)
   else ret tt) ;;
  (if nonempty reviewers then
     stdout_write Plain ("Reviewers: " ++ join ", " reviewers)
   else ret tt).

(** *** [_upload_files] *)

(** The body of the loop over [files.items()]. *)
Definition upload_file (head_branch local_path remote_path : string)
  : M unit :=
  try_except
    (file_path <- _validate_file_path local_path ;;
     content <- _read_file_content file_path ;;
     try_except
       (existing_file <- repo_get_contents remote_path head_branch ;;
        repo_update_file remote_path ("Update " ++ remote_path) content
                         (sha existing_file) head_branch ;;
        logger_info ("Updated file: " ++ local_path ++ " -> " ++ remote_path))
       (fun e =>
          match e with
          | Exc err =>
              if is_GithubException err then
                Some (repo_create_file remote_path ("Create " ++ remote_path)
                                       content head_branch ;;
                      logger_info ("Created file: " ++ local_path ++ " -> "
                                   ++ remote_path))
              else None
          | SystemExit _ => None
          end))
    (fun e =>
       match e with
       | Exc err =>
           if is_GithubException err then
             Some (stderr_write ERROR
                     ("Failed to upload " ++ local_path ++ " -> "
                      ++ remote_path ++ ": " ++ str err) ;;
                   raise e)
           else None
       | SystemExit _ => Some (raise e)
       end).

Fixpoint upload_each (head_branch : string) (items : list (string * string))
  : M unit :=
  match items with
  | [] => ret tt
  | (local_path, remote_path) :: rest =>
      upload_file head_branch local_path remote_path ;;
      upload_each head_branch rest
  end.

(** The inner [try] that creates the head branch. *)
Definition create_head_branch (head_branch base_sha : string) : M unit :=
  try_except
    (repo_create_git_ref ("refs/heads/" ++ head_branch) base_sha ;;
     logger_info ("Created branch: " ++ head_branch))
    (fun e =>
       match e with
       | Exc err =>
           if is_GithubException err then
             Some (if str_in "Reference already exists" (str err)
                   then logger_info ("Branch " ++ head_branch
                                     ++ " already exists")
                   else raise e)
           else None
       | SystemExit _ => None
       end).

(** The last handler of [_upload_files]. *)
Definition upload_failed (e : exn) : option (M unit) :=
  match e with
  | Exc err =>
      if is_GithubException err then
        Some (stderr_write ERROR ("Failed to upload files: " ++ str err) ;;
              raise e)
      else None
  | SystemExit _ => None
  end.

Definition _upload_files (head_branch : string) (files : Dict.dict) : M unit :=
  try_except
    (base_branch <- repo_get_branch "main" ;;
     let base_sha := commit_sha base_branch in
     create_head_branch head_branch base_sha ;;
     upload_each head_branch (Dict.items files))
    upload_failed.

(** *** [_create_pull_request] *)

Definition _create_pull_request (title body base_branch head_branch : string)
           (draft : bool) : M PullRequest :=
  try_except
    (pr <- repo_create_pull title body base_branch head_branch draft ;;
     logger_info ("Created Pull Request: " ++ str_of_N (number pr)) ;;
     ret pr)
    (fun e =>
       match e with
       | Exc err =>
           if is_GithubException err then
             Some (stderr_write ERROR
                     ("Failed to create Pull Request: " ++ str err) ;;
                   raise e)
           else None
       | SystemExit _ => None
       end).

(** *** [_add_labels], [_add_assignees], [_add_reviewers] *)

(** The handler the three functions share but for its message. *)
Definition warn (what : string) (e : exn) : option (M unit) :=
  match e with
  | Exc err =>
      if is_GithubException err then
        Some (stderr_write WARNING
                ("Failed to add " ++ what ++ ": " ++ str err))
      else None
  | SystemExit _ => None
  end.

Definition _add_labels (labels : list string) : M unit :=
  try_except
    (pr_add_to_labels labels ;;
     logger_info ("Added labels: " ++ join ", " labels))
    (warn "labels").

Definition _add_assignees (assignees : list string) : M unit :=
  try_except
    (pr_add_to_assignees assignees ;;
     logger_info ("Added assignees: " ++ join ", " assignees))
    (warn "assignees").

Definition _add_reviewers (reviewers : list string) : M unit :=
  try_except
    (pr_add_to_reviewers reviewers ;;
     logger_info ("Added reviewers: " ++ join ", " reviewers))
    (warn "reviewers").

(** *** [handle] *)

(** The [try] block of [handle]. *)
Definition handle_try (options : Options) : M unit :=
  let repository := repository options in
  (if negb (str_in "/" repository) then
     stderr_write ERROR
       ("Invalid repository format: " ++ repository
        ++ ". Expected format: 'owner/repo'") ;;
     sys_exit 1
   else ret tt) ;;
  _ <- unpack2 (split1 "/" repository) ;;
  gh_new ;;
  logger_info
    "Successfully authenticated with GitHub using installation access token" ;;
  try_except
    (repo <- gh_get_repo repository ;;
     logger_info ("Found repository: " ++ full_name repo))
    (fun e =>
       match e with
       | Exc err =>
           if is_GithubException err then
             Some (stderr_write ERROR
                     ("Failed to access repository " ++ repository ++ ": "
                      ++ str err) ;;
                   sys_exit 1)
           else None
       | SystemExit _ => None
       end) ;;
  try_except
    (base <- repo_get_branch (base_branch options) ;;
     logger_info ("Base branch '" ++ name base ++ "' exists"))
    (fun e =>
       match e with
       | Exc err =>
           if is_GithubException err then
             Some (stderr_write ERROR
                     ("Base branch '" ++ base_branch options
                      ++ "' not found: " ++ str err) ;;
                   sys_exit 1)
           else None
       | SystemExit _ => None
       end) ;;
  files_to_upload <- _parse_files (files options) ;;
  let labels := _parse_list (labels options) in
  let assignees := _parse_list (assignees options) in
  let reviewers := _parse_list (reviewers options) in
  if dry_run options then
    _show_dry_run repository (title options) (body options)
                  (base_branch options) (head_branch options)
                  files_to_upload labels assignees reviewers (draft options)
  else
    (if Dict.truthy files_to_upload
     then _upload_files (head_branch options) files_to_upload
     else ret tt) ;;
    pr <- _create_pull_request (title options) (body options)
                               (base_branch options) (head_branch options)
                               (draft options) ;;
    (if nonempty labels then _add_labels labels else ret tt) ;;
    (if nonempty assignees then _add_assignees assignees else ret tt) ;;
    (if nonempty reviewers then _add_reviewers reviewers else ret tt) ;;
    stdout_write SUCCESS
      ("Successfully created Pull Request: " ++ html_url pr).

(** The [except] clauses of [handle]. *)
Definition handle_except (e : exn) : option (M unit) :=
  match e with
  | Exc err =>
      if is_BadCredentialsException err then
        Some (stderr_write ERROR
                "GitHub authentication failed. Please check your GitHub App configuration." ;;
              sys_exit 1)
      else
        Some (logger_exception "Unexpected error creating Pull Request" ;;
              stderr_write ERROR ("Unexpected error: " ++ str err) ;;
              sys_exit 1)
  | SystemExit _ => None
  end.

(** ["gh" in locals()]: [gh] is bound once the token call has returned. *)
Definition gh_in_locals (w : list event) : bool :=
  existsb (fun ev => match ev with EGetClient (Ok _) => true | _ => false end) w.

(** [handle]: the [try] block, its [except] clauses, and the [finally]
    clause that closes the client when it was obtained. *)
Definition handle (options : Options) : M unit := fun h =>
  let x := try_except (handle_try options) handle_except h in
  if gh_in_locals (snd x) then (fst x, snd x ++ [EClose]) else x.

End Command.

(* ===================================================================== *)
(** ** Sample environments and runs *)
(* ===================================================================== *)

Module Samples.

(** An answer [a], unless the scenario injects a fault at the call. *)
Definition answer {A} (fault : string -> option error) (what : string) (a : A)
  : result A :=
  match fault what with Some e => Err e | None => Ok a end.

(** A file system: a path is absent, or a directory, or a regular file
    with a size. *)
Inductive node : Type := Directory | Regular (size : N).

(** A repository without the requested remote files, a working directory
    [/work], and faults injected by the name of the call. *)
Definition sample_env (fault : string -> option error)
           (fs : string -> option node) : Env := {|
  get_github_client_with_installation_token := fun _ =>
    answer fault "get_github_client_with_installation_token" tt;
  get_repo := fun _ r => answer fault "get_repo" {| full_name := r |};
  get_branch := fun _ b =>
    answer fault "get_branch" {| name := b; commit_sha := "abc123" |};
  create_git_ref := fun _ _ _ => answer fault "create_git_ref" tt;
  get_contents := fun _ _ _ =>
    match fault "get_contents" with
    | Some e => Err e
    | None => Ok {| sha := "f00" |}
    end;
  update_file := fun _ _ _ _ _ _ => answer fault "update_file" tt;
  create_file := fun _ _ _ _ _ => answer fault "create_file" tt;
  create_pull := fun _ _ _ _ _ _ =>
    answer fault "create_pull"
           {| number := 123;
              html_url := "https://github.com/OWASP/Nest/pull/123" |};
  add_to_labels := fun _ _ => answer fault "add_to_labels" tt;
  add_to_assignees := fun _ _ => answer fault "add_to_assignees" tt;
  add_to_reviewers := fun _ _ => answer fault "add_to_reviewers" tt;
  cwd := fun _ => Ok "/work";
  exists_ := fun _ p => Ok (match fs p with Some _ => true | None => false end);
  is_file := fun _ p =>
    Ok (match fs p with Some (Regular _) => true | _ => false end);
  stat_size := fun _ p =>
    match fs p with
    | Some (Regular n) => Ok n
    | Some Directory => Ok 4096%N
    | None => Err (OSError "No such file or directory")
    end;
  read_text := fun _ _ _ => answer fault "read_text" "Hello World"
|}.

Definition no_fault : string -> option error := fun _ => None.

Definition fault_at (what : string) (e : error) : string -> option error :=
  fun w => if String.eqb w what then Some e else None.

(** Several faults at once. *)
Fixpoint faults (l : list (string * error)) : string -> option error :=
  fun w =>
    match l with
    | [] => None
    | (what, e) :: rest =>
        if String.eqb w what then Some e else faults rest w
    end.

(** The remote files do not exist yet: the lookup answers 404. *)
Definition fresh_remote : string -> option error :=
  fault_at "get_contents" (GithubException "404 Not Found").

Definition sample_fs (p : string) : option node :=
  if String.eqb p "/tmp/f1.txt" then Some (Regular 11)
  else if String.eqb p "/tmp/f2.py" then Some (Regular 38)
  else if String.eqb p "/tmp" then Some Directory
  else if String.eqb p "/tmp/huge.bin" then Some (Regular 104857601)
  else None.

Definition sample_options : Options := {|
  repository := "OWASP/Nest";
  title := "Test PR";
  body := "Test description";
  base_branch := "main";
  head_branch := "feature/test";
  files := None;
  labels := None;
  assignees := None;
  reviewers := None;
  draft := false;
  dry_run := false
|}.

Definition with_repository (r : string) (o : Options) : Options :=
  {| repository := r; title := title o; body := body o;
     base_branch := base_branch o; head_branch := head_branch o;
     files := files o; labels := labels o; assignees := assignees o;
     reviewers := reviewers o; draft := draft o; dry_run := dry_run o |}.

Definition with_base_branch (b : string) (o : Options) : Options :=
  {| repository := repository o; title := title o; body := body o;
     base_branch := b; head_branch := head_branch o;
     files := files o; labels := labels o; assignees := assignees o;
     reviewers := reviewers o; draft := draft o; dry_run := dry_run o |}.

Definition with_files (f : string) (o : Options) : Options :=
  {| repository := repository o; title := title o; body := body o;
     base_branch := base_branch o; head_branch := head_branch o;
     files := Some f; labels := labels o; assignees := assignees o;
     reviewers := reviewers o; draft := draft o; dry_run := dry_run o |}.

Definition with_people (l a r : string) (o : Options) : Options :=
  {| repository := repository o; title := title o; body := body o;
     base_branch := base_branch o; head_branch := head_branch o;
     files := files o; labels := Some l; assignees := Some a;
     reviewers := Some r; draft := draft o; dry_run := dry_run o |}.

Definition with_dry_run (o : Options) : Options :=
  {| repository := repository o; title := title o; body := body o;
     base_branch := base_branch o; head_branch := head_branch o;
     files := files o; labels := labels o; assignees := assignees o;
     reviewers := reviewers o; draft := true; dry_run := true |}.

Definition two_files : string := "/tmp/f1.txt:test.txt,/tmp/f2.py:src/test.py".

Definition sample_pr : PullRequest :=
  {| number := 123; html_url := "https://github.com/OWASP/Nest/pull/123" |}.

End Samples.
Import Samples.

(* ===================================================================== *)
(** ** Notions used in the statements *)
(* ===================================================================== *)

(** [for k, v in ps: d[k] = v] *)
Definition assign_all (ps : list (string * string)) (d : Dict.dict)
  : Dict.dict :=
  fold_left (fun d p => Dict.set d (fst p) (snd p)) ps d.


(** The file-mapping string "l1:r1,l2:r2,...,ln:rn". *)
Definition render_pair (p : string * string) : string :=
  fst p ++ ":" ++ snd p.

Definition render (ps : list (string * string)) : string :=
  join "," (map render_pair ps).

(** A pair that can be read back from the string: no comma on either
    side, no colon in the local path, and neither side blank. *)
Definition well_formed_pair (p : string * string) : bool :=
  negb (str_in "," (fst p)) && negb (str_in ":" (fst p))
  && negb (str_in "," (snd p))
  && truthy (strip (fst p)) && truthy (strip (snd p)).

Definition trim_pair (p : string * string) : string * string :=
  (strip (fst p), strip (snd p)).

(** A pair without a colon, or with a blank side around its first colon. *)
Definition malformed (file_spec : string) : bool :=
  negb (str_in ":" file_spec)
  || match split1 ":" file_spec with
     | [l; r] => negb (truthy (strip l)) || negb (truthy (strip r))
     | _ => true
     end.

(** The report [_parse_files] writes for a malformed pair. *)
Definition parse_error_message (file_spec : string) : string :=
  if negb (str_in ":" file_spec) then
    "Invalid file specification: " ++ file_spec ++ ". "
    ++ "Expected format: 'local_path:remote_path'"
  else
    match split1 ":" file_spec with
    | l :: _ =>
        if negb (truthy (strip l))
        then "Empty local path in specification: " ++ file_spec
        else "Empty remote path in specification: " ++ file_spec
    | [] => EmptyString
    end.

(** The option value of [--files] that spells the pairs [ps]: the
    rendered string, or no option at all when there is no pair. *)
Definition spells (files_str : option string) (ps : list (string * string))
  : Prop :=
  files_str = Some (render ps) \/ (files_str = None /\ ps = []).

(** The reading of well-formed input that ignores trimming and repeated
    local paths: a mapping of size n that sends each li to ri. *)
Definition keeps_every_pair (ps : list (string * string)) : Prop :=
  forallb well_formed_pair ps = true ->
  exists d,
    _parse_files (Some (render ps)) [] = (Return d, [])
    /\ Dict.len d = length ps
    /\ forall l r, In (l, r) ps -> Dict.get d l = Some r.

(** [emits P m]: whatever the history and the environment's answers,
    every event of [m] satisfies [P]. *)
Definition emits {A} (P : event -> bool) (m : M A) : Prop :=
  forall h, forallb P (snd (m h)) = true.

(** Events by collaborator. *)
Definition is_output (ev : event) : bool :=
  match ev with
  | EStdout _ _ | EStderr _ _ | ELogInfo _ | ELogException _ => true
  | _ => false
  end.

Definition is_file_system (ev : event) : bool :=
  match ev with
  | ECwd _ | EExists _ _ | EIsFile _ _ | EStatSize _ _ | EReadText _ _ _ => true
  | _ => false
  end.

Definition is_local (ev : event) : bool := is_output ev || is_file_system ev.

(** The calls of the upload loop, and of the whole file publisher. *)
Definition is_upload_call (ev : event) : bool :=
  match ev with
  | EGetContents _ _ _ | EUpdateFile _ _ _ _ _ _ | ECreateFile _ _ _ _ _ => true
  | _ => false
  end.

Definition in_upload_loop (ev : event) : bool := is_local ev || is_upload_call ev.

Definition in_upload (ev : event) : bool :=
  match ev with
  | EGetBranch _ _ | ECreateGitRef _ _ _ => true
  | _ => in_upload_loop ev
  end.

(** [wp m h Q]: started after the history [h], [m] ends with an outcome
    and new events that satisfy [Q]. *)
Definition wp {A} (m : M A) (h : list event)
           (Q : outcome A -> list event -> Prop) : Prop :=
  Q (fst (m h)) (snd (m h)).

(** [follows x y w]: somewhere in the run [w], [y] comes right after [x]. *)
Definition follows (x y : event) (w : list event) : Prop :=
  exists pre post, w = pre ++ x :: y :: post.

(** [ends_with s w]: the run [w] ends with the events [s]. *)
Definition ends_with (s w : list event) : Prop := exists pre, w = pre ++ s.


(** A repository identifier with two non-empty segments around its first
    slash. *)
Definition two_segments (repository : string) : bool :=
  match split1 "/" repository with
  | [owner; repo_name] => truthy owner && truthy repo_name
  | _ => false
  end.

(** A run that fails at once: a non-zero exit status and no call to the
    hosting platform. *)
Definition fails_before_network (x : outcome unit * list event) : Prop :=
  (exists code, fst x = Raise (SystemExit code) /\ code <> 0%Z)
  /\ forallb (fun ev => negb (is_network_call ev)) (snd x) = true.

(** The "reference already exists" error of the reference creation call. *)
Definition reference_exists (e : error) : bool :=
  is_GithubException e && str_in "Reference already exists" (str e).

(** What the logger records about the head branch. *)
Definition branch_note (head_branch : string) (r : result unit) : string :=
  match r with
  | Ok _ => "Created branch: " ++ head_branch
  | Err _ => "Branch " ++ head_branch ++ " already exists"
  end.

(** A label, assignee or reviewer call that raised, with its error. *)
Definition enrichment_failure (ev : event) : option (string * error) :=
  match ev with
  | EAddToLabels _ (Err e) => Some ("labels", e)
  | EAddToAssignees _ (Err e) => Some ("assignees", e)
  | EAddToReviewers _ (Err e) => Some ("reviewers", e)
  | _ => None
  end.

(** Every such error is a [GithubException]. *)
Definition remote_failures_only (w : list event) : bool :=
  forallb (fun ev =>
             match enrichment_failure ev with
             | Some (_, e) => is_GithubException e
             | None => true
             end) w.

(** Every such error is followed at once by its warning. *)
Fixpoint failures_warned (w : list event) : bool :=
  match w with
  | [] => true
  | ev :: rest =>
      match enrichment_failure ev with
      | Some (what, e) =>
          match rest with
          | EStderr WARNING msg :: _ =>
              String.eqb msg ("Failed to add " ++ what ++ ": " ++ str e)
          | _ => false
          end
      | None => true
      end && failures_warned rest
  end.


(** The closing lines of the dry-run report: the lists that are not
    empty. *)
Definition list_line (what : string) (xs : list string) : list event :=
  if nonempty xs then [EStdout Plain (what ++ ": " ++ join ", " xs)] else [].


(** A call to the file system about the path [p] that raised [e]. *)
Definition file_system_error (p : string) (e : error) (ev : event) : Prop :=
  ev = ECwd (Err e) \/ ev = EExists p (Err e) \/ ev = EIsFile p (Err e)
  \/ ev = EStatSize p (Err e).

(** The marker line of the dry-run report. *)
Definition not_found_line (local_path remote_path : string) : event :=
  EStdout Plain ("  " ++ local_path ++ " -> " ++ remote_path
                 ++ " (FILE NOT FOUND)").

(** The remote paths looked up, and those written with success, in the
    order of the calls. *)
Definition looked_up (w : list event) : list string :=
  flat_map (fun ev =>
              match ev with EGetContents p _ _ => [p] | _ => [] end) w.

Definition written (w : list event) : list string :=
  flat_map (fun ev =>
              match ev with
              | EUpdateFile p _ _ _ _ (Ok _) | ECreateFile p _ _ _ (Ok _) => [p]
              | _ => []
              end) w.

(** The events that can follow the creation of the pull request. *)
Definition after_pull (ev : event) : bool := is_output ev || is_enrichment ev.

(** What one pass of the loop looks up and writes. *)
Definition one_pass (remote_path : string) (r : outcome unit)
           (w : list event) : Prop :=
  match r with
  | Return _ => looked_up w = [remote_path] /\ written w = [remote_path]
  | Raise _ =>
      (looked_up w = [] \/ looked_up w = [remote_path]) /\ written w = []
  end.


(* ===================================================================== *)
(** ** Further notions used in the statements *)
(* ===================================================================== *)

(** A token as [_parse_list] returns it: not empty, without blanks
    around it, without a comma. *)
Definition clean_token (x : string) : bool :=
  truthy x && String.eqb (strip x) x && negb (str_in "," x).

(** A string that does not start with a blank. *)
Definition starts_clean (s : string) : bool :=
  match s with
  | EmptyString => true
  | String c _ => negb (is_space c)
  end.


(** The pair a piece "local:remote" of the file-mapping string stands
    for: the trimmed halves around its first colon. *)
Definition read_pair (file_spec : string) : string * string :=
  match split1 ":" file_spec with
  | [l; r] => (strip l, strip r)
  | _ => (EmptyString, EmptyString)
  end.

(** A path as [_parse_files] stores it: not empty, trimmed, without a
    comma. *)
Definition clean_entry (p : string * string) : bool :=
  clean_token (fst p) && negb (str_in ":" (fst p)) && clean_token (snd p).

(** The three checks a file passes in [_validate_file_path]. *)
Definition checks (path : string) (n : N) : list event :=
  [EExists path (Ok true); EIsFile path (Ok true); EStatSize path (Ok n)].

(** What [_validate_file_path] does before the checks: nothing for a
    path that is absolute, a look at the working directory for a
    relative one. The path that is checked is the one [pathlib] builds. *)
Definition resolves (file_path path : string) (pre : list event) : Prop :=
  (is_absolute (Path file_path) = true
   /\ path = Path file_path /\ pre = [])
  \/ (is_absolute (Path file_path) = false
      /\ exists d, path = joinpath d (Path file_path)
                   /\ pre = [ECwd (Ok d)]).

(** The two ways [_validate_file_path] fails: an exit with status 1 right
    after one error line, or an exception of the file system that is
    neither an [OSError] nor a [ValueError], passed on without a word. *)
Definition validation_failure (e : exn) (w : list event) : Prop :=
  (e = SystemExit 1
   /\ exists pre msg,
       w = pre ++ [EStderr ERROR msg]
       /\ forallb is_file_system pre = true)
  \/ (exists err,
         e = Exc err /\ is_OSError err = false /\ is_ValueError err = false
         /\ forallb is_file_system w = true).

(** The sample file system with one more file, of exactly 100 MiB. *)
Definition limit_fs (p : string) : option node :=
  if String.eqb p "/tmp/limit.bin" then Some (Regular 104857600)
  else sample_fs p.

Definition is_stdout (ev : event) : bool :=
  match ev with EStdout _ _ => true | _ => false end.

(** The line of the dry-run report for a file that is valid. *)
Definition sized_line (local_path remote_path : string) (n : N) : event :=
  EStdout Plain ("  " ++ local_path ++ " -> " ++ remote_path ++ " ("
                 ++ str_of_N n ++ " bytes)")%string.

(** A run of [_validate_file_path] that refuses the file: the answer of
    the file system that decides, and the error line that follows it.
    The file is missing, or is not a regular file, or is larger than
    100 MiB, or a call to the file system raised an [OSError] or a
    [ValueError]. *)
Inductive refused (file_path : string) : list event -> Prop :=
| refused_missing (path : string) (pre : list event) :
    resolves file_path path pre ->
    refused file_path
            (pre ++ [EExists path (Ok false);
                     EStderr ERROR ("File not found: " ++ file_path)%string])
| refused_not_a_file (path : string) (pre : list event) :
    resolves file_path path pre ->
    refused file_path
            (pre ++ [EExists path (Ok true); EIsFile path (Ok false);
                     EStderr ERROR
                       ("Path is not a file: " ++ file_path)%string])
| refused_too_large (path : string) (pre : list event) (n : N) :
    resolves file_path path pre ->
    (max_size < n)%N ->
    refused file_path
            (pre ++ checks path n
                 ++ [EStderr ERROR
                       ("File too large: " ++ file_path ++ " ("
                        ++ str_of_N n ++ " bytes). "
                        ++ "Maximum size is " ++ str_of_N max_size
                        ++ " bytes.")%string])
| refused_error (calls : list event) (ev : event) (path : string)
                (e : error) :
    forallb is_file_system calls = true ->
    file_system_error path e ev ->
    is_OSError e || is_ValueError e = true ->
    refused file_path
            (calls ++ [ev;
                       EStderr ERROR ("Invalid file path '" ++ file_path
                                      ++ "': " ++ str e)%string]).

(** [lists_files items w]: the run [w] is the file list of the dry-run
    report for the entries [items], entry after entry. A file that
    passes the three checks is listed with the size that the file system
    then reports for it; a file that is refused is listed with the
    marker, right after the error line of its validation. *)
Inductive lists_files : list (string * string) -> list event -> Prop :=
| lists_none : lists_files [] []
| lists_sized (local_path remote_path : string)
              (items : list (string * string)) (pre : list event)
              (path : string) (n0 n : N) (w : list event) :
    resolves local_path path pre ->
    (n0 <= max_size)%N ->
    lists_files items w ->
    lists_files ((local_path, remote_path) :: items)
                (pre ++ checks path n0
                     ++ [EStatSize path (Ok n);
                         sized_line local_path remote_path n]
                     ++ w)
| lists_marked (local_path remote_path : string)
               (items : list (string * string)) (v w : list event) :
    refused local_path v ->
    lists_files items w ->
    lists_files ((local_path, remote_path) :: items)
                (v ++ [not_found_line local_path remote_path] ++ w).

(** [stops_listing items w]: the file list stopped at an entry, on an
    exception: the entries before it are listed, and nothing is printed
    for the entry itself. *)
Definition stops_listing (items : list (string * string))
           (w : list event) : Prop :=
  exists before entry rest wb wf,
    items = before ++ entry :: rest
    /\ lists_files before wb
    /\ forallb (fun ev => negb (is_stdout ev)) wf = true
    /\ w = wb ++ wf.

(** The parts of the dry-run report around the file list. *)
Definition report_header (repository title body base_branch head_branch
                          : string) (draft : bool) : list event :=
  [EStdout WARNING "DRY RUN - No changes will be made";
   EStdout Plain ("Repository: " ++ repository);
   EStdout Plain ("Title: " ++ title);
   EStdout Plain ("Body: " ++ body);
   EStdout Plain ("Base branch: " ++ base_branch);
   EStdout Plain ("Head branch: " ++ head_branch);
   EStdout Plain ("Draft: " ++ str_of_bool draft)]%string.

Definition files_heading : event := EStdout Plain "Files to upload:".

Definition files_block (files : Dict.dict) (w : list event) : list event :=
  if Dict.truthy files then files_heading :: w else [].

Definition report_lists (labels assignees reviewers : list string)
  : list event :=
  list_line "Labels" labels ++ list_line "Assignees" assignees
  ++ list_line "Reviewers" reviewers.

(** The path [_validate_file_path] checks for [file_path], when the
    working directory, if it is needed, is always there. *)
Definition located (env : Env) (file_path path : string) : Prop :=
  (is_absolute (Path file_path) = true /\ path = Path file_path)
  \/ (is_absolute (Path file_path) = false
      /\ exists d, (forall h, cwd env h = Ok d)
                   /\ path = joinpath d (Path file_path)).

(** A path that the file system reports as missing, or as something
    else than a regular file (a directory, say), or as a file larger
    than 100 MiB. *)
Definition unfit (env : Env) (path : string) : Prop :=
  (forall h, exists_ env h path = Ok false)
  \/ ((forall h, exists_ env h path = Ok true)
      /\ (forall h, is_file env h path = Ok false))
  \/ ((forall h, exists_ env h path = Ok true)
      /\ (forall h, is_file env h path = Ok true)
      /\ exists n, (forall h, stat_size env h path = Ok n)
                   /\ (100 * 1024 * 1024 < n)%N).

(** What the calls of one pass of the upload loop carry: the remote path
    and the head branch of the pass, the commit message built from the
    remote path, the blob identifier that the lookup returned, and a
    content that was read from the local file. *)
Definition carries_upload (head_branch remote_path : string)
           (w : list event) (ev : event) : Prop :=
  match ev with
  | EGetContents p b _ => p = remote_path /\ b = head_branch
  | EUpdateFile p m c s b _ =>
      p = remote_path /\ m = ("Update " ++ remote_path)%string
      /\ b = head_branch
      /\ (exists f, In (EGetContents remote_path head_branch (Ok f)) w
                    /\ s = sha f)
      /\ exists path mode, In (EReadText path mode (Ok c)) w
  | ECreateFile p m c b _ =>
      p = remote_path /\ m = ("Create " ++ remote_path)%string
      /\ b = head_branch
      /\ exists path mode, In (EReadText path mode (Ok c)) w
  | _ => True
  end.

(** A lookup or an update of the remote file that raised, with its
    error. *)
Definition remote_miss (ev : event) : option error :=
  match ev with
  | EGetContents _ _ (Err e) | EUpdateFile _ _ _ _ _ (Err e) => Some e
  | _ => None
  end.


(** The only exit status the command uses. *)
Definition status_one (e : exn) : Prop :=
  match e with
  | SystemExit code => code = 1%Z
  | Exc _ => True
  end.

(** [exits_one m]: whenever [m] exits, it is with status 1. *)
Definition exits_one {A} (m : M A) : Prop :=
  forall h, match fst (m h) with
            | Raise e => status_one e
            | Return _ => True
            end.

Definition is_close (ev : event) : bool :=
  match ev with EClose => true | _ => false end.

Definition same_list (xs ys : list string) : bool :=
  if list_eq_dec string_dec xs ys then true else false.

(** What the remote calls of a run owe to the options: the repository,
    the branches, the texts of the pull request, the draft flag and the
    parsed lists, passed on as they are. *)
Definition carries_options (o : Options) (ev : event) : bool :=
  match ev with
  | EGetRepo r _ => String.eqb r (repository o)
  | EGetBranch b _ => String.eqb b (base_branch o) || String.eqb b "main"
  | ECreateGitRef ref _ _ =>
      String.eqb ref ("refs/heads/" ++ head_branch o)
  | EGetContents _ b _ | EUpdateFile _ _ _ _ b _ | ECreateFile _ _ _ b _ =>
      String.eqb b (head_branch o)
  | ECreatePull t b ba hd d _ =>
      String.eqb t (title o) && String.eqb b (body o)
      && String.eqb ba (base_branch o) && String.eqb hd (head_branch o)
      && Bool.eqb d (draft o)
  | EAddToLabels xs _ =>
      nonempty xs && same_list xs (_parse_list (labels o))
  | EAddToAssignees xs _ =>
      nonempty xs && same_list xs (_parse_list (assignees o))
  | EAddToReviewers xs _ =>
      nonempty xs && same_list xs (_parse_list (reviewers o))
  | _ => true
  end.

(** The events of [handle] before its [finally] clause. *)
Definition in_handle_body (o : Options) (ev : event) : bool :=
  carries_options o ev && negb (is_close ev).

(** The start of a run whose token call returned a client. *)
Definition authenticated : list event :=
  [EGetClient (Ok tt);
   ELogInfo
     "Successfully authenticated with GitHub using installation access token"].

(** The last clause of [handle]: what it records and writes for an
    exception that no other clause has caught. *)
Definition unexpected (e : error) : list event :=
  [ELogException "Unexpected error creating Pull Request";
   EStderr ERROR ("Unexpected error: " ++ str e)%string].

(** The calls of the file publisher that create the head branch or touch
    a remote file. *)
Definition is_publication (ev : event) : bool :=
  is_ref_creation ev || is_upload_call ev.
Arguments String.append : simpl never.
Unset Implicit Arguments.

(* ===================================================================== *)
(** ** Strings: membership, splitting and joining *)
(* ===================================================================== *)

Section StringFacts.

Variable c : ascii.
Let sep : string := String c EmptyString.

Lemma prefix_empty (s : string) : prefix EmptyString s = true.
Proof. destruct s; reflexivity. Qed.

Lemma str_in_char_cons (a : ascii) (t : string) :
  str_in sep (String a t) = Ascii.eqb a c || str_in sep t.
Proof.
  unfold sep. cbn [str_in prefix].
  destruct (ascii_dec c a) as [->|Hne].
  - rewrite Ascii.eqb_refl, prefix_empty. reflexivity.
  - assert (Ascii.eqb a c = false) as ->.
    { apply Ascii.eqb_neq. congruence. }
    reflexivity.
Qed.

Lemma str_in_char_app (a b : string) :
  str_in sep (a ++ b) = str_in sep a || str_in sep b.
Proof.
  induction a as [|x a IH].
  - reflexivity.
  - change (String x a ++ b)%string with (String x (a ++ b)).
    rewrite !str_in_char_cons, IH. now rewrite orb_assoc.
Qed.

Lemma split1_without (s : string) :
  str_in sep s = false -> split1 c s = [s].
Proof.
  induction s as [|a t IH]; intros H.
  - reflexivity.
  - rewrite str_in_char_cons in H. apply orb_false_iff in H as [Ha Ht].
    cbn [split1]. rewrite Ha, (IH Ht). reflexivity.
Qed.

Lemma split1_app (l r : string) :
  str_in sep l = false -> split1 c (l ++ String c r) = [l; r].
Proof.
  induction l as [|a t IH]; intros H.
  - change (EmptyString ++ String c r)%string with (String c r).
    cbn [split1]. now rewrite Ascii.eqb_refl.
  - rewrite str_in_char_cons in H. apply orb_false_iff in H as [Ha Ht].
    change (String a t ++ String c r)%string with (String a (t ++ String c r)).
    cbn [split1]. rewrite Ha, (IH Ht). reflexivity.
Qed.

Lemma split1_with (s : string) :
  str_in sep s = true ->
  exists l r : string, s = (l ++ String c r)%string /\ str_in sep l = false.
Proof.
  induction s as [|a t IH]; intros H.
  - discriminate.
  - rewrite str_in_char_cons in H.
    destruct (Ascii.eqb a c) eqn:Ha.
    + apply Ascii.eqb_eq in Ha as ->. exists EmptyString, t. now split.
    + destruct (IH H) as (l & r & -> & Hl).
      exists (String a l), r. split; [reflexivity|].
      rewrite str_in_char_cons, Ha, Hl. reflexivity.
Qed.

Lemma split_without (s : string) :
  str_in sep s = false -> split c s = [s].
Proof.
  induction s as [|a t IH]; intros H.
  - reflexivity.
  - rewrite str_in_char_cons in H. apply orb_false_iff in H as [Ha Ht].
    cbn [split]. rewrite Ha, (IH Ht). reflexivity.
Qed.

Lemma split_app (l r : string) :
  str_in sep l = false -> split c (l ++ String c r) = l :: split c r.
Proof.
  induction l as [|a t IH]; intros H.
  - change (EmptyString ++ String c r)%string with (String c r).
    cbn [split]. now rewrite Ascii.eqb_refl.
  - rewrite str_in_char_cons in H. apply orb_false_iff in H as [Ha Ht].
    change (String a t ++ String c r)%string with (String a (t ++ String c r)).
    cbn [split]. rewrite Ha, (IH Ht). reflexivity.
Qed.

Lemma split_join (xs : list string) :
  xs <> [] ->
  Forall (fun x => str_in sep x = false) xs ->
  split c (join sep xs) = xs.
Proof.
  intros Hne Hall. induction Hall as [|x xs Hx Hxs IH]; [congruence|].
  destruct xs as [|y ys].
  - cbn [join String.concat]. now apply split_without.
  - change (join sep (x :: y :: ys)) with (x ++ String c (join sep (y :: ys)))%string.
    rewrite split_app by exact Hx. f_equal. apply IH. discriminate.
Qed.

End StringFacts.

Lemma truthy_true (s : string) : s <> EmptyString -> truthy s = true.
Proof. destruct s; [congruence | reflexivity]. Qed.

Lemma join_cons_truthy (sep x : string) (xs : list string) :
  truthy x = true -> truthy (join sep (x :: xs)) = true.
Proof.
  destruct x as [|a t]; [discriminate|]. intros _.
  destruct xs; reflexivity.
Qed.

(* ===================================================================== *)
(** ** Dictionaries: assignment, lookup and size *)
(* ===================================================================== *)

Section DictFacts.

Implicit Types (d : Dict.dict) (k v : string) (ps : list (string * string)).

Lemma get_set_same d k v : Dict.get (Dict.set d k v) k = Some v.
Proof.
  induction d as [|[k' v'] d IH]; cbn.
  - now rewrite String.eqb_refl.
  - destruct (String.eqb k' k) eqn:E; cbn; rewrite E; auto.
Qed.

Lemma get_set_other d k v k' :
  k <> k' -> Dict.get (Dict.set d k v) k' = Dict.get d k'.
Proof.
  intros Hne. induction d as [|[k0 v0] d IH]; cbn.
  - apply String.eqb_neq in Hne. now rewrite Hne.
  - destruct (String.eqb k0 k) eqn:E; cbn.
    + apply String.eqb_eq in E as ->.
      apply String.eqb_neq in Hne. now rewrite Hne.
    + now rewrite IH.
Qed.

Lemma set_fresh d k v : ~ In k (Dict.keys d) -> Dict.set d k v = d ++ [(k, v)].
Proof.
  induction d as [|[k' v'] d IH]; cbn; intros Hn.
  - reflexivity.
  - destruct (String.eqb k' k) eqn:E.
    + apply String.eqb_eq in E. tauto.
    + f_equal. apply IH. tauto.
Qed.

Lemma keys_set_present d k v :
  In k (Dict.keys d) -> Dict.keys (Dict.set d k v) = Dict.keys d.
Proof.
  induction d as [|[k' v'] d IH]; cbn; intros Hin.
  - contradiction.
  - destruct (String.eqb k' k) eqn:E; cbn.
    + reflexivity.
    + f_equal. apply IH. destruct Hin as [ -> | Hin ]; [|assumption].
      now rewrite String.eqb_refl in E.
Qed.

Lemma keys_set d k v :
  Dict.keys (Dict.set d k v)
  = if in_dec string_dec k (Dict.keys d) then Dict.keys d
    else Dict.keys d ++ [k].
Proof.
  destruct (in_dec string_dec k (Dict.keys d)) as [Hin|Hn].
  - now apply keys_set_present.
  - rewrite set_fresh by assumption. unfold Dict.keys. now rewrite map_app.
Qed.

Lemma in_keys_set d k v x :
  In x (Dict.keys (Dict.set d k v)) <-> In x (Dict.keys d) \/ x = k.
Proof.
  rewrite keys_set. destruct (in_dec string_dec k (Dict.keys d)).
  - split; [tauto|]. intros [ Hx | -> ]; assumption.
  - rewrite in_app_iff. cbn. intuition.
Qed.

Lemma NoDup_keys_set d k v :
  NoDup (Dict.keys d) -> NoDup (Dict.keys (Dict.set d k v)).
Proof.
  intros Hd. rewrite keys_set.
  destruct (in_dec string_dec k (Dict.keys d)) as [Hin|Hn]; [assumption|].
  apply NoDup_app; [assumption | repeat constructor; cbn; tauto |].
  intros x Hx [ <- | [] ]. contradiction.
Qed.

Lemma assign_all_app ps1 ps2 d :
  assign_all (ps1 ++ ps2) d = assign_all ps2 (assign_all ps1 d).
Proof. apply fold_left_app. Qed.

Lemma NoDup_keys_assign_all ps d :
  NoDup (Dict.keys d) -> NoDup (Dict.keys (assign_all ps d)).
Proof.
  revert d. induction ps as [|p ps IH]; intros d Hd; cbn.
  - assumption.
  - apply IH. now apply NoDup_keys_set.
Qed.

Lemma in_keys_assign_all ps d x :
  In x (Dict.keys (assign_all ps d))
  <-> In x (Dict.keys d) \/ In x (map fst ps).
Proof.
  revert d. induction ps as [|p ps IH]; intros d; cbn.
  - tauto.
  - rewrite IH, in_keys_set. intuition.
Qed.

(** Assigning pairwise distinct fresh keys appends the pairs in order. *)
Lemma assign_all_fresh ps d :
  NoDup (Dict.keys d ++ map fst ps) -> assign_all ps d = d ++ ps.
Proof.
  revert d. induction ps as [|[k v] ps IH]; intros d Hnd; cbn.
  - now rewrite app_nil_r.
  - cbn in Hnd. pose proof (NoDup_remove_2 _ _ _ Hnd) as Hk.
    rewrite set_fresh by (intros Hin; apply Hk, in_or_app; now left).
    rewrite IH.
    + now rewrite <- app_assoc.
    + unfold Dict.keys. rewrite map_app, <- app_assoc. exact Hnd.
Qed.

(** The size of the dictionary is the number of distinct keys assigned. *)
Lemma len_assign_all ps :
  Dict.len (assign_all ps []) = length (nodup string_dec (map fst ps)).
Proof.
  unfold Dict.len. rewrite <- (length_map fst (assign_all ps [])).
  apply Permutation_length, NoDup_Permutation.
  - apply NoDup_keys_assign_all. constructor.
  - apply NoDup_nodup.
  - intros x. rewrite nodup_In.
    change (map fst (assign_all ps [])) with (Dict.keys (assign_all ps [])).
    rewrite in_keys_assign_all. cbn. tauto.
Qed.

Lemma get_assign_all_skip ps d k :
  ~ In k (map fst ps) -> Dict.get (assign_all ps d) k = Dict.get d k.
Proof.
  revert d. induction ps as [|[k' v'] ps IH]; intros d Hn; cbn.
  - reflexivity.
  - cbn in Hn. rewrite IH by tauto. apply get_set_other. tauto.
Qed.

(** The last assignment to a key decides its value. *)
Lemma get_assign_all_last ps1 ps2 d k v :
  ~ In k (map fst ps2) ->
  Dict.get (assign_all (ps1 ++ (k, v) :: ps2) d) k = Some v.
Proof.
  intros Hn. rewrite assign_all_app. cbn.
  rewrite get_assign_all_skip by assumption. apply get_set_same.
Qed.

End DictFacts.

Example split_ex : split "," "a:b,c:d," = ["a:b"; "c:d"; ""].
Proof. reflexivity. Qed.
Example split1_ex : split1 ":" "l:a:b" = ["l"; "a:b"].
Proof. reflexivity. Qed.
Example strip_ex : strip "  a b  " = "a b".
Proof. reflexivity. Qed.
Example str_in_ex : str_in "Reference already exists" "422 Reference already exists" = true.
Proof. reflexivity. Qed.
Example str_of_N_ex : str_of_N 104857600 = "104857600".
Proof. reflexivity. Qed.

(* ===================================================================== *)
(** ** [_parse_files] *)
(* ===================================================================== *)

Section ParseFiles.


Lemma render_pair_eq (l r : string) :
  render_pair (l, r) = (l ++ String ":" r)%string.
Proof. reflexivity. Qed.

Lemma strip_truthy_nonempty (s : string) :
  truthy (strip s) = true -> truthy s = true.
Proof. destruct s; [discriminate | reflexivity]. Qed.

Lemma well_formed_pair_inv (p : string * string) :
  well_formed_pair p = true ->
  str_in "," (fst p) = false /\ str_in ":" (fst p) = false
  /\ str_in "," (snd p) = false
  /\ truthy (strip (fst p)) = true /\ truthy (strip (snd p)) = true.
Proof.
  unfold well_formed_pair. rewrite !andb_true_iff, !negb_true_iff. tauto.
Qed.

(** One iteration of the loop: a malformed pair is reported and ends the
    run, any other pair is assigned. *)
Lemma parse_file_spec_cases (d : Dict.dict) (file_spec : string)
      (h : list event) :
  parse_file_spec d file_spec h
  = if malformed file_spec
    then (Raise (SystemExit 1),
          [EStderr ERROR (parse_error_message file_spec)])
    else match split1 ":" file_spec with
         | [l; r] => (Return (Dict.set d (strip l) (strip r)), [])
         | _ => (Raise (SystemExit 1), [])
         end.
Proof.
  unfold parse_file_spec, malformed, parse_error_message.
  destruct (str_in ":" file_spec) eqn:Hc; cbn [negb orb].
  - destruct (split1_with _ _ Hc) as (l & r & -> & Hl).
    rewrite split1_app by exact Hl.
    cbn [unpack2 bind ret fst snd].
    destruct (truthy (strip l)); cbn [negb orb]; [|reflexivity].
    destruct (truthy (strip r)); reflexivity.
  - reflexivity.
Qed.

Lemma parse_file_spec_ok (d : Dict.dict) (p : string * string)
      (h : list event) :
  well_formed_pair p = true ->
  parse_file_spec d (render_pair p) h
  = (Return (Dict.set d (strip (fst p)) (strip (snd p))), []).
Proof.
  intros Hwf. apply well_formed_pair_inv in Hwf as (_ & Hc & _ & Hl & Hr).
  destruct p as [l r]; cbn [fst snd] in *.
  rewrite parse_file_spec_cases. unfold malformed.
  rewrite render_pair_eq, split1_app by exact Hc.
  rewrite str_in_char_app, str_in_char_cons, Ascii.eqb_refl, orb_true_r.
  cbn [negb orb]. now rewrite Hl, Hr.
Qed.

Lemma parse_file_specs_ok (ps : list (string * string)) (d : Dict.dict)
      (h : list event) :
  forallb well_formed_pair ps = true ->
  parse_file_specs (map render_pair ps) d h
  = (Return (assign_all (map trim_pair ps) d), []).
Proof.
  revert d h. induction ps as [|p ps IH]; intros d h Hwf.
  - reflexivity.
  - cbn [forallb] in Hwf. apply andb_true_iff in Hwf as [Hp Hps].
    cbn [map parse_file_specs]. unfold bind.
    rewrite parse_file_spec_ok by exact Hp.
    rewrite IH by exact Hps. reflexivity.
Qed.

Lemma render_pair_no_comma (p : string * string) :
  well_formed_pair p = true -> str_in "," (render_pair p) = false.
Proof.
  intros Hwf. apply well_formed_pair_inv in Hwf as (Hl & _ & Hr & _).
  destruct p as [l r]; cbn [fst snd] in *.
  rewrite render_pair_eq, str_in_char_app, str_in_char_cons, Hl, Hr.
  reflexivity.
Qed.

(** The parser reads a rendered list of well-formed pairs back as the
    successive assignments of the trimmed pairs. *)
Lemma parse_files_render (ps : list (string * string)) (h : list event) :
  forallb well_formed_pair ps = true ->
  _parse_files (Some (render ps)) h
  = (Return (assign_all (map trim_pair ps) []), []).
Proof.
  intros Hwf. unfold _parse_files.
  destruct ps as [|p ps]; [reflexivity|].
  assert (truthy (render (p :: ps)) = true) as ->.
  { cbn [forallb] in Hwf. apply andb_true_iff in Hwf as [Hp _].
    apply well_formed_pair_inv in Hp as (_ & _ & _ & Hl & _).
    apply strip_truthy_nonempty in Hl.
    unfold render. cbn [map]. apply join_cons_truthy.
    destruct p as [l r]; cbn [fst] in Hl.
    destruct l; [discriminate | reflexivity]. }
  cbn [negb]. unfold render.
  rewrite split_join.
  - now apply parse_file_specs_ok.
  - discriminate.
  - apply Forall_forall. intros x Hx. apply in_map_iff in Hx as (q & <- & Hq).
    apply render_pair_no_comma.
    rewrite forallb_forall in Hwf. now apply Hwf.
Qed.

Lemma parse_file_specs_malformed (specs : list string) (d : Dict.dict)
      (h : list event) :
  existsb malformed specs = true ->
  exists file_spec,
    In file_spec specs /\ malformed file_spec = true
    /\ parse_file_specs specs d h
       = (Raise (SystemExit 1),
          [EStderr ERROR (parse_error_message file_spec)]).
Proof.
  revert d h. induction specs as [|x specs IH]; intros d h Hex.
  - discriminate.
  - cbn [parse_file_specs]. unfold bind. rewrite parse_file_spec_cases.
    destruct (malformed x) eqn:Hx.
    + exists x. cbn. auto.
    + cbn [existsb] in Hex. rewrite Hx in Hex. cbn [orb] in Hex.
      unfold malformed in Hx. apply orb_false_iff in Hx as [Hc Hx].
      apply negb_false_iff in Hc.
      destruct (split1_with _ _ Hc) as (l & r & -> & Hl).
      rewrite split1_app by exact Hl.
      destruct (IH (Dict.set d (strip l) (strip r)) (h ++ []) Hex)
        as (y & Hy & Hm & ->).
      exists y. cbn. auto.
Qed.

End ParseFiles.

(** C3 (amended). For every well-formed file-mapping string
    "l1:r1,...,ln:rn" whose local paths are pairwise distinct after
    trimming, [_parse_files] returns, without writing anything, the
    mapping that holds the trimmed pairs in the order of the string: its
    size is n and it maps each trimmed li to the trimmed ri. For an empty
    or absent input (n = 0) the mapping is empty. *)
Theorem parse_files_well_formed
        (files_str : option string) (ps : list (string * string))
        (h : list event) :
  spells files_str ps ->
  forallb well_formed_pair ps = true ->
  NoDup (map (fun p => strip (fst p)) ps) ->
  exists d,
    _parse_files files_str h = (Return d, [])
    /\ Dict.items d = map trim_pair ps
    /\ Dict.len d = length ps
    /\ (forall l r, In (l, r) ps -> Dict.get d (strip l) = Some (strip r))
    /\ (ps = [] -> d = []).
Proof.
  intros Hs Hwf Hnd.
  assert (Hd : assign_all (map trim_pair ps) [] = map trim_pair ps).
  { rewrite assign_all_fresh; [reflexivity|].
    cbn [Dict.keys map app]. rewrite map_map. exact Hnd. }
  assert (Hparse : _parse_files files_str h = (Return (map trim_pair ps), [])).
  { destruct Hs as [-> | [-> ->]]; [|reflexivity].
    rewrite parse_files_render by exact Hwf. now rewrite Hd. }
  exists (map trim_pair ps). split; [exact Hparse|].
  split; [reflexivity|]. split; [apply length_map|]. split.
  - intros l r Hin. apply in_split in Hin as (ps1 & ps2 & ->).
    rewrite <- Hd, map_app. cbn [map].
    change (trim_pair (l, r)) with (strip l, strip r).
    apply get_assign_all_last.
    rewrite map_app in Hnd. cbn [map fst] in Hnd.
    apply NoDup_remove_2 in Hnd. rewrite map_map. cbn [trim_pair fst].
    intros Hin. apply Hnd, in_or_app. now right.
  - now intros ->.
Qed.

(** The string "a:x, b:y:z" and the absent option are read as promised. *)
Lemma parse_files_well_formed_witness :
  (exists d,
      _parse_files (Some "a:x, b:y:z") [] = (Return d, [])
      /\ Dict.items d = [("a", "x"); ("b", "y:z")]
      /\ Dict.len d = 2
      /\ (forall l r, In (l, r) [("a", "x"); (" b", "y:z")] ->
                      Dict.get d (strip l) = Some (strip r))
      /\ ([("a", "x"); (" b", "y:z")] = [] -> d = []))
  /\ (exists d, _parse_files None [] = (Return d, []) /\ d = []).
Proof.
  split.
  - apply (parse_files_well_formed
             (Some "a:x, b:y:z") [("a", "x"); (" b", "y:z")] []).
    + left. reflexivity.
    + reflexivity.
    + cbn. repeat constructor; cbn; intuition discriminate.
  - destruct (parse_files_well_formed None [] []) as (d & H1 & _ & _ & _ & H5).
    + right. split; reflexivity.
    + reflexivity.
    + constructor.
    + exists d. split; [exact H1 | now apply H5].
Defined.

(** C3 as stated fails on "a:x, a:y": both pairs are well formed, yet
    the mapping has one entry, not two, and it sends "a" to "y". *)
Lemma parse_files_repeated_local_path :
  render [("a", "x"); (" a", "y")] = "a:x, a:y"
  /\ _parse_files (Some "a:x, a:y") [] = (Return [("a", "y")], [])
  /\ ~ keeps_every_pair [("a", "x"); (" a", "y")].
Proof.
  split; [reflexivity|]. split; [reflexivity|].
  intros H. destruct (H eq_refl) as (d & Hp & Hlen & _).
  cbn in Hp. injection Hp as <-. discriminate Hlen.
Qed.

(** C4. For every non-empty input with a pair that lacks a colon or has
    a blank side around its first colon, [_parse_files] reports one such
    pair on the error stream and exits with status 1. A pair is split at
    its first colon only: whatever follows it, colons included, is the
    remote path. *)
Theorem parse_files_malformed :
  (forall (s : string) (h : list event),
      truthy s = true ->
      existsb malformed (split "," s) = true ->
      exists file_spec,
        In file_spec (split "," s) /\ malformed file_spec = true
        /\ _parse_files (Some s) h
           = (Raise (SystemExit 1),
              [EStderr ERROR (parse_error_message file_spec)]))
  /\ (forall (l r : string) (h : list event),
         well_formed_pair (l, r) = true ->
         _parse_files (Some (l ++ ":" ++ r)%string) h
         = (Return [(strip l, strip r)], [])).
Proof.
  split.
  - intros s h Hs Hex. unfold _parse_files. rewrite Hs. cbn [negb].
    now apply parse_file_specs_malformed.
  - intros l r h Hwf.
    change (l ++ ":" ++ r)%string with (render [(l, r)]).
    rewrite parse_files_render; [reflexivity|].
    cbn [forallb]. now rewrite Hwf.
Qed.

Lemma parse_files_malformed_witness :
  (exists file_spec,
      In file_spec (split "," "a:b,noColon") /\ malformed file_spec = true
      /\ _parse_files (Some "a:b,noColon") []
         = (Raise (SystemExit 1),
            [EStderr ERROR (parse_error_message file_spec)]))
  /\ _parse_files (Some ("local" ++ ":" ++ "C:/remote:1")%string) []
     = (Return [(strip "local", strip "C:/remote:1")], []).
Proof.
  split.
  - apply (proj1 parse_files_malformed "a:b,noColon" []); reflexivity.
  - apply (proj2 parse_files_malformed "local" "C:/remote:1" []). reflexivity.
Defined.

Example parse_files_no_colon :
  _parse_files (Some "noColon") []
  = (Raise (SystemExit 1),
     [EStderr ERROR "Invalid file specification: noColon. Expected format: 'local_path:remote_path'"]).
Proof. reflexivity. Qed.

Example parse_files_empty_local :
  _parse_files (Some ":remote") []
  = (Raise (SystemExit 1),
     [EStderr ERROR "Empty local path in specification: :remote"]).
Proof. reflexivity. Qed.

Example parse_files_empty_remote :
  _parse_files (Some "local:") []
  = (Raise (SystemExit 1),
     [EStderr ERROR "Empty remote path in specification: local:"]).
Proof. reflexivity. Qed.

Example parse_files_colon_in_remote :
  _parse_files (Some "notes.txt:docs/a:b.txt") []
  = (Return [("notes.txt", "docs/a:b.txt")], []).
Proof. reflexivity. Qed.

(* ===================================================================== *)
(** ** Which events a piece of the command can emit *)
(* ===================================================================== *)

Section Emits.

Context {A B : Type} (P : event -> bool).

Lemma emits_ret (a : A) : emits P (ret a).
Proof. intros h. reflexivity. Qed.

Lemma emits_raise (e : exn) : emits P (@raise A e).
Proof. intros h. reflexivity. Qed.

Lemma emits_sys_exit (code : Z) : emits P (@sys_exit A code).
Proof. intros h. reflexivity. Qed.

Lemma emits_emit (ev : event) : P ev = true -> emits P (emit ev).
Proof. intros H h. cbn. now rewrite H. Qed.

Lemma emits_call (ask : list event -> result A) (mk : result A -> event) :
  (forall r, P (mk r) = true) -> emits P (call ask mk).
Proof. intros H h. cbn. now rewrite H. Qed.

Lemma emits_bind (m : M A) (f : A -> M B) :
  emits P m -> (forall a, emits P (f a)) -> emits P (bind m f).
Proof.
  intros Hm Hf h. unfold bind. specialize (Hm h).
  destruct (m h) as [[a|e] w]; cbn in *; [|exact Hm].
  rewrite forallb_app, Hm. apply Hf.
Qed.

Lemma emits_try_except (m : M A) (handler : exn -> option (M A)) :
  emits P m ->
  (forall e k, handler e = Some k -> emits P k) ->
  emits P (try_except m handler).
Proof.
  intros Hm Hk h. unfold try_except. specialize (Hm h).
  destruct (m h) as [[a|e] w]; cbn in *; [exact Hm|].
  destruct (handler e) as [k|] eqn:E; cbn; [|exact Hm].
  rewrite forallb_app, Hm. apply (Hk _ _ E).
Qed.

Lemma emits_if (b : bool) (m1 m2 : M A) :
  emits P m1 -> emits P m2 -> emits P (if b then m1 else m2).
Proof. destruct b; auto. Qed.

End Emits.

Lemma emits_weaken {A} (P Q : event -> bool) (m : M A) :
  (forall ev, P ev = true -> Q ev = true) -> emits P m -> emits Q m.
Proof.
  intros HPQ Hm h. specialize (Hm h).
  rewrite forallb_forall in *. auto.
Qed.

(** Handlers are case analyses on the exception: each clause either
    declines or continues with a computation to be examined in turn. *)
Ltac emits_handler :=
  let e := fresh "e" in
  let k := fresh "k" in
  let H := fresh "H" in
  intros e k H;
  repeat match type of H with
         | context [match ?x with _ => _ end] => destruct x; try discriminate H
         end;
  injection H as <-.

Ltac emits_step :=
  first
    [ apply emits_ret
    | apply emits_raise
    | apply emits_sys_exit
    | apply emits_emit; reflexivity
    | apply emits_call; intros; reflexivity
    | apply emits_bind; [|intros]
    | apply emits_try_except; [|emits_handler]
    | apply emits_if
    | match goal with
      | |- emits _ (match ?x with _ => _ end) => destruct x
      end ].

Ltac emits_auto := repeat emits_step.

Section Footprints.

Variable env : Env.

Lemma parse_files_emits (files_str : option string) :
  emits (fun ev => match ev with EStderr _ _ => true | _ => false end)
        (_parse_files files_str).
Proof.
  unfold _parse_files. destruct files_str as [s|]; [|emits_auto].
  destruct (negb (truthy s)); [emits_auto|].
  generalize (@nil (string * string)) as d.
  induction (split "," s) as [|x xs IH]; intros d; cbn [parse_file_specs].
  - emits_auto.
  - apply emits_bind; [|intros; apply IH].
    unfold parse_file_spec, unpack2, stderr_write. emits_auto.
Qed.

Lemma validate_file_path_emits (file_path : string) :
  emits is_local (_validate_file_path env file_path).
Proof.
  unfold _validate_file_path, path_cwd, path_exists, path_is_file,
    path_stat_size, stderr_write; cbv zeta.
  emits_auto.
Qed.

Lemma read_file_content_emits (file_path : string) :
  emits is_local (_read_file_content env file_path).
Proof.
  unfold _read_file_content, path_read_text, stderr_write. emits_auto.
Qed.

End Footprints.

(* ===================================================================== *)
(** ** Reasoning along a run *)
(* ===================================================================== *)

Section Wp.

Context {A B : Type}.

Lemma wp_ret (a : A) h (Q : outcome A -> list event -> Prop) :
  Q (Return a) [] -> wp (ret a) h Q.
Proof. exact (fun H => H). Qed.

Lemma wp_raise (e : exn) h (Q : outcome A -> list event -> Prop) :
  Q (Raise e) [] -> wp (raise e) h Q.
Proof. exact (fun H => H). Qed.

Lemma wp_emit (ev : event) h (Q : outcome unit -> list event -> Prop) :
  Q (Return tt) [ev] -> wp (emit ev) h Q.
Proof. exact (fun H => H). Qed.

Lemma wp_call (ask : list event -> result A) (mk : result A -> event) h
      (Q : outcome A -> list event -> Prop) :
  (forall a, ask h = Ok a -> Q (Return a) [mk (Ok a)]) ->
  (forall e, ask h = Err e -> Q (Raise (Exc e)) [mk (Err e)]) ->
  wp (call ask mk) h Q.
Proof.
  intros Hok Herr. unfold wp, call. cbn.
  destruct (ask h) as [a|e]; auto.
Qed.

Lemma wp_bind (m : M A) (f : A -> M B) h
      (Q : outcome B -> list event -> Prop) :
  wp m h (fun r w =>
            match r with
            | Return a => wp (f a) (h ++ w) (fun r' w' => Q r' (w ++ w'))
            | Raise e => Q (Raise e) w
            end) ->
  wp (bind m f) h Q.
Proof.
  unfold wp, bind. destruct (m h) as [[a|e] w]; cbn; auto.
Qed.

Lemma wp_try_except (m : M A) (handler : exn -> option (M A)) h
      (Q : outcome A -> list event -> Prop) :
  wp m h (fun r w =>
            match r with
            | Return a => Q (Return a) w
            | Raise e =>
                match handler e with
                | Some k => wp k (h ++ w) (fun r' w' => Q r' (w ++ w'))
                | None => Q (Raise e) w
                end
            end) ->
  wp (try_except m handler) h Q.
Proof.
  unfold wp, try_except. destruct (m h) as [[a|e] w]; cbn; auto.
  destruct (handler e); cbn; auto.
Qed.

Lemma wp_emits (P : event -> bool) (m : M A) h
      (Q : outcome A -> list event -> Prop) :
  emits P m ->
  (forall r w, forallb P w = true -> Q r w) ->
  wp m h Q.
Proof. intros Hm HQ. apply HQ, Hm. Qed.

End Wp.

Lemma wp_handle (env : Env) (options : Options) h
      (Q : outcome unit -> list event -> Prop) :
  wp (try_except (handle_try env options) handle_except) h
     (fun r w => if gh_in_locals w then Q r (w ++ [EClose]) else Q r w) ->
  wp (handle env options) h Q.
Proof.
  unfold wp, handle. cbv zeta.
  destruct (gh_in_locals _); cbn [fst snd]; auto.
Qed.

(** The first assignment of [handle]: past the guard, the repository
    string splits in two. *)
Lemma wp_unpack_split1 (c : ascii) (s : string) h
      (Q : outcome (string * string) -> list event -> Prop) :
  negb (str_in (String c EmptyString) s) = false ->
  (forall p, Q (Return p) []) ->
  wp (unpack2 (split1 c s)) h Q.
Proof.
  intros Hc HQ. apply negb_false_iff in Hc.
  destruct (split1_with _ _ Hc) as (l & r & -> & Hl).
  rewrite split1_app by exact Hl. apply HQ.
Qed.

(** Stepping through a computation. Postconditions are kept as local
    definitions, so that the goal stays as small as the code left to run. *)
Ltac wp_name :=
  lazymatch goal with
  | |- wp _ _ ?Q =>
      tryif is_var Q then idtac else (let P := fresh "Q" in set (P := Q))
  end.

Ltac wp_open :=
  cbv beta iota;
  repeat (lazymatch goal with
          | |- ?Q _ _ => is_var Q; unfold Q; try clear Q; cbv beta iota
          end).

Ltac wp_step :=
  lazymatch goal with
  | |- wp (bind _ _) _ _ => apply wp_bind; wp_name
  | |- wp (try_except _ _) _ _ => apply wp_try_except; wp_name
  | |- wp (ret _) _ _ => apply wp_ret; wp_open
  | |- wp (raise _) _ _ => apply wp_raise; wp_open
  | |- wp (sys_exit _) _ _ => apply wp_raise; wp_open
  | |- wp (emit _) _ _ => apply wp_emit; wp_open
  | |- wp (call _ _) _ _ => apply wp_call; intros; wp_open
  | |- wp (unpack2 (split1 _ _)) _ _ =>
      apply wp_unpack_split1; [assumption | intros; wp_open]
  | |- wp (if ?b then _ else _) _ _ => destruct b eqn:?; wp_open
  | |- wp (match ?x with _ => _ end) _ _ => destruct x eqn:?; wp_open
  | |- match (if ?b then _ else _) with _ => _ end =>
      destruct b eqn:?; wp_open
  | |- match (match ?x with _ => _ end) with _ => _ end =>
      destruct x eqn:?; wp_open
  end.

(** At the end of a path: the postcondition itself. *)
Ltac wp_done :=
  repeat match goal with Q := _ |- _ => subst Q end; cbv beta.

Section StageFootprints.

Variable env : Env.

Lemma upload_file_emits (head_branch local_path remote_path : string) :
  emits in_upload_loop (upload_file env head_branch local_path remote_path).
Proof.
  unfold upload_file.
  apply emits_try_except.
  - apply emits_bind.
    { apply emits_weaken with (P := is_local).
      - intros ev H. unfold in_upload_loop. now rewrite H.
      - apply validate_file_path_emits. }
    intros file_path. apply emits_bind.
    { apply emits_weaken with (P := is_local).
      - intros ev H. unfold in_upload_loop. now rewrite H.
      - apply read_file_content_emits. }
    intros content.
    unfold repo_get_contents, repo_update_file, repo_create_file, logger_info.
    emits_auto.
  - unfold stderr_write. emits_handler; emits_auto.
Qed.

Lemma upload_each_emits (head_branch : string)
      (items : list (string * string)) :
  emits in_upload_loop (upload_each env head_branch items).
Proof.
  induction items as [|[l r] items IH]; cbn [upload_each].
  - emits_auto.
  - apply emits_bind; [apply upload_file_emits | intros; apply IH].
Qed.

Lemma upload_files_emits (head_branch : string) (files : Dict.dict) :
  emits in_upload (_upload_files env head_branch files).
Proof.
  unfold _upload_files, create_head_branch, upload_failed, repo_get_branch,
    repo_create_git_ref, logger_info, stderr_write.
  apply emits_try_except; [|emits_handler; emits_auto].
  apply emits_bind; [emits_auto|]. intros br.
  apply emits_bind; [emits_auto|]. intros _.
  apply emits_weaken with (P := in_upload_loop).
  - intros ev H. destruct ev; try reflexivity; discriminate H.
  - apply upload_each_emits.
Qed.

Lemma show_dry_run_files_emits (items : list (string * string)) :
  emits is_local (show_dry_run_files env items).
Proof.
  induction items as [|[l r] items IH]; cbn [show_dry_run_files].
  - emits_auto.
  - apply emits_bind; [|intros; apply IH].
    unfold show_dry_run_file, path_stat_size, stdout_write.
    apply emits_try_except; [|emits_handler; emits_auto].
    apply emits_bind; [apply validate_file_path_emits|]. intros.
    emits_auto.
Qed.

Lemma show_dry_run_emits (repository title body base_branch head_branch : string)
      (files : Dict.dict) (labels assignees reviewers : list string)
      (draft : bool) :
  emits is_local
        (_show_dry_run env repository title body base_branch head_branch
                       files labels assignees reviewers draft).
Proof.
  unfold _show_dry_run, stdout_write.
  repeat (apply emits_bind; [|intros]);
    try (apply emits_if);
    try (apply emits_bind; [|intros]);
    try apply show_dry_run_files_emits;
    emits_auto.
Qed.

End StageFootprints.

Lemma forallb_weaken {A} (P Q : A -> bool) (w : list A) :
  (forall x, P x = true -> Q x = true) ->
  forallb P w = true -> forallb Q w = true.
Proof. intros HPQ. rewrite !forallb_forall. auto. Qed.

Lemma in_footprint {A} (P : A -> bool) (w : list A) (x : A) :
  forallb P w = true -> In x w -> P x = true.
Proof. rewrite forallb_forall. auto. Qed.

(** Case analysis on the membership of an event in a run. *)
Ltac in_cases H :=
  first
    [ discriminate H
    | lazymatch type of H with
      | In _ (_ ++ _) =>
          apply in_app_or in H; destruct H as [H|H]; in_cases H
      | In _ (_ :: _) => destruct H as [H|H]; in_cases H
      | In _ [] => destruct H
      | _ \/ _ => destruct H as [H|H]; in_cases H
      | False => destruct H
      | In _ ?w =>
          try match goal with
              | F : forallb _ w = true |- _ =>
                  apply (in_footprint _ _ _ F) in H; discriminate H
              end
      | _ => idtac
      end ].

(** Class tests on exceptions that contradict each other. *)
Ltac absurd_class :=
  match goal with
  | H : is_BadCredentialsException ?e = true,
    H' : is_GithubException ?e = false |- _ =>
      destruct e; discriminate
  | H : In _ ?w, F : forallb _ ?w = true |- _ =>
      apply (in_footprint _ _ _ F) in H; discriminate H
  end.

(** No event of a given kind in a run assembled from its parts. *)
Ltac quiet :=
  rewrite ?forallb_app; cbn [forallb andb negb];
  repeat match goal with
         | |- context [forallb ?Q ?w] =>
             match goal with
             | F : forallb ?P w = true |- _ =>
                 rewrite (forallb_weaken P Q w
                            ltac:(let ev := fresh "ev" in
                                  let Hev := fresh "Hev" in
                                  intros ev Hev; destruct ev; cbn in *;
                                  solve [reflexivity | discriminate Hev])
                            F)
             end
         end;
  cbn; reflexivity.


Section EnrichmentFootprints.

Variable env : Env.

Lemma add_labels_emits (labels : list string) :
  emits after_pull (_add_labels env labels).
Proof.
  unfold _add_labels, warn, pr_add_to_labels, logger_info, stderr_write.
  emits_auto.
Qed.

Lemma add_assignees_emits (assignees : list string) :
  emits after_pull (_add_assignees env assignees).
Proof.
  unfold _add_assignees, warn, pr_add_to_assignees, logger_info, stderr_write.
  emits_auto.
Qed.

Lemma add_reviewers_emits (reviewers : list string) :
  emits after_pull (_add_reviewers env reviewers).
Proof.
  unfold _add_reviewers, warn, pr_add_to_reviewers, logger_info, stderr_write.
  emits_auto.
Qed.

End EnrichmentFootprints.

Ltac wp_known :=
  lazymatch goal with
  | |- wp (_parse_files _) _ _ =>
      eapply wp_emits; [apply parse_files_emits | intros [?|?] ? ?; wp_open]
  | |- wp (_upload_files _ _ _) _ _ =>
      eapply wp_emits; [apply upload_files_emits | intros [?|?] ? ?; wp_open]
  | |- wp (upload_each _ _ _) _ _ =>
      eapply wp_emits; [apply upload_each_emits | intros [?|?] ? ?; wp_open]
  | |- wp (_show_dry_run _ _ _ _ _ _ _ _ _ _ _) _ _ =>
      eapply wp_emits; [apply show_dry_run_emits | intros [?|?] ? ?; wp_open]
  | |- wp (show_dry_run_files _ _) _ _ =>
      eapply wp_emits;
      [apply show_dry_run_files_emits | intros [?|?] ? ?; wp_open]
  | |- wp (_add_labels _ _) _ _ =>
      eapply wp_emits; [apply add_labels_emits | intros [?|?] ? ?; wp_open]
  | |- wp (_add_assignees _ _) _ _ =>
      eapply wp_emits; [apply add_assignees_emits | intros [?|?] ? ?; wp_open]
  | |- wp (_add_reviewers _ _) _ _ =>
      eapply wp_emits; [apply add_reviewers_emits | intros [?|?] ? ?; wp_open]
  end.

Ltac wp_run := repeat first [wp_step | wp_known]; wp_done.

(** The small wrappers of [handle], unfolded before a run is stepped. *)
Ltac wp_enter :=
  apply wp_handle;
  unfold handle_try, _create_pull_request, handle_except, sys_exit,
    stdout_write, stderr_write, logger_info, logger_exception, gh_new,
    gh_get_repo, repo_get_branch, repo_create_pull.

Arguments _parse_list : simpl never.
Arguments str_in : simpl never.
Arguments split1 : simpl never.


Lemma ends_with_refl (s : list event) : ends_with s s.
Proof. now exists []. Qed.

Lemma ends_with_cons (s : list event) (x : event) (w : list event) :
  ends_with s w -> ends_with s (x :: w).
Proof. intros [pre ->]. now exists (x :: pre). Qed.

Lemma ends_with_app (s w1 w2 : list event) :
  ends_with s w2 -> ends_with s (w1 ++ w2).
Proof. intros [pre ->]. exists (w1 ++ pre). now rewrite app_assoc. Qed.




(** A run as a right-nested sequence of events and segments. *)
Ltac flatten :=
  repeat first [rewrite <- app_assoc | rewrite <- app_comm_cons];
  cbn [app].

Ltac find_end :=
  flatten;
  repeat first
         [ apply ends_with_refl
         | apply ends_with_cons
         | apply ends_with_app ].




(* ===================================================================== *)
(** ** The validator and the file list of the dry-run report *)
(* ===================================================================== *)

Lemma wp_use {A} (m : M A) h (Q' Q : outcome A -> list event -> Prop) :
  wp m h Q' -> (forall r w, Q' r w -> Q r w) -> wp m h Q.
Proof. unfold wp. auto. Qed.

Lemma suffix_here {A} (s : list A) : s = [] ++ s.
Proof. reflexivity. Qed.

Lemma suffix_later {A} (a : A) (w pre s : list A) :
  w = pre ++ s -> a :: w = (a :: pre) ++ s.
Proof. now intros ->. Qed.

(** Splits a run into its last events and what comes before. *)
Ltac find_last := repeat first [apply suffix_here | apply suffix_later].

Lemma refused_as (file_path : string) (v w : list event) :
  refused file_path v -> w = v -> refused file_path w.
Proof. now intros H ->. Qed.

Lemma lists_files_as (items : list (string * string)) (v w : list event) :
  lists_files items v -> w = v -> lists_files items w.
Proof. now intros H ->. Qed.

(** The tests of the code, turned into facts about the answers. *)
Ltac tests :=
  repeat match goal with
         | H : negb ?b = false |- _ =>
             apply (proj1 (negb_false_iff b)) in H; try subst b
         | H : negb ?b = true |- _ =>
             apply (proj1 (negb_true_iff b)) in H; try subst b
         | H : (max_size <? _)%N = false |- _ => apply N.ltb_ge in H
         | H : (max_size <? _)%N = true |- _ => apply N.ltb_lt in H
         end.

(** The side conditions of a run of the validator. *)
Ltac premises :=
  lazymatch goal with
  | |- resolves _ _ _ =>
      first [ left; repeat split; (assumption || reflexivity)
            | right; split; [assumption | eexists; split; reflexivity] ]
  | |- file_system_error ?p _ ?ev =>
      try (is_evar p;
           lazymatch ev with ECwd _ => unify p EmptyString end);
      unfold file_system_error;
      first [ left; reflexivity
            | right; left; reflexivity
            | right; right; left; reflexivity
            | right; right; right; reflexivity ]
  | |- _ => first [assumption | reflexivity]
  end.

Section Validator.

Variable env : Env.

(** How a run of [_validate_file_path] ends. *)
Lemma validate_file_path_runs (file_path : string) (h : list event) :
  wp (_validate_file_path env file_path) h
     (fun r w =>
        match r with
        | Return path =>
            exists pre n,
              resolves file_path path pre
              /\ (n <= max_size)%N
              /\ w = pre ++ checks path n
        | Raise (SystemExit code) => code = 1%Z /\ refused file_path w
        | Raise (Exc err) =>
            is_OSError err = false /\ is_ValueError err = false
            /\ forallb is_file_system w = true
        end).
Proof.
  unfold _validate_file_path, path_cwd, path_exists, path_is_file,
    path_stat_size, stderr_write, sys_exit; cbv zeta.
  wp_run.
  all: flatten; tests.
  all: lazymatch goal with
       | |- _ = 1%Z /\ refused _ _ =>
           split; [reflexivity|];
           first
             [ solve [ eapply refused_as; [eapply refused_missing|];
                       [ .. | solve [find_last] ]; premises ]
             | solve [ eapply refused_as; [eapply refused_not_a_file|];
                       [ .. | solve [find_last] ]; premises ]
             | solve [ eapply refused_as; [eapply refused_too_large|];
                       [ .. | solve [unfold checks; find_last] ]; premises ]
             | solve [ eapply refused_as; [eapply refused_error|];
                       [ .. | solve [find_last] ]; premises ] ]
       | |- _ /\ _ /\ forallb _ _ = true =>
           match goal with
           | H : is_OSError ?e || is_ValueError ?e = false |- _ =>
               apply orb_false_iff in H as [? ?]
           end;
           repeat split; assumption || reflexivity
       | |- exists pre n, resolves _ _ pre /\ _ =>
           eexists _, _;
           (split; [|split; [eassumption | solve [unfold checks; find_last]]]);
           premises
       end.
Qed.

End Validator.

Lemma file_system_not_stdout (w : list event) :
  forallb is_file_system w = true ->
  forallb (fun ev => negb (is_stdout ev)) w = true.
Proof.
  apply forallb_weaken. intros ev Hev.
  destruct ev; try reflexivity; discriminate Hev.
Qed.

Lemma refused_not_stdout (file_path : string) (v : list event) :
  refused file_path v -> forallb (fun ev => negb (is_stdout ev)) v = true.
Proof.
  intros [path pre Hres | path pre Hres | path pre n Hres Hn
         | calls ev path e Hcalls Hev He].
  1-3: destruct Hres as [(_ & _ & ->) | (_ & d & _ & ->)]; reflexivity.
  rewrite forallb_app, (file_system_not_stdout _ Hcalls).
  destruct Hev as [-> | [-> | [-> | ->]]]; reflexivity.
Qed.

Section DryRunReport.

Variable env : Env.

(** One pass of the loop of the dry-run report. *)
Lemma show_dry_run_file_runs (local_path remote_path : string)
      (h : list event) :
  wp (show_dry_run_file env local_path remote_path) h
     (fun r w =>
        match r with
        | Return _ =>
            lists_files [(local_path, remote_path)] w
        | Raise (SystemExit _) => False
        | Raise (Exc _) =>
            forallb (fun ev => negb (is_stdout ev)) w = true
        end).
Proof.
  unfold show_dry_run_file, path_stat_size, stdout_write.
  wp_step. wp_step.
  eapply wp_use; [apply validate_file_path_runs|].
  intros [path|[code|err]] w Hw; wp_open.
  - destruct Hw as (pre & n0 & Hres & Hn0 & ->).
    wp_run.
    + eapply lists_files_as;
        [ eapply lists_sized; [exact Hres | exact Hn0 | apply lists_none]
        | unfold sized_line; rewrite <- !app_assoc; reflexivity ].
    + rewrite !forallb_app. cbn [forallb is_stdout negb andb].
      rewrite andb_true_r.
      destruct Hres as [(_ & _ & ->) | (_ & d & _ & ->)]; reflexivity.
  - destruct Hw as [_ Hw]. wp_run.
    eapply lists_files_as;
      [ eapply lists_marked; [exact Hw | apply lists_none]
      | reflexivity ].
  - wp_done. destruct Hw as (_ & _ & Hw).
    now apply file_system_not_stdout.
Qed.

Lemma lists_files_cons (entry : string * string)
      (items : list (string * string)) (w1 w2 : list event) :
  lists_files [entry] w1 -> lists_files items w2 ->
  lists_files (entry :: items) (w1 ++ w2).
Proof.
  intros H1 H2. inversion H1 as [| l r its pre path n0 n w Hres Hn Hw
                                  | l r its v w Hv Hw]; subst.
  - inversion Hw; subst.
    eapply lists_files_as; [eapply lists_sized; eassumption|].
    rewrite <- !app_assoc. cbn [app]. reflexivity.
  - inversion Hw; subst.
    eapply lists_files_as; [eapply lists_marked; eassumption|].
    rewrite <- !app_assoc. cbn [app]. reflexivity.
Qed.

(** The loop of the dry-run report. *)
Lemma show_dry_run_files_runs (items : list (string * string))
      (h : list event) :
  wp (show_dry_run_files env items) h
     (fun r w =>
        match r with
        | Return _ => lists_files items w
        | Raise (SystemExit _) => False
        | Raise (Exc _) => stops_listing items w
        end).
Proof.
  unfold wp. revert h. induction items as [|[l r] items IH]; intros h.
  - constructor.
  - cbn [show_dry_run_files]. unfold bind.
    pose proof (show_dry_run_file_runs l r h) as Hfile. unfold wp in Hfile.
    destruct (show_dry_run_file env l r h) as [[[]|[code|err]] w1];
      cbn [fst snd] in *.
    + specialize (IH (h ++ w1)).
      destruct (show_dry_run_files env items (h ++ w1))
        as [[[]|[code|err]] w2]; unfold after; cbn [fst snd] in *.
      * now apply lists_files_cons.
      * exact IH.
      * destruct IH as (before & entry & rest & wb & wf
                        & -> & Hbefore & Hwf & ->).
        exists ((l, r) :: before), entry, rest, (w1 ++ wb), wf.
        split; [reflexivity|]. split; [now apply lists_files_cons|].
        split; [exact Hwf | now rewrite app_assoc].
    + exact Hfile.
    + exists [], (l, r), items, [], w1.
      split; [reflexivity|]. split; [constructor|].
      split; [exact Hfile | reflexivity].
Qed.

(** The whole report. *)
Lemma show_dry_run_runs
      (repository title body base_branch head_branch : string)
      (files : Dict.dict) (labels assignees reviewers : list string)
      (draft : bool) (h : list event) :
  wp (_show_dry_run env repository title body base_branch head_branch
                    files labels assignees reviewers draft) h
     (fun r w =>
        match r with
        | Return _ =>
            exists wf,
              lists_files (Dict.items files) wf
              /\ w = report_header repository title body base_branch
                                   head_branch draft
                     ++ files_block files wf
                     ++ report_lists labels assignees reviewers
        | Raise (SystemExit _) => False
        | Raise (Exc _) =>
            exists wf,
              stops_listing (Dict.items files) wf
              /\ w = report_header repository title body base_branch
                                   head_branch draft
                     ++ files_heading :: wf
        end).
Proof.
  unfold _show_dry_run, stdout_write.
  repeat first
         [ wp_step
         | lazymatch goal with
           | |- wp (show_dry_run_files _ _) _ _ =>
               eapply wp_use;
               [ apply show_dry_run_files_runs
               | intros [[]|[?|?]] ? ?; wp_open ]
           end ].
  all: wp_done.
  all: try contradiction.
  all: unfold report_header, files_block, files_heading, report_lists,
         list_line.
  all: repeat match goal with
              | H : nonempty _ = _ |- _ => rewrite H; clear H
              | H : Dict.truthy _ = _ |- _ => rewrite H
              end.
  all: try (eexists; split; [eassumption | flatten; reflexivity]).
  all: match goal with
       | H : Dict.truthy ?d = false |- _ =>
           destruct d; [|discriminate H];
           exists []; split; [constructor | flatten; reflexivity]
       end.
Qed.

End DryRunReport.

(** The answers that the assumptions on the file system fix. *)
Ltac answered :=
  repeat match goal with
         | Hv : forall h, ?f ?en h = Ok _, H : ?f ?en _ = _ |- _ =>
             rewrite Hv in H; first [discriminate H | injection H as <-]
         | Hv : forall h, ?f ?en h ?p = Ok _, H : ?f ?en _ ?p = _ |- _ =>
             rewrite Hv in H; first [discriminate H | injection H as <-]
         end.

Section DryRunMarks.

Variable env : Env.

Lemma show_dry_run_file_marks (local_path remote_path path : string)
      (h : list event) :
  located env local_path path ->
  unfit env path ->
  wp (show_dry_run_file env local_path remote_path) h
     (fun r w => r = Return tt /\ ends_with [not_found_line local_path remote_path] w).
Proof.
  intros Hloc Hunfit.
  unfold show_dry_run_file, _validate_file_path, path_cwd, path_exists,
    path_is_file, path_stat_size, stdout_write, stderr_write, sys_exit;
    cbv zeta.
  destruct Hloc as [(Habs & ->) | (Habs & d & Hd & ->)]; rewrite Habs;
    cbn [negb];
    (destruct Hunfit as [Hmiss | [[Hex Hdir] | (Hex & Hreg & n & Hsize & Hn)]]);
    repeat (wp_step; try answered); wp_done.
  all: tests.
  all: try discriminate.
  all: try solve [exfalso; unfold max_size in *; lia].
  all: split; [reflexivity | unfold not_found_line; solve [find_end]].
Qed.

Lemma show_dry_run_files_marks (items : list (string * string))
      (local_path remote_path path : string) (h : list event) :
  In (local_path, remote_path) items ->
  located env local_path path ->
  unfit env path ->
  wp (show_dry_run_files env items) h
     (fun r w =>
        r = Return tt -> In (not_found_line local_path remote_path) w).
Proof.
  intros Hin Hloc Hunfit. unfold wp. revert h.
  induction items as [|[l r] items IH]; intros h; [destruct Hin|].
  cbn [show_dry_run_files]. unfold bind.
  pose proof (fun Heq : (l, r) = (local_path, remote_path) =>
                show_dry_run_file_marks local_path remote_path path h
                                        Hloc Hunfit) as Hhere.
  unfold wp in Hhere.
  destruct Hin as [Heq | Hin].
  - specialize (Hhere Heq). injection Heq as -> ->.
    destruct (show_dry_run_file env local_path remote_path h) as [r1 w1].
    cbn [fst snd] in Hhere. destruct Hhere as [-> [pre ->]].
    unfold after. cbn [fst snd]. intros _.
    apply in_or_app. left. apply in_or_app. right. now left.
  - destruct (show_dry_run_file env l r h) as [[[]|e] w1];
      cbn [fst snd]; [|discriminate].
    specialize (IH Hin (h ++ w1)). unfold after. cbn [fst snd].
    intros Hret. apply in_or_app. right. apply IH.
    now destruct (show_dry_run_files env items (h ++ w1)) as [[[]|e] w2].
Qed.

Lemma show_dry_run_marks
      (repository title body base_branch head_branch : string)
      (files : Dict.dict) (labels assignees reviewers : list string)
      (draft : bool) (local_path remote_path path : string)
      (h : list event) :
  In (local_path, remote_path) (Dict.items files) ->
  located env local_path path ->
  unfit env path ->
  wp (_show_dry_run env repository title body base_branch head_branch
                    files labels assignees reviewers draft) h
     (fun r w =>
        r = Return tt -> In (not_found_line local_path remote_path) w).
Proof.
  intros Hin Hloc Hunfit.
  unfold _show_dry_run, stdout_write.
  repeat first
         [ wp_step
         | lazymatch goal with
           | |- wp (show_dry_run_files _ _) _ _ =>
               eapply wp_use;
               [ apply (show_dry_run_files_marks _ _ _ _ _ Hin Hloc Hunfit)
               | intros [[]|?] ? ?; wp_open ]
           end ].
  all: wp_done.
  all: try (intros Habs; discriminate Habs).
  all: try match goal with
           | H : Dict.truthy ?d = false |- _ =>
               destruct d; [destruct Hin | discriminate H]
           end.
  all: intros _;
    repeat match goal with
           | H : Return tt = Return tt -> _ |- _ => specialize (H eq_refl)
           end.
  all: flatten; repeat first [assumption
                             | apply in_or_app; left; assumption
                             | right
                             | apply in_or_app; right ].
Qed.

End DryRunMarks.
Section HandleRuns.

Variable env : Env.

(** C1 (amended). A repository identifier without any "/" makes the
    command fail at once: one report on the error stream, exit status 1,
    and no call to the hosting platform nor to anything else. *)
Theorem repository_without_slash_is_rejected
        (opts : Options) (h : list event) :
  str_in "/" (repository opts) = false ->
  handle env opts h
  = (Raise (SystemExit 1),
     [EStderr ERROR ("Invalid repository format: " ++ repository opts
                     ++ ". Expected format: 'owner/repo'")]).
Proof.
  intros Hslash.
  unfold handle, handle_try, try_except, bind.
  rewrite Hslash. reflexivity.
Qed.

(** C7. If the pull-request creation call raises an error (a
    [GithubException] in particular), the command exits with status 1 and
    the run contains no label, assignee or reviewer call. *)
Theorem pull_request_failure_aborts (opts : Options) (h : list event)
        (t b ba hd : string) (dr : bool) (e : error) :
  In (ECreatePull t b ba hd dr (Err e)) (snd (handle env opts h)) ->
  fst (handle env opts h) = Raise (SystemExit 1)
  /\ forallb (fun ev => negb (is_enrichment ev)) (snd (handle env opts h))
     = true.
Proof.
  change (wp (handle env opts) h (fun r w =>
     In (ECreatePull t b ba hd dr (Err e)) w ->
     r = Raise (SystemExit 1)
     /\ forallb (fun ev => negb (is_enrichment ev)) w = true)).
  wp_enter.
  wp_run.
  all: cbn; intros Hin; in_cases Hin; try solve [absurd_class];
    (split; [reflexivity | quiet]).
Qed.




End HandleRuns.

Lemma follows_here (x y : event) (post : list event) :
  follows x y (x :: y :: post).
Proof. now exists [], post. Qed.

Lemma follows_cons (x y a : event) (w : list event) :
  follows x y w -> follows x y (a :: w).
Proof. intros (pre & post & ->). now exists (a :: pre), post. Qed.

Lemma follows_app (x y : event) (w1 w2 : list event) :
  follows x y w2 -> follows x y (w1 ++ w2).
Proof.
  intros (pre & post & ->). exists (w1 ++ pre), post. now rewrite app_assoc.
Qed.

Ltac find_follows :=
  flatten;
  repeat first
         [ apply follows_here
         | apply follows_cons
         | apply follows_app ].

Section PublisherRuns.

Variable env : Env.

(** C2. Whenever a run creates the head branch, the call comes right
    after a lookup of the branch named "main" and passes the commit SHA
    that this lookup returned, whatever the value of [--base-branch]. *)
Theorem head_branch_is_created_from_main
        (opts : Options) (h : list event) (ref sha : string) (r : result unit) :
  In (ECreateGitRef ref sha r) (snd (handle env opts h)) ->
  exists br,
    follows (EGetBranch "main" (Ok br)) (ECreateGitRef ref sha r)
            (snd (handle env opts h))
    /\ sha = commit_sha br
    /\ ref = ("refs/heads/" ++ head_branch opts)%string.
Proof.
  change (wp (handle env opts) h (fun _ w =>
     In (ECreateGitRef ref sha r) w ->
     exists br,
       follows (EGetBranch "main" (Ok br)) (ECreateGitRef ref sha r) w
       /\ sha = commit_sha br
       /\ ref = ("refs/heads/" ++ head_branch opts)%string)).
  wp_enter.
  unfold _upload_files, create_head_branch, upload_failed,
    repo_create_git_ref, repo_get_branch, logger_info, stderr_write.
  wp_run.
  all: cbn; intros Hin; in_cases Hin; try solve [absurd_class].
  all: injection Hin as <- <- <-.
  all: eexists; split; [find_follows | split; reflexivity].
Qed.


(** With the branch lookup and the reference creation answered, and the
    reference either created or already there, the publisher goes on to
    the upload loop. *)
Lemma upload_files_branch_ready
      (head_branch : string) (files : Dict.dict) (h : list event)
      (br : Branch) (r : result unit) :
  get_branch env h "main" = Ok br ->
  create_git_ref env (h ++ [EGetBranch "main" (Ok br)])
                 ("refs/heads/" ++ head_branch) (commit_sha br) = r ->
  (r = Ok tt \/ exists e, r = Err e /\ reference_exists e = true) ->
  let pre := [EGetBranch "main" (Ok br);
              ECreateGitRef ("refs/heads/" ++ head_branch) (commit_sha br) r;
              ELogInfo (branch_note head_branch r)] in
  _upload_files env head_branch files h
  = after pre (try_except (upload_each env head_branch (Dict.items files))
                          upload_failed (h ++ pre)).
Proof.
  intros Hmain Hcreate Hr pre.
  assert (Hhead : create_head_branch env head_branch (commit_sha br)
                    (h ++ [EGetBranch "main" (Ok br)])
                  = (Return tt,
                     [ECreateGitRef ("refs/heads/" ++ head_branch)
                                    (commit_sha br) r;
                      ELogInfo (branch_note head_branch r)])).
  { unfold create_head_branch, try_except, bind, repo_create_git_ref, call.
    rewrite Hcreate.
    destruct Hr as [-> | (e & -> & He)]; [reflexivity|].
    unfold reference_exists in He. apply andb_true_iff in He as [Hg Hs].
    cbn. rewrite Hg, Hs. reflexivity. }
  unfold _upload_files, try_except at 1, bind at 1, repo_get_branch, call.
  rewrite Hmain. unfold bind. rewrite Hhead.
  unfold try_except, after. cbn [fst snd app].
  replace ((h ++ [EGetBranch "main" (Ok br)]) ++
           [ECreateGitRef ("refs/heads/" ++ head_branch) (commit_sha br) r;
            ELogInfo (branch_note head_branch r)])
    with (h ++ pre) by (now rewrite <- app_assoc).
  destruct (upload_each env head_branch (Dict.items files) (h ++ pre))
    as [[a|e] w]; cbn [fst snd].
  - reflexivity.
  - destruct (upload_failed e) as [k|] eqn:Hk; [|reflexivity].
    destruct e as [code|err]; [discriminate Hk|].
    cbn in Hk. destruct (is_GithubException err); [|discriminate Hk].
    injection Hk as <-. reflexivity.
Qed.

(** C5. A [GithubException] whose text contains "Reference already
    exists", raised by the reference creation call, is treated as the
    success of the call: either way the publisher logs the state of the
    branch and goes on to the upload loop. Any other error of that call
    ends the run with exit status 1 before any file is written and before
    any pull request is created. *)
Theorem reference_creation_errors
        (opts : Options) (h : list event) :
  (forall (head_branch : string) (files : Dict.dict) (h' : list event)
          (br : Branch) (r : result unit),
      get_branch env h' "main" = Ok br ->
      create_git_ref env (h' ++ [EGetBranch "main" (Ok br)])
                     ("refs/heads/" ++ head_branch) (commit_sha br) = r ->
      (r = Ok tt \/ exists e, r = Err e /\ reference_exists e = true) ->
      let pre := [EGetBranch "main" (Ok br);
                  ECreateGitRef ("refs/heads/" ++ head_branch)
                                (commit_sha br) r;
                  ELogInfo (branch_note head_branch r)] in
      _upload_files env head_branch files h'
      = after pre (try_except (upload_each env head_branch (Dict.items files))
                              upload_failed (h' ++ pre)))
  /\ (forall (ref sha : string) (e : error),
         In (ECreateGitRef ref sha (Err e)) (snd (handle env opts h)) ->
         reference_exists e = false ->
         fst (handle env opts h) = Raise (SystemExit 1)
         /\ forallb (fun ev => negb (is_file_write ev || is_pull_creation ev
                                     || is_enrichment ev))
                    (snd (handle env opts h)) = true).
Proof.
  split; [exact upload_files_branch_ready|].
  intros ref sha e.
  change (wp (handle env opts) h (fun r w =>
     In (ECreateGitRef ref sha (Err e)) w ->
     reference_exists e = false ->
     r = Raise (SystemExit 1)
     /\ forallb (fun ev => negb (is_file_write ev || is_pull_creation ev
                                 || is_enrichment ev)) w = true)).
  wp_enter.
  unfold _upload_files, create_head_branch, upload_failed,
    repo_create_git_ref, repo_get_branch, logger_info, stderr_write.
  wp_run.
  all: cbn; intros Hin Hnot; in_cases Hin; try solve [absurd_class].
  all: injection Hin as <- <- <-.
  all: try solve [unfold reference_exists in Hnot;
                  repeat match goal with
                         | H : is_GithubException _ = _ |- _ =>
                             rewrite H in Hnot
                         | H : str_in _ _ = _ |- _ => rewrite H in Hnot
                         end;
                  discriminate Hnot].
  all: split; [reflexivity | quiet].
Qed.

End PublisherRuns.

Lemma failures_warned_quiet (w1 w2 : list event) :
  forallb (fun ev => negb (is_enrichment ev)) w1 = true ->
  failures_warned (w1 ++ w2) = failures_warned w2.
Proof.
  induction w1 as [|ev w1 IH]; intros Hq; [reflexivity|].
  cbn [forallb] in Hq. apply andb_true_iff in Hq as [Hev Hq].
  cbn [app failures_warned]. rewrite (IH Hq).
  destruct ev; try reflexivity; discriminate Hev.
Qed.

(** The parts of a run that come before the pull request contain no
    label, assignee or reviewer call. *)
Ltac skip_quiet :=
  repeat match goal with
         | |- context [failures_warned (?w ++ _)] =>
             match goal with
             | F : forallb ?P w = true |- _ =>
                 rewrite (failures_warned_quiet w _
                            (forallb_weaken
                               P (fun ev => negb (is_enrichment ev)) w
                               ltac:(let ev := fresh "ev" in
                                     let Hev := fresh "Hev" in
                                     intros ev Hev; destruct ev; cbn in *;
                                     solve [reflexivity | discriminate Hev])
                               F))
             end
         end.

(** A label, assignee or reviewer call inside its [try]: it ends
    normally with its success logged or its [GithubException] warned
    about, or it raises an error that is no [GithubException]. *)
Lemma wp_enrichment (what note : string) (ask : list event -> result unit)
      (mk : result unit -> event) h
      (Q : outcome unit -> list event -> Prop) :
  (forall r, is_enrichment (mk r) = true) ->
  (forall a, enrichment_failure (mk (Ok a)) = None) ->
  (forall e, enrichment_failure (mk (Err e)) = Some (what, e)) ->
  (forall w,
      forallb after_pull w = true ->
      (forall rest, failures_warned (w ++ rest) = failures_warned rest) ->
      Q (Return tt) w) ->
  (forall e, is_GithubException e = false -> Q (Raise (Exc e)) [mk (Err e)]) ->
  wp (try_except (call ask mk ;; emit (ELogInfo note)) (warn what)) h Q.
Proof.
  intros Hmk Hok Herr Hdone Hraise.
  unfold wp, try_except, bind, call, emit, warn, stderr_write, after.
  destruct (ask h) as [a|e]; cbn [fst snd app].
  - apply Hdone.
    { unfold emit. cbn [fst snd forallb]. unfold after_pull.
      rewrite Hmk, orb_true_r. reflexivity. }
    intros rest. cbn [app failures_warned].
    rewrite Hok. unfold emit. cbn [fst snd app]. reflexivity.
  - destruct (is_GithubException e) eqn:Hg; cbn [fst snd app].
    + apply Hdone.
      { unfold emit. cbn [fst snd forallb]. unfold after_pull.
        rewrite Hmk, orb_true_r. reflexivity. }
      intros rest. cbn [app failures_warned].
      rewrite Herr. unfold emit. cbn [fst snd app failures_warned enrichment_failure].
      rewrite String.eqb_refl. reflexivity.
    + now apply Hraise.
Qed.

Lemma remote_failure_is_github (w : list event) (ev : event)
      (what : string) (e : error) :
  remote_failures_only w = true ->
  In ev w -> enrichment_failure ev = Some (what, e) ->
  is_GithubException e = true.
Proof.
  intros Hw Hin Hev. unfold remote_failures_only in Hw.
  rewrite forallb_forall in Hw. specialize (Hw _ Hin).
  now rewrite Hev in Hw.
Qed.

Ltac find_in :=
  flatten;
  repeat first
         [ left; reflexivity
         | right
         | apply in_or_app; right ].

Section EnrichmentRuns.

Variable env : Env.

(** C6. In every run that created the pull request and in which the
    label, assignee and reviewer calls raised nothing but
    [GithubException]s, each such error is followed at once by its
    warning on the error stream, the run goes on, reports the pull
    request as created, releases the client and ends normally (exit
    status 0). *)
Theorem enrichment_failures_are_warnings
        (opts : Options) (h : list event)
        (t b ba hd : string) (dr : bool) (pr : PullRequest) :
  In (ECreatePull t b ba hd dr (Ok pr)) (snd (handle env opts h)) ->
  remote_failures_only (snd (handle env opts h)) = true ->
  fst (handle env opts h) = Return tt
  /\ failures_warned (snd (handle env opts h)) = true
  /\ ends_with [EStdout SUCCESS
                        ("Successfully created Pull Request: " ++ html_url pr);
                EClose]
               (snd (handle env opts h)).
Proof.
  change (wp (handle env opts) h (fun r w =>
     In (ECreatePull t b ba hd dr (Ok pr)) w ->
     remote_failures_only w = true ->
     r = Return tt
     /\ failures_warned w = true
     /\ ends_with [EStdout SUCCESS
                           ("Successfully created Pull Request: "
                            ++ html_url pr);
                   EClose] w)).
  wp_enter.
  unfold _add_labels, _add_assignees, _add_reviewers,
    pr_add_to_labels, pr_add_to_assignees, pr_add_to_reviewers, logger_info.
  repeat first
         [ lazymatch goal with
           | |- wp (try_except _ (warn _)) _ _ =>
               apply wp_enrichment;
               [ reflexivity | reflexivity | reflexivity
               | intros; wp_open | intros; wp_open ]
           end
         | wp_step
         | wp_known ].
  all: cbn [gh_in_locals existsb app orb]; cbv beta iota.
  all: intros Hin Hremote; in_cases Hin; try solve [absurd_class].
  all: injection Hin as <- <- <- <- <- <-.
  all: try solve
           [ exfalso;
             match goal with
             | Hg : is_GithubException ?e = false |- _ =>
                 enough (is_GithubException e = true) by congruence;
                 first
                   [ solve [eapply (remote_failure_is_github
                                      _ (EAddToLabels _ (Err e)) _ _ Hremote);
                            [ find_in | reflexivity ]]
                   | solve [eapply (remote_failure_is_github
                                      _ (EAddToAssignees _ (Err e)) _ _ Hremote);
                            [ find_in | reflexivity ]]
                   | solve [eapply (remote_failure_is_github
                                      _ (EAddToReviewers _ (Err e)) _ _ Hremote);
                            [ find_in | reflexivity ]] ]
             end ].
  all: split; [reflexivity|].
  all: split; [| find_end].
  all: flatten;
    repeat first
           [ progress cbn [app failures_warned enrichment_failure andb]
           | progress skip_quiet
           | match goal with
             | Hs : forall rest, failures_warned (?w ++ rest) = _ |- _ =>
                 rewrite Hs
             end ];
    reflexivity.
Qed.

End EnrichmentRuns.

Section DryRunFiles.

Variable env : Env.

(** C10. In the dry-run report every local file that fails validation,
    for whatever reason, is printed with the "(FILE NOT FOUND)" marker.
    The report that [_show_dry_run] writes is the parameter lines, the
    file list and the lists; in the file list each entry of the mapping
    has its line, in order: a file is listed with its size only after it
    has passed the three checks (it exists, it is a regular file, it has
    at most 100 MiB), and every file that validation refuses (a missing
    path, a path that is not a regular file, a file above 100 MiB, an
    [OSError] or [ValueError] of the file system) is listed with the
    marker, right after the error line of its validation, and the loop
    goes on. The report never exits; an exception of the file system
    that validation does not catch stops it inside the file list. In
    particular, in a report that ends normally, an entry whose path the
    file system reports as missing, as a directory, or as a file larger
    than 100 MiB carries the marker. *)
Theorem dry_run_marks_invalid_files
        (repository title body base_branch head_branch : string)
        (files : Dict.dict) (labels assignees reviewers : list string)
        (draft : bool) (h : list event) :
  let run := _show_dry_run env repository title body base_branch head_branch
                           files labels assignees reviewers draft h in
  match fst run with
  | Return _ =>
      exists wf,
        lists_files (Dict.items files) wf
        /\ snd run
           = report_header repository title body base_branch head_branch draft
             ++ files_block files wf
             ++ report_lists labels assignees reviewers
  | Raise (SystemExit _) => False
  | Raise (Exc _) =>
      exists wf,
        stops_listing (Dict.items files) wf
        /\ snd run
           = report_header repository title body base_branch head_branch draft
             ++ files_heading :: wf
  end
  /\ (forall local_path remote_path path,
         In (local_path, remote_path) (Dict.items files) ->
         located env local_path path ->
         unfit env path ->
         fst run = Return tt ->
         In (not_found_line local_path remote_path) (snd run)).
Proof.
  cbv zeta. split.
  - exact (show_dry_run_runs env repository title body base_branch
                             head_branch files labels assignees reviewers
                             draft h).
  - intros local_path remote_path path Hin Hloc Hunfit.
    exact (show_dry_run_marks env repository title body base_branch
                              head_branch files labels assignees reviewers
                              draft local_path remote_path path h
                              Hin Hloc Hunfit).
Qed.

End DryRunFiles.

(* ===================================================================== *)
(** ** The upload loop visits the entries of the mapping once, in order *)
(* ===================================================================== *)

Lemma looked_up_app (w1 w2 : list event) :
  looked_up (w1 ++ w2) = looked_up w1 ++ looked_up w2.
Proof. apply flat_map_app. Qed.

Lemma written_app (w1 w2 : list event) :
  written (w1 ++ w2) = written w1 ++ written w2.
Proof. apply flat_map_app. Qed.

Lemma looked_up_local (w : list event) :
  forallb is_local w = true -> looked_up w = [].
Proof.
  induction w as [|ev w IH]; intros Hw; [reflexivity|].
  cbn [forallb] in Hw. apply andb_true_iff in Hw as [Hev Hw].
  cbn [looked_up flat_map]. fold (looked_up w). rewrite (IH Hw).
  destruct ev; try reflexivity; discriminate Hev.
Qed.

Lemma written_local (w : list event) :
  forallb is_local w = true -> written w = [].
Proof.
  induction w as [|ev w IH]; intros Hw; [reflexivity|].
  cbn [forallb] in Hw. apply andb_true_iff in Hw as [Hev Hw].
  cbn [written flat_map]. fold (written w). rewrite (IH Hw).
  destruct ev; try reflexivity; discriminate Hev.
Qed.

Section UploadLoop.

Variable env : Env.

Ltac wp_local :=
  lazymatch goal with
  | |- wp (_validate_file_path _ _) _ _ =>
      eapply wp_emits;
      [apply validate_file_path_emits | intros [?|?] ? ?; wp_open]
  | |- wp (_read_file_content _ _) _ _ =>
      eapply wp_emits;
      [apply read_file_content_emits | intros [?|?] ? ?; wp_open]
  end.

Ltac account :=
  unfold one_pass; flatten;
  rewrite ?looked_up_app, ?written_app;
  repeat match goal with
         | F : forallb is_local ?w = true |- _ =>
             rewrite ?(looked_up_local w F), ?(written_local w F); clear F
         end;
  cbn [looked_up written flat_map app]; auto.

Lemma upload_file_one_pass (head_branch local_path remote_path : string)
      (h : list event) :
  wp (upload_file env head_branch local_path remote_path) h
     (one_pass remote_path).
Proof.
  unfold upload_file, repo_get_contents, repo_update_file, repo_create_file,
    logger_info, stderr_write.
  repeat first [wp_step | wp_local].
  all: account.
Qed.

Lemma upload_each_prefix (head_branch : string)
      (items : list (string * string)) (h : list event) :
  exists k k',
    looked_up (snd (upload_each env head_branch items h))
    = firstn k (map snd items)
    /\ written (snd (upload_each env head_branch items h))
       = firstn k' (map snd items).
Proof.
  revert h. induction items as [|[l r] items IH]; intros h.
  - exists 0, 0. split; reflexivity.
  - cbn [upload_each map snd]. unfold bind.
    pose proof (upload_file_one_pass head_branch l r h) as Hone.
    unfold wp in Hone.
    destruct (upload_file env head_branch l r h) as [[[]|e] w].
    + destruct Hone as [Hl Hw]. cbn [fst snd] in Hl, Hw.
      destruct (IH (h ++ w)) as (k & k' & Hk & Hk').
      exists (S k), (S k'). unfold after. cbn [fst snd].
      rewrite looked_up_app, written_app, Hl, Hw, Hk, Hk'.
      split; reflexivity.
    + destruct Hone as [[Hl|Hl] Hw]; cbn [fst snd] in *.
      * exists 0, 0. now rewrite Hl, Hw.
      * exists 1, 0. now rewrite Hl, Hw.
Qed.

Lemma upload_files_prefix (head_branch : string) (files : Dict.dict)
      (h : list event) :
  exists k k',
    looked_up (snd (_upload_files env head_branch files h))
    = firstn k (map snd (Dict.items files))
    /\ written (snd (_upload_files env head_branch files h))
       = firstn k' (map snd (Dict.items files)).
Proof.
  change (wp (_upload_files env head_branch files) h (fun _ w =>
     exists k k',
       looked_up w = firstn k (map snd (Dict.items files))
       /\ written w = firstn k' (map snd (Dict.items files)))).
  unfold _upload_files, create_head_branch, upload_failed, repo_get_branch,
    repo_create_git_ref, logger_info, stderr_write.
  repeat first
         [ wp_step
         | lazymatch goal with
           | |- wp (upload_each _ _ _) ?hh ?Q =>
               let Hp := fresh "Hp" in
               pose proof (upload_each_prefix head_branch (Dict.items files) hh)
                 as Hp;
               unfold wp;
               destruct (upload_each env head_branch (Dict.items files) hh)
                 as [[?|?] ?];
               cbn [fst snd] in Hp |- *; wp_open
           end ].
  all: try (exists 0, 0; split; reflexivity).
  all: destruct Hp as (k & k' & Hk & Hk'); exists k, k';
    flatten; unfold looked_up, written in *;
    cbn [flat_map app]; rewrite ?flat_map_app; cbn [flat_map app];
    rewrite Hk, Hk', ?app_nil_r; auto.
Qed.

End UploadLoop.

(** C9. When local paths repeat in the file-mapping string (after
    trimming), [_parse_files] keeps one entry per distinct local path:
    the keys of the mapping are pairwise distinct, its size is the number
    of distinct local paths, and each local path is mapped to the remote
    path of its last pair. The upload loop makes at most one pass per
    entry: the remote paths it looks up, and those it writes with
    success, are the remote paths of the first entries of the mapping, in
    order. *)
Theorem repeated_local_paths_collapse
        (ps : list (string * string)) (h : list event) :
  forallb well_formed_pair ps = true ->
  exists d,
    _parse_files (Some (render ps)) h = (Return d, [])
    /\ NoDup (Dict.keys d)
    /\ Dict.len d = length (nodup string_dec (map (fun p => strip (fst p)) ps))
    /\ (forall ps1 l r ps2,
           ps = ps1 ++ (l, r) :: ps2 ->
           ~ In (strip l) (map (fun p => strip (fst p)) ps2) ->
           Dict.get d (strip l) = Some (strip r))
    /\ (forall (env : Env) (head_branch : string) (h' : list event),
           exists k k',
             looked_up (snd (_upload_files env head_branch d h'))
             = firstn k (map snd (Dict.items d))
             /\ written (snd (_upload_files env head_branch d h'))
                = firstn k' (map snd (Dict.items d))).
Proof.
  intros Hwf. exists (assign_all (map trim_pair ps) []).
  split; [now apply parse_files_render|].
  split; [apply NoDup_keys_assign_all; constructor|].
  split; [rewrite len_assign_all, map_map; reflexivity|].
  split.
  - intros ps1 l r ps2 -> Hlast.
    rewrite map_app. cbn [map].
    change (trim_pair (l, r)) with (strip l, strip r).
    apply get_assign_all_last. now rewrite map_map.
  - intros env head_branch h'. apply upload_files_prefix.
Qed.

(* ===================================================================== *)
(** ** The properties on sample runs *)
(* ===================================================================== *)

Ltac pick := vm_compute; repeat first [left; reflexivity | right].

Lemma repository_without_slash_is_rejected_witness :
  str_in "/" "invalid-repo" = false
  /\ handle (sample_env no_fault sample_fs)
            (with_repository "invalid-repo" sample_options) []
     = (Raise (SystemExit 1),
        [EStderr ERROR ("Invalid repository format: "
                        ++ repository (with_repository "invalid-repo"
                                                       sample_options)
                        ++ ". Expected format: 'owner/repo'")]).
Proof.
  split; [reflexivity|].
  apply (repository_without_slash_is_rejected
           (sample_env no_fault sample_fs)
           (with_repository "invalid-repo" sample_options) []).
  reflexivity.
Defined.

(** C1 as stated fails on "owner/": the identifier has a slash but no
    repository name, yet the command authenticates and asks the platform
    for the repository before it fails. *)
Lemma repository_with_empty_segment_reaches_network :
  two_segments "owner/" = false
  /\ handle (sample_env (fault_at "get_repo" (GithubException "404 Not Found"))
                        sample_fs)
            (with_repository "owner/" sample_options) []
     = (Raise (SystemExit 1),
        [EGetClient (Ok tt);
         ELogInfo "Successfully authenticated with GitHub using installation access token";
         EGetRepo "owner/" (Err (GithubException "404 Not Found"));
         EStderr ERROR "Failed to access repository owner/: 404 Not Found";
         EClose])
  /\ ~ fails_before_network
       (handle (sample_env (fault_at "get_repo"
                                     (GithubException "404 Not Found"))
                           sample_fs)
               (with_repository "owner/" sample_options) []).
Proof.
  split; [reflexivity|]. split; [reflexivity|].
  intros [_ Hquiet]. vm_compute in Hquiet. discriminate Hquiet.
Qed.

Lemma head_branch_is_created_from_main_witness :
  let env := sample_env fresh_remote sample_fs in
  let opts := with_base_branch "develop" (with_files two_files sample_options) in
  In (ECreateGitRef "refs/heads/feature/test" "abc123" (Ok tt))
     (snd (handle env opts []))
  /\ exists br,
       follows (EGetBranch "main" (Ok br))
               (ECreateGitRef "refs/heads/feature/test" "abc123" (Ok tt))
               (snd (handle env opts []))
       /\ "abc123" = commit_sha br
       /\ "refs/heads/feature/test"
          = ("refs/heads/" ++ head_branch opts)%string.
Proof.
  intros env opts.
  assert (Hin : In (ECreateGitRef "refs/heads/feature/test" "abc123" (Ok tt))
                   (snd (handle env opts []))) by pick.
  split; [exact Hin|].
  exact (head_branch_is_created_from_main env opts [] _ _ _ Hin).
Defined.

Lemma reference_creation_errors_witness :
  let exists_already :=
    sample_env (faults [("create_git_ref",
                         GithubException "422 Reference already exists");
                        ("get_contents", GithubException "404 Not Found")])
               sample_fs in
  let forbidden :=
    sample_env (fault_at "create_git_ref" (GithubException "403 Forbidden"))
               sample_fs in
  let opts := with_files two_files sample_options in
  let e := GithubException "422 Reference already exists" in
  let pre := [EGetBranch "main" (Ok {| name := "main"; commit_sha := "abc123" |});
              ECreateGitRef "refs/heads/feature/test" "abc123" (Err e);
              ELogInfo "Branch feature/test already exists"] in
  _upload_files exists_already "feature/test" [("/tmp/f1.txt", "test.txt")] []
  = after pre (try_except
                 (upload_each exists_already "feature/test"
                              [("/tmp/f1.txt", "test.txt")])
                 upload_failed ([] ++ pre))
  /\ In (ECreateGitRef "refs/heads/feature/test" "abc123"
                       (Err (GithubException "403 Forbidden")))
        (snd (handle forbidden opts []))
  /\ fst (handle forbidden opts []) = Raise (SystemExit 1)
  /\ forallb (fun ev => negb (is_file_write ev || is_pull_creation ev
                              || is_enrichment ev))
             (snd (handle forbidden opts [])) = true.
Proof.
  intros exists_already forbidden opts e pre.
  split.
  - apply (proj1 (reference_creation_errors exists_already opts [])
                 "feature/test" [("/tmp/f1.txt", "test.txt")] []
                 {| name := "main"; commit_sha := "abc123" |} (Err e)).
    + reflexivity.
    + reflexivity.
    + right. exists e. split; reflexivity.
  - assert (Hin : In (ECreateGitRef "refs/heads/feature/test" "abc123"
                                    (Err (GithubException "403 Forbidden")))
                     (snd (handle forbidden opts []))) by pick.
    split; [exact Hin|].
    apply (proj2 (reference_creation_errors forbidden opts [])
                 _ _ _ Hin).
    reflexivity.
Defined.

Lemma enrichment_failures_are_warnings_witness :
  let env :=
    sample_env (faults [("add_to_labels", GithubException "404 Label not found");
                        ("add_to_reviewers",
                         GithubException "422 Reviewer is not a collaborator")])
               sample_fs in
  let opts := with_people "bug,enhancement" "user1" "reviewer1" sample_options in
  (In (ECreatePull "Test PR" "Test description" "main" "feature/test" false
                   (Ok sample_pr))
      (snd (handle env opts []))
   /\ remote_failures_only (snd (handle env opts [])) = true)
  /\ fst (handle env opts []) = Return tt
  /\ failures_warned (snd (handle env opts [])) = true
  /\ ends_with [EStdout SUCCESS
                        ("Successfully created Pull Request: "
                         ++ html_url sample_pr);
                EClose]
               (snd (handle env opts [])).
Proof.
  intros env opts.
  assert (Hin : In (ECreatePull "Test PR" "Test description" "main"
                                "feature/test" false (Ok sample_pr))
                   (snd (handle env opts []))) by pick.
  assert (Hremote : remote_failures_only (snd (handle env opts [])) = true)
    by (vm_compute; reflexivity).
  split; [split; assumption|].
  exact (enrichment_failures_are_warnings env opts [] _ _ _ _ _ _ Hin Hremote).
Defined.

Lemma pull_request_failure_aborts_witness :
  let env :=
    sample_env (fault_at "create_pull" (GithubException "422 Validation failed"))
               sample_fs in
  let opts := with_people "bug,enhancement" "user1" "reviewer1" sample_options in
  In (ECreatePull "Test PR" "Test description" "main" "feature/test" false
                  (Err (GithubException "422 Validation failed")))
     (snd (handle env opts []))
  /\ fst (handle env opts []) = Raise (SystemExit 1)
  /\ forallb (fun ev => negb (is_enrichment ev)) (snd (handle env opts []))
     = true.
Proof.
  intros env opts.
  assert (Hin : In (ECreatePull "Test PR" "Test description" "main"
                                "feature/test" false
                                (Err (GithubException "422 Validation failed")))
                   (snd (handle env opts []))) by pick.
  split; [exact Hin|].
  exact (pull_request_failure_aborts env opts [] _ _ _ _ _ _ Hin).
Defined.


(** The report of that run: the file is listed with its 11 bytes, the
    directory with the marker. *)
Example dry_run_report_of_the_sample :
  handle (sample_env fresh_remote sample_fs)
         (with_dry_run (with_files "/tmp/f1.txt:test.txt,/tmp:docs"
                                   sample_options)) []
  = (Return tt,
     authenticated
     ++ [EGetRepo "OWASP/Nest" (Ok {| full_name := "OWASP/Nest" |});
         ELogInfo "Found repository: OWASP/Nest";
         EGetBranch "main" (Ok {| name := "main"; commit_sha := "abc123" |});
         ELogInfo "Base branch 'main' exists";
         EStdout WARNING "DRY RUN - No changes will be made";
         EStdout Plain "Repository: OWASP/Nest";
         EStdout Plain "Title: Test PR";
         EStdout Plain "Body: Test description";
         EStdout Plain "Base branch: main";
         EStdout Plain "Head branch: feature/test";
         EStdout Plain "Draft: True";
         EStdout Plain "Files to upload:";
         EExists "/tmp/f1.txt" (Ok true);
         EIsFile "/tmp/f1.txt" (Ok true);
         EStatSize "/tmp/f1.txt" (Ok 11%N);
         EStatSize "/tmp/f1.txt" (Ok 11%N);
         EStdout Plain "  /tmp/f1.txt -> test.txt (11 bytes)";
         EExists "/tmp" (Ok true);
         EIsFile "/tmp" (Ok false);
         EStderr ERROR "Path is not a file: /tmp";
         EStdout Plain "  /tmp -> docs (FILE NOT FOUND)";
         EClose]).
Proof. reflexivity. Qed.

Lemma repeated_local_paths_collapse_witness :
  let ps := [("a", "x"); ("b", "y"); (" a", "z")] in
  forallb well_formed_pair ps = true
  /\ exists d,
       _parse_files (Some (render ps)) [] = (Return d, [])
       /\ NoDup (Dict.keys d)
       /\ Dict.len d
          = length (nodup string_dec (map (fun p => strip (fst p)) ps))
       /\ (forall ps1 l r ps2,
              ps = ps1 ++ (l, r) :: ps2 ->
              ~ In (strip l) (map (fun p => strip (fst p)) ps2) ->
              Dict.get d (strip l) = Some (strip r))
       /\ (forall (env : Env) (head_branch : string) (h' : list event),
              exists k k',
                looked_up (snd (_upload_files env head_branch d h'))
                = firstn k (map snd (Dict.items d))
                /\ written (snd (_upload_files env head_branch d h'))
                   = firstn k' (map snd (Dict.items d))).
Proof.
  intros ps. split; [reflexivity|].
  exact (repeated_local_paths_collapse ps [] eq_refl).
Defined.

Example repeated_local_path_last_wins :
  _parse_files (Some "a:x,b:y, a:z") [] = (Return [("a", "z"); ("b", "y")], []).
Proof. reflexivity. Qed.

Lemma dry_run_marks_invalid_files_witness :
  let env := sample_env fresh_remote sample_fs in
  let run := _show_dry_run env "OWASP/Nest" "Test PR" "Test description"
                           "main" "feature/test"
                           [("/tmp/f1.txt", "test.txt"); ("/tmp", "docs");
                            ("/tmp/huge.bin", "big"); ("absent.txt", "a")]
                           ["bug"] [] [] false [] in
  In (not_found_line "/tmp" "docs") (snd run)
  /\ In (not_found_line "/tmp/huge.bin" "big") (snd run)
  /\ In (not_found_line "absent.txt" "a") (snd run).
Proof.
  intros env run.
  pose proof (proj2 (dry_run_marks_invalid_files
                       env "OWASP/Nest" "Test PR" "Test description"
                       "main" "feature/test"
                       [("/tmp/f1.txt", "test.txt"); ("/tmp", "docs");
                        ("/tmp/huge.bin", "big"); ("absent.txt", "a")]
                       ["bug"] [] [] false [])) as Hmarks.
  split; [|split].
  - apply (Hmarks "/tmp" "docs" "/tmp").
    + right. left. reflexivity.
    + left. split; reflexivity.
    + right. left. split; intros h; reflexivity.
    + reflexivity.
  - apply (Hmarks "/tmp/huge.bin" "big" "/tmp/huge.bin").
    + right. right. left. reflexivity.
    + left. split; reflexivity.
    + right. right. split; [intros h; reflexivity|].
      split; [intros h; reflexivity|].
      exists 104857601%N. split; [intros h; reflexivity | reflexivity].
    + reflexivity.
  - apply (Hmarks "absent.txt" "a" "/work/absent.txt").
    + right. right. right. left. reflexivity.
    + right. split; [reflexivity|].
      exists "/work". split; [intros h; reflexivity | reflexivity].
    + left. intros h. reflexivity.
    + reflexivity.
Defined.

(** Paths are those [pathlib] builds: "." components, repeated slashes
    and a trailing slash disappear, exactly two leading slashes stay. *)
Example paths_are_normalised :
  Path "./f1.txt" = "f1.txt" /\ Path "/tmp/f1.txt/" = "/tmp/f1.txt"
  /\ Path "a//b/./c" = "a/b/c" /\ Path "a/../b" = "a/../b"
  /\ Path "" = "." /\ Path "//srv/x" = "//srv/x" /\ Path "///srv/x" = "/srv/x"
  /\ Path "////x" = "/x" /\ Path "//" = "//" /\ Path "./" = "."
  /\ Path "a/." = "a" /\ Path "/./" = "/" /\ Path "/.." = "/.."
  /\ joinpath "/tmp" (Path "./f1.txt") = "/tmp/f1.txt"
  /\ joinpath "/" (Path "a") = "/a"
  /\ joinpath "/tmp" (Path ".") = "/tmp"
  /\ joinpath "/work" (Path "") = "/work"
  /\ joinpath "//x" (Path "a") = "//x/a".
Proof. repeat split; reflexivity. Qed.

Example validation_checks_the_normalised_path :
  _validate_file_path (sample_env no_fault sample_fs) "/tmp/./f1.txt/" []
  = (Return "/tmp/f1.txt", checks "/tmp/f1.txt" 11).
Proof. reflexivity. Qed.

Example dry_run_marks_oversized_file :
  show_dry_run_file (sample_env fresh_remote sample_fs) "/tmp/huge.bin" "h" []
  = (Return tt,
     [EExists "/tmp/huge.bin" (Ok true); EIsFile "/tmp/huge.bin" (Ok true);
      EStatSize "/tmp/huge.bin" (Ok 104857601%N);
      EStderr ERROR "File too large: /tmp/huge.bin (104857601 bytes). Maximum size is 104857600 bytes.";
      not_found_line "/tmp/huge.bin" "h"]).
Proof. reflexivity. Qed.

(** *** The scenarios of the test suite *)

Example run_success :
  handle (sample_env no_fault sample_fs) sample_options []
  = (Return tt,
     [EGetClient (Ok tt);
      ELogInfo "Successfully authenticated with GitHub using installation access token";
      EGetRepo "OWASP/Nest" (Ok {| full_name := "OWASP/Nest" |});
      ELogInfo "Found repository: OWASP/Nest";
      EGetBranch "main" (Ok {| name := "main"; commit_sha := "abc123" |});
      ELogInfo "Base branch 'main' exists";
      ECreatePull "Test PR" "Test description" "main" "feature/test" false
                  (Ok sample_pr);
      ELogInfo "Created Pull Request: 123";
      EStdout SUCCESS "Successfully created Pull Request: https://github.com/OWASP/Nest/pull/123";
      EClose]).
Proof. reflexivity. Qed.

Example run_with_files :
  handle (sample_env fresh_remote sample_fs)
         (with_files two_files sample_options) []
  = (Return tt,
     [EGetClient (Ok tt);
      ELogInfo "Successfully authenticated with GitHub using installation access token";
      EGetRepo "OWASP/Nest" (Ok {| full_name := "OWASP/Nest" |});
      ELogInfo "Found repository: OWASP/Nest";
      EGetBranch "main" (Ok {| name := "main"; commit_sha := "abc123" |});
      ELogInfo "Base branch 'main' exists";
      EGetBranch "main" (Ok {| name := "main"; commit_sha := "abc123" |});
      ECreateGitRef "refs/heads/feature/test" "abc123" (Ok tt);
      ELogInfo "Created branch: feature/test";
      EExists "/tmp/f1.txt" (Ok true); EIsFile "/tmp/f1.txt" (Ok true);
      EStatSize "/tmp/f1.txt" (Ok 11%N);
      EReadText "/tmp/f1.txt" strict (Ok "Hello World");
      EGetContents "test.txt" "feature/test"
                   (Err (GithubException "404 Not Found"));
      ECreateFile "test.txt" "Create test.txt" "Hello World" "feature/test"
                  (Ok tt);
      ELogInfo "Created file: /tmp/f1.txt -> test.txt";
      EExists "/tmp/f2.py" (Ok true); EIsFile "/tmp/f2.py" (Ok true);
      EStatSize "/tmp/f2.py" (Ok 38%N);
      EReadText "/tmp/f2.py" strict (Ok "Hello World");
      EGetContents "src/test.py" "feature/test"
                   (Err (GithubException "404 Not Found"));
      ECreateFile "src/test.py" "Create src/test.py" "Hello World"
                  "feature/test" (Ok tt);
      ELogInfo "Created file: /tmp/f2.py -> src/test.py";
      ECreatePull "Test PR" "Test description" "main" "feature/test" false
                  (Ok sample_pr);
      ELogInfo "Created Pull Request: 123";
      EStdout SUCCESS "Successfully created Pull Request: https://github.com/OWASP/Nest/pull/123";
      EClose]).
Proof. reflexivity. Qed.

Example run_authentication_error :
  handle (sample_env (fault_at "get_github_client_with_installation_token"
                               (BadCredentialsException "401 Bad credentials"))
                     sample_fs)
         sample_options []
  = (Raise (SystemExit 1),
     [EGetClient (Err (BadCredentialsException "401 Bad credentials"));
      EStderr ERROR "GitHub authentication failed. Please check your GitHub App configuration."]).
Proof. reflexivity. Qed.

Example run_base_branch_not_found :
  handle (sample_env (fault_at "get_branch" (GithubException "404 Branch not found"))
                     sample_fs)
         (with_base_branch "non-existent" sample_options) []
  = (Raise (SystemExit 1),
     [EGetClient (Ok tt);
      ELogInfo "Successfully authenticated with GitHub using installation access token";
      EGetRepo "OWASP/Nest" (Ok {| full_name := "OWASP/Nest" |});
      ELogInfo "Found repository: OWASP/Nest";
      EGetBranch "non-existent" (Err (GithubException "404 Branch not found"));
      EStderr ERROR "Base branch 'non-existent' not found: 404 Branch not found";
      EClose]).
Proof. reflexivity. Qed.

(** An update that fails falls back to a creation of the same file. *)
Example upload_update_then_create :
  upload_file (sample_env (fault_at "update_file" (GithubException "409 Conflict"))
                          sample_fs)
              "feature/test" "/tmp/f1.txt" "test.txt" []
  = (Return tt,
     [EExists "/tmp/f1.txt" (Ok true); EIsFile "/tmp/f1.txt" (Ok true);
      EStatSize "/tmp/f1.txt" (Ok 11%N);
      EReadText "/tmp/f1.txt" strict (Ok "Hello World");
      EGetContents "test.txt" "feature/test" (Ok {| sha := "f00" |});
      EUpdateFile "test.txt" "Update test.txt" "Hello World" "f00"
                  "feature/test" (Err (GithubException "409 Conflict"));
      ECreateFile "test.txt" "Create test.txt" "Hello World" "feature/test"
                  (Ok tt);
      ELogInfo "Created file: /tmp/f1.txt -> test.txt"]).
Proof. reflexivity. Qed.

Example parse_list_with_spaces :
  _parse_list (Some " item1 , item2 , item3 ") = ["item1"; "item2"; "item3"].
Proof. reflexivity. Qed.

Example parse_list_empty :
  _parse_list None = [] /\ _parse_list (Some "") = [].
Proof. split; reflexivity. Qed.

(* ===================================================================== *)
(** ** Trimming *)
(* ===================================================================== *)

Lemma lstrip_starts_clean (s : string) : starts_clean (lstrip s) = true.
Proof.
  induction s as [|c s IH]; [reflexivity|].
  cbn [lstrip]. destruct (is_space c) eqn:Hc; [exact IH|].
  cbn. now rewrite Hc.
Qed.

Lemma lstrip_clean (s : string) : starts_clean s = true -> lstrip s = s.
Proof.
  destruct s as [|c s]; [reflexivity|]. cbn. intros Hc.
  apply negb_true_iff in Hc. now rewrite Hc.
Qed.

Lemma rstrip_starts_clean (s : string) :
  starts_clean s = true -> starts_clean (rstrip s) = true.
Proof.
  destruct s as [|c s]; [reflexivity|]. cbn [starts_clean rstrip].
  intros Hc. destruct (rstrip s); [|exact Hc].
  apply negb_true_iff in Hc. rewrite Hc. cbn. now rewrite Hc.
Qed.

Lemma rstrip_idempotent (s : string) : rstrip (rstrip s) = rstrip s.
Proof.
  induction s as [|c s IH]; [reflexivity|].
  cbn [rstrip]. destruct (rstrip s) as [|c' s'] eqn:Hs.
  - destruct (is_space c) eqn:Hc; [reflexivity|]. cbn. now rewrite Hc.
  - cbn [rstrip]. cbn [rstrip] in IH. rewrite IH. reflexivity.
Qed.

Lemma strip_idempotent (s : string) : strip (strip s) = strip s.
Proof.
  unfold strip.
  rewrite (lstrip_clean (rstrip (lstrip s))).
  - apply rstrip_idempotent.
  - apply rstrip_starts_clean, lstrip_starts_clean.
Qed.

Section TrimmingKeeps.

Variable c : ascii.

Lemma lstrip_without (s : string) :
  str_in (String c EmptyString) s = false -> str_in (String c EmptyString) (lstrip s) = false.
Proof.
  induction s as [|a s IH]; [reflexivity|]. intros H.
  cbn [lstrip]. destruct (is_space a); [|exact H].
  rewrite str_in_char_cons in H. apply orb_false_iff in H as [_ H]. auto.
Qed.

Lemma rstrip_without (s : string) :
  str_in (String c EmptyString) s = false -> str_in (String c EmptyString) (rstrip s) = false.
Proof.
  induction s as [|a s IH]; [reflexivity|]. intros H.
  rewrite str_in_char_cons in H. apply orb_false_iff in H as [Ha H].
  specialize (IH H). cbn [rstrip]. destruct (rstrip s) as [|a' s'].
  - destruct (is_space a); [reflexivity|].
    now rewrite str_in_char_cons, Ha.
  - now rewrite str_in_char_cons, Ha, IH.
Qed.

Lemma strip_without (s : string) :
  str_in (String c EmptyString) s = false -> str_in (String c EmptyString) (strip s) = false.
Proof. intros H. apply rstrip_without, lstrip_without, H. Qed.

Lemma split_pieces_without (s : string) :
  Forall (fun x => str_in (String c EmptyString) x = false) (split c s).
Proof.
  induction s as [|a s IH]; [repeat constructor|].
  cbn [split]. destruct (Ascii.eqb a c) eqn:Ha.
  - constructor; [reflexivity | exact IH].
  - destruct (split c s) as [|x xs]; [repeat constructor|].
    + now rewrite str_in_char_cons, Ha.
    + inversion IH as [|? ? Hx Hxs]; subst. constructor; [|exact Hxs].
      now rewrite str_in_char_cons, Ha, Hx.
Qed.

End TrimmingKeeps.

(* ===================================================================== *)
(** ** [_parse_list] *)
(* ===================================================================== *)

(** X1. Whatever the input, [_parse_list] returns tokens that are not
    empty, carry no blank at either end and contain no comma. *)
Theorem parse_list_tokens_are_clean (list_str : option string) :
  forallb clean_token (_parse_list list_str) = true.
Proof.
  unfold _parse_list. destruct list_str as [s|]; [|reflexivity].
  destruct (negb (truthy s)); [reflexivity|].
  pose proof (split_pieces_without "," s) as Hpieces.
  induction Hpieces as [|x xs Hx _ IH]; [reflexivity|].
  cbn [filter]. destruct (truthy (strip x)) eqn:Ht; [|exact IH].
  cbn [map forallb]. rewrite IH, andb_true_r.
  unfold clean_token.
  rewrite Ht, strip_idempotent, String.eqb_refl, (strip_without _ _ Hx).
  reflexivity.
Qed.

(** X2. Joining clean tokens with commas and parsing the result gives
    the tokens back, in order and with their repetitions. *)
Theorem parse_list_round_trip (xs : list string) :
  forallb clean_token xs = true ->
  _parse_list (Some (join "," xs)) = xs.
Proof.
  intros Hxs. unfold _parse_list.
  destruct xs as [|x xs]; [reflexivity|].
  assert (Hall : Forall (fun y => clean_token y = true) (x :: xs))
    by (apply Forall_forall; now apply forallb_forall).
  assert (truthy (join "," (x :: xs)) = true) as ->.
  { apply join_cons_truthy. inversion Hall as [|? ? Hx _]; subst.
    unfold clean_token in Hx. now destruct (truthy x). }
  cbn [negb]. rewrite split_join.
  - clear Hxs. induction Hall as [|y ys Hy _ IH]; [reflexivity|].
    unfold clean_token in Hy.
    apply andb_true_iff in Hy as [Hy _]. apply andb_true_iff in Hy as [Ht He].
    apply String.eqb_eq in He.
    cbn [filter]. rewrite He, Ht. cbn [map]. now rewrite He, IH.
  - discriminate.
  - eapply Forall_impl; [|exact Hall]. intros y Hy. unfold clean_token in Hy.
    apply andb_true_iff in Hy as [_ Hy]. now apply negb_true_iff in Hy.
Qed.

Lemma parse_list_round_trip_witness :
  forallb clean_token ["bug"; "good first issue"; "bug"] = true
  /\ _parse_list (Some (join "," ["bug"; "good first issue"; "bug"]))
     = ["bug"; "good first issue"; "bug"].
Proof.
  split; [reflexivity|].
  apply (parse_list_round_trip ["bug"; "good first issue"; "bug"]).
  reflexivity.
Defined.

(* ===================================================================== *)
(** ** [_parse_files] *)
(* ===================================================================== *)

Lemma parse_file_specs_reads (specs : list string) (d : Dict.dict)
      (h : list event) :
  existsb malformed specs = false ->
  parse_file_specs specs d h
  = (Return (assign_all (map read_pair specs) d), []).
Proof.
  revert d h. induction specs as [|x specs IH]; intros d h Hex.
  - reflexivity.
  - cbn [existsb] in Hex. apply orb_false_iff in Hex as [Hx Hex].
    cbn [parse_file_specs]. unfold bind. rewrite parse_file_spec_cases, Hx.
    unfold malformed in Hx. apply orb_false_iff in Hx as [Hc Hx].
    apply negb_false_iff in Hc.
    destruct (split1_with _ _ Hc) as (l & r & -> & Hl).
    assert (Hrp : read_pair (l ++ String ":" r) = (strip l, strip r))
      by (unfold read_pair; now rewrite split1_app).
    rewrite split1_app by exact Hl. rewrite (IH _ _ Hex).
    cbn [map]. rewrite Hrp. reflexivity.
Qed.

Lemma read_pair_clean (x : string) :
  str_in "," x = false -> malformed x = false ->
  clean_entry (read_pair x) = true.
Proof.
  intros Hcomma Hx. unfold malformed in Hx.
  apply orb_false_iff in Hx as [Hc Hx]. apply negb_false_iff in Hc.
  destruct (split1_with _ _ Hc) as (l & r & -> & Hl).
  unfold read_pair. rewrite split1_app in * by exact Hl.
  apply orb_false_iff in Hx as [Htl Htr].
  apply negb_false_iff in Htl, Htr.
  rewrite str_in_char_app, str_in_char_cons in Hcomma.
  apply orb_false_iff in Hcomma as [Hcl Hcr]. cbn [Ascii.eqb orb] in Hcr.
  change (Ascii.eqb ":" ",") with false in Hcr. cbn [orb] in Hcr.
  unfold clean_entry, clean_token. cbn [fst snd].
  rewrite Htl, Htr, !strip_idempotent, !String.eqb_refl.
  rewrite (strip_without _ _ Hcl), (strip_without _ _ Hcr),
    (strip_without _ _ Hl).
  reflexivity.
Qed.

Lemma set_clean (d : Dict.dict) (k v : string) :
  forallb clean_entry d = true -> clean_entry (k, v) = true ->
  forallb clean_entry (Dict.set d k v) = true.
Proof.
  intros Hd Hkv. induction d as [|[k' v'] d IH]; cbn [Dict.set forallb].
  - now rewrite Hkv.
  - cbn [forallb] in Hd. apply andb_true_iff in Hd as [Hk' Hd].
    destruct (String.eqb k' k) eqn:E; cbn [forallb].
    + apply String.eqb_eq in E as ->. now rewrite Hkv, Hd.
    + now rewrite Hk', IH.
Qed.

Lemma assign_all_clean (ps : list (string * string)) (d : Dict.dict) :
  forallb clean_entry d = true -> forallb clean_entry ps = true ->
  forallb clean_entry (assign_all ps d) = true.
Proof.
  revert d. induction ps as [|[k v] ps IH]; intros d Hd Hps; [exact Hd|].
  cbn [forallb] in Hps. apply andb_true_iff in Hps as [Hkv Hps].
  cbn. apply IH; [|exact Hps]. now apply set_clean.
Qed.

Lemma len_set (d : Dict.dict) (k v : string) :
  Dict.len (Dict.set d k v) <= S (Dict.len d).
Proof.
  unfold Dict.len. induction d as [|[k' v'] d IH]; cbn [Dict.set length].
  - lia.
  - destruct (String.eqb k' k); cbn [length]; lia.
Qed.

Lemma len_assign_all_le (ps : list (string * string)) (d : Dict.dict) :
  Dict.len (assign_all ps d) <= Dict.len d + length ps.
Proof.
  revert d. induction ps as [|[k v] ps IH]; intros d; cbn [length].
  - unfold assign_all. cbn [fold_left]. lia.
  - change (assign_all ((k, v) :: ps) d)
      with (assign_all ps (Dict.set d k v)).
    specialize (IH (Dict.set d k v)). pose proof (len_set d k v). lia.
Qed.

(** X3. When no piece between the commas is malformed, [_parse_files]
    writes nothing and returns the mapping obtained by assigning, piece
    after piece, the trimmed text after the first colon to the trimmed
    text before it; a local path given again keeps its place and takes
    the new remote path. *)
Theorem parse_files_reads_every_piece (s : string) (h : list event) :
  truthy s = true ->
  existsb malformed (split "," s) = false ->
  _parse_files (Some s) h
  = (Return (assign_all (map read_pair (split "," s)) []), []).
Proof.
  intros Hs Hex. unfold _parse_files. rewrite Hs. cbn [negb].
  now apply parse_file_specs_reads.
Qed.

Lemma parse_files_reads_every_piece_witness :
  _parse_files (Some "a:x, b : y:z ,a:w") []
  = (Return [("a", "w"); ("b", "y:z")], []).
Proof.
  apply (parse_files_reads_every_piece "a:x, b : y:z ,a:w" []);
    reflexivity.
Defined.

(** X4. A mapping that [_parse_files] returns comes without any output
    and from an input without a malformed piece; its local paths are
    pairwise distinct; every local and remote path in it is non-empty,
    trimmed and free of commas, the local ones free of colons too; and
    it has no more entries than the input has pieces. *)
Theorem parse_files_result_is_clean
        (files_str : option string) (h : list event)
        (d : Dict.dict) (w : list event) :
  _parse_files files_str h = (Return d, w) ->
  w = []
  /\ NoDup (Dict.keys d)
  /\ forallb clean_entry d = true
  /\ match files_str with
     | Some s => existsb malformed (split "," s) = false \/ s = EmptyString
     | None => True
     end
  /\ Dict.len d
     <= match files_str with
        | Some s => length (split "," s)
        | None => 0
        end.
Proof.
  intros Hrun. unfold _parse_files in Hrun. destruct files_str as [s|].
  2:{ injection Hrun as <- <-.
      split; [reflexivity|]. split; [constructor|]. split; [reflexivity|].
      split; [exact I | apply le_n]. }
  destruct s as [|a s].
  { injection Hrun as <- <-.
    split; [reflexivity|]. split; [constructor|]. split; [reflexivity|].
    split; [now right | apply Nat.le_0_l]. }
  cbn [truthy negb] in Hrun.
  pose proof (split_pieces_without "," (String a s)) as Hpieces.
  set (xs := split "," (String a s)) in *. clearbody xs.
  destruct (existsb malformed xs) eqn:Hex.
  { destruct (parse_file_specs_malformed _ [] h Hex) as (x & _ & _ & Hx).
    rewrite Hx in Hrun. discriminate Hrun. }
  rewrite (parse_file_specs_reads _ [] h Hex) in Hrun.
  injection Hrun as <- <-.
  split; [reflexivity|]. split.
  { apply NoDup_keys_assign_all. constructor. }
  split.
  { apply assign_all_clean; [reflexivity|].
    revert Hex Hpieces.
    induction xs as [|x xs IH]; intros Hex Hpieces; [reflexivity|].
    cbn [existsb] in Hex. apply orb_false_iff in Hex as [Hx Hex].
    inversion Hpieces as [|? ? Hc Hcs]; subst.
    cbn [map forallb]. rewrite (read_pair_clean _ Hc Hx), (IH Hex Hcs).
    reflexivity. }
  split; [now left|].
  pose proof (len_assign_all_le (map read_pair xs) []) as Hlen.
  rewrite length_map in Hlen. exact Hlen.
Qed.

Lemma parse_files_result_is_clean_witness :
  [] = @nil event
  /\ NoDup (Dict.keys [("a", "w"); ("b", "y:z")])
  /\ forallb clean_entry [("a", "w"); ("b", "y:z")] = true
  /\ (existsb malformed (split "," "a:x, b : y:z ,a:w") = false
      \/ "a:x, b : y:z ,a:w" = EmptyString)
  /\ Dict.len [("a", "w"); ("b", "y:z")]
     <= length (split "," "a:x, b : y:z ,a:w").
Proof.
  apply (parse_files_result_is_clean (Some "a:x, b : y:z ,a:w") []
                                     [("a", "w"); ("b", "y:z")] []).
  reflexivity.
Defined.

(* ===================================================================== *)
(** ** [_validate_file_path] *)
(* ===================================================================== *)

Lemma refused_shape (file_path : string) (v : list event) :
  refused file_path v ->
  exists pre msg,
    v = pre ++ [EStderr ERROR msg] /\ forallb is_file_system pre = true.
Proof.
  intros [path pre Hres | path pre Hres | path pre n Hres Hn
         | calls ev path e Hcalls Hev He].
  - exists (pre ++ [EExists path (Ok false)]), ("File not found: " ++ file_path)%string.
    split; [now rewrite <- app_assoc|].
    destruct Hres as [(_ & _ & ->) | (_ & d & _ & ->)]; reflexivity.
  - exists (pre ++ [EExists path (Ok true); EIsFile path (Ok false)]),
      ("Path is not a file: " ++ file_path)%string.
    split; [now rewrite <- app_assoc|].
    destruct Hres as [(_ & _ & ->) | (_ & d & _ & ->)]; reflexivity.
  - eexists (pre ++ checks path n), _.
    split; [now rewrite <- app_assoc|].
    destruct Hres as [(_ & _ & ->) | (_ & d & _ & ->)]; reflexivity.
  - exists (calls ++ [ev]), ("Invalid file path '" ++ file_path ++ "': "
                           ++ str e)%string.
    split; [now rewrite <- app_assoc|].
    rewrite forallb_app, Hcalls.
    destruct Hev as [-> | [-> | [-> | ->]]]; reflexivity.
Qed.

Section ValidateFilePath.

Variable env : Env.

(** X5. A path that [_validate_file_path] returns has passed the three
    checks, in this order and with nothing written: it exists, it is a
    regular file, and its size is at most 100 MiB. The path that is
    checked and returned is the one [pathlib] builds from the given
    string, without "." components and without repeated or trailing
    slashes: that path itself when it is absolute, and that path under
    the working directory otherwise. *)
Theorem validate_file_path_accepts
        (file_path : string) (h : list event) (path : string)
        (w : list event) :
  _validate_file_path env file_path h = (Return path, w) ->
  exists pre n,
    resolves file_path path pre
    /\ (n <= 100 * 1024 * 1024)%N
    /\ w = pre ++ checks path n.
Proof.
  intros Hrun. pose proof (validate_file_path_runs env file_path h) as Hwp.
  unfold wp in Hwp. rewrite Hrun in Hwp. exact Hwp.
Qed.

(** X6. [_validate_file_path] fails in two ways only: with exit status 1,
    after calls to the file system and one closing error line; or with an
    exception of the file system that is neither an [OSError] nor a
    [ValueError], which it passes on without writing anything. *)
Theorem validate_file_path_rejects
        (file_path : string) (h : list event) (e : exn) (w : list event) :
  _validate_file_path env file_path h = (Raise e, w) ->
  validation_failure e w.
Proof.
  intros Hrun. pose proof (validate_file_path_runs env file_path h) as Hwp.
  unfold wp in Hwp. rewrite Hrun in Hwp. cbn [fst snd] in Hwp.
  destruct e as [code|err].
  - destruct Hwp as [-> Href]. left. split; [reflexivity|].
    now apply refused_shape in Href.
  - right. exists err. destruct Hwp as (H1 & H2 & H3). auto.
Qed.

(** X7. Conversely, a file whose three checks pass is returned: the path
    that [pathlib] builds from the given string (under the working
    directory when it is relative) exists, is a regular file and has at
    most 100 MiB, a size of exactly 100 MiB included. *)
Theorem validate_file_path_complete
        (file_path : string) (h : list event) (path : string)
        (pre : list event) (n : N) :
  (is_absolute (Path file_path) = true
   /\ path = Path file_path /\ pre = [])
  \/ (is_absolute (Path file_path) = false
      /\ exists d, cwd env h = Ok d /\ path = joinpath d (Path file_path)
                   /\ pre = [ECwd (Ok d)]) ->
  exists_ env (h ++ pre) path = Ok true ->
  is_file env (h ++ pre ++ [EExists path (Ok true)]) path = Ok true ->
  stat_size env (h ++ pre ++ [EExists path (Ok true);
                              EIsFile path (Ok true)]) path = Ok n ->
  (n <= 100 * 1024 * 1024)%N ->
  _validate_file_path env file_path h = (Return path, pre ++ checks path n).
Proof.
  intros Hres Hex Hfile Hsize Hn.
  apply N.ltb_ge in Hn. change (100 * 1024 * 1024)%N with max_size in Hn.
  enough (Hwp : wp (_validate_file_path env file_path) h
                   (fun r w => r = Return path /\ w = pre ++ checks path n)).
  { unfold wp in Hwp. destruct (_validate_file_path env file_path h).
    cbn [fst snd] in Hwp. destruct Hwp as [-> ->]. reflexivity. }
  unfold _validate_file_path, path_cwd, path_exists, path_is_file,
    path_stat_size, stderr_write, sys_exit; cbv zeta.
  destruct Hres as [(Habs & -> & ->) | (Habs & d & Hd & -> & ->)];
    rewrite Habs; cbn [negb]; wp_run.
  all: repeat rewrite <- app_assoc in *; cbn [app] in *;
    rewrite ?app_nil_r in *.
  all: repeat match goal with
              | H1 : ?x = Ok _, H2 : ?x = Ok _ |- _ =>
                  rewrite H1 in H2; injection H2 as ?; subst
              | H1 : ?x = Ok _, H2 : ?x = Err _ |- _ =>
                  rewrite H1 in H2; discriminate H2
              end.
  all: try discriminate.
  all: try congruence.
  all: split; reflexivity.
Qed.

End ValidateFilePath.

Lemma validate_file_path_accepts_witness :
  exists pre n,
    resolves "/tmp/./f1.txt/" "/tmp/f1.txt" pre
    /\ (n <= 100 * 1024 * 1024)%N
    /\ checks "/tmp/f1.txt" 11 = pre ++ checks "/tmp/f1.txt" n.
Proof.
  apply (validate_file_path_accepts (sample_env no_fault sample_fs)
                                    "/tmp/./f1.txt/" []).
  vm_compute. reflexivity.
Defined.

Lemma validate_file_path_rejects_witness :
  validation_failure
    (SystemExit 1)
    [ECwd (Ok "/work"); EExists "/work/notes.txt" (Ok false);
     EStderr ERROR "File not found: notes.txt"].
Proof.
  apply (validate_file_path_rejects (sample_env no_fault sample_fs)
                                    "notes.txt" []).
  vm_compute. reflexivity.
Defined.

Lemma validate_file_path_complete_witness :
  _validate_file_path (sample_env no_fault limit_fs) "/tmp//limit.bin/" []
  = (Return "/tmp/limit.bin", checks "/tmp/limit.bin" 104857600).
Proof.
  apply (validate_file_path_complete (sample_env no_fault limit_fs)
                                     "/tmp//limit.bin/" [] "/tmp/limit.bin"
                                     [] 104857600).
  - left. repeat split; reflexivity.
  - vm_compute. reflexivity.
  - vm_compute. reflexivity.
  - vm_compute. reflexivity.
  - vm_compute. discriminate.
Defined.

(* ===================================================================== *)
(** ** [_read_file_content] *)
(* ===================================================================== *)

Section ReadFileContent.

Variable env : Env.

(** X8. [_read_file_content] reads the file in strict mode and, only when
    that raises a [UnicodeDecodeError], once more in replacing mode. What
    it returns is the content of the last read. It exits, with status 1
    and one error line, only when the second read fails too, whatever the
    failure. A failure of the first read that is not a decoding error is
    passed on as it is, with nothing written; a [UnicodeDecodeError]
    never leaves the function. *)
Theorem read_file_content_outcome (file_path : string) (h : list event) :
  let w := snd (_read_file_content env file_path h) in
  match fst (_read_file_content env file_path h) with
  | Return content =>
      w = [EReadText file_path strict (Ok content)]
      \/ exists s,
          w = [EReadText file_path strict (Err (UnicodeDecodeError s));
               EReadText file_path replace (Ok content)]
  | Raise (SystemExit code) =>
      code = 1%Z
      /\ exists s err,
          w = [EReadText file_path strict (Err (UnicodeDecodeError s));
               EReadText file_path replace (Err err);
               EStderr ERROR ("Failed to read file '" ++ file_path ++ "': "
                              ++ str err)]
  | Raise (Exc err) =>
      (forall s, err <> UnicodeDecodeError s)
      /\ w = [EReadText file_path strict (Err err)]
  end.
Proof.
  cbv zeta.
  unfold _read_file_content, try_except, path_read_text, call, after, bind,
    stderr_write, sys_exit, emit, raise.
  destruct (read_text env h file_path strict) as [content|err];
    cbn [fst snd]; [now left|].
  destruct err; cbn [fst snd app]; try (split; [discriminate | reflexivity]).
  destruct (read_text env _ file_path replace) as [content|err];
    cbn [fst snd app].
  - right. eexists. reflexivity.
  - split; [reflexivity|]. eexists _, _. reflexivity.
Qed.

End ReadFileContent.

(* ===================================================================== *)
(** ** The file list of the dry-run report *)
(* ===================================================================== *)

Section DryRunLines.

Variable env : Env.

(** X9. The file list of the dry-run report has one line per entry of
    the mapping, in the order of the mapping. A file is listed with a
    size only after it has passed the three checks, and the size printed
    is the one the file system reports in the call made right before the
    line; a file that validation refuses is listed with the marker
    "(FILE NOT FOUND)", right after the error line of its validation.
    The loop never exits by itself; it stops early only on an exception
    of the file system that validation does not catch, and then the
    entries before the failing one are listed and nothing is printed for
    the failing one. *)
Theorem dry_run_prints_one_line_per_entry
        (items : list (string * string)) (h : list event) :
  match fst (show_dry_run_files env items h) with
  | Return _ => lists_files items (snd (show_dry_run_files env items h))
  | Raise (SystemExit _) => False
  | Raise (Exc _) =>
      stops_listing items (snd (show_dry_run_files env items h))
  end.
Proof. exact (show_dry_run_files_runs env items h). Qed.

End DryRunLines.

(* ===================================================================== *)
(** ** Exit status *)
(* ===================================================================== *)

Section ExitsOne.

Context {A B : Type}.

Lemma exits_one_ret (a : A) : exits_one (ret a).
Proof. intros h. exact I. Qed.

Lemma exits_one_raise (e : exn) : status_one e -> exits_one (@raise A e).
Proof. intros He h. exact He. Qed.

Lemma exits_one_sys_exit : exits_one (@sys_exit A 1).
Proof. intros h. reflexivity. Qed.

Lemma exits_one_emit (ev : event) : exits_one (emit ev).
Proof. intros h. exact I. Qed.

Lemma exits_one_call (ask : list event -> result A)
      (mk : result A -> event) :
  exits_one (call ask mk).
Proof. intros h. unfold call. cbn. destruct (ask h); exact I. Qed.

Lemma exits_one_bind (m : M A) (f : A -> M B) :
  exits_one m -> (forall a, exits_one (f a)) -> exits_one (bind m f).
Proof.
  intros Hm Hf h. unfold bind. specialize (Hm h).
  destruct (m h) as [[a|e] w]; cbn in *; [|exact Hm].
  apply Hf.
Qed.

Lemma exits_one_try_except (m : M A) (handler : exn -> option (M A)) :
  exits_one m ->
  (forall e k, status_one e -> handler e = Some k -> exits_one k) ->
  exits_one (try_except m handler).
Proof.
  intros Hm Hk h. unfold try_except. specialize (Hm h).
  destruct (m h) as [[a|e] w]; cbn in *; [exact I|].
  destruct (handler e) as [k|] eqn:E; cbn; [|exact Hm].
  apply (Hk _ _ Hm E).
Qed.

Lemma exits_one_if (b : bool) (m1 m2 : M A) :
  exits_one m1 -> exits_one m2 -> exits_one (if b then m1 else m2).
Proof. destruct b; auto. Qed.

End ExitsOne.

Ltac exits_handler :=
  let e := fresh "e" in
  let k := fresh "k" in
  let Hs := fresh "Hs" in
  let H := fresh "H" in
  intros e k Hs H;
  repeat match type of H with
         | context [match ?x with _ => _ end] => destruct x; try discriminate H
         end;
  injection H as <-.

Ltac exits_step :=
  first
    [ apply exits_one_ret
    | apply exits_one_sys_exit
    | apply exits_one_raise; first [assumption | exact I]
    | apply exits_one_emit
    | apply exits_one_call
    | apply exits_one_bind; [|intros]
    | apply exits_one_try_except; [|exits_handler]
    | apply exits_one_if
    | match goal with
      | |- exits_one (match ?x with _ => _ end) => destruct x
      end ].

Ltac exits_auto := repeat exits_step.

Section ExitStatus.

Variable env : Env.

Lemma parse_files_exits_one (files_str : option string) :
  exits_one (_parse_files files_str).
Proof.
  unfold _parse_files. destruct files_str as [s|]; [|exits_auto].
  destruct (negb (truthy s)); [exits_auto|].
  generalize (@nil (string * string)) as d.
  induction (split "," s) as [|x xs IH]; intros d; cbn [parse_file_specs].
  - exits_auto.
  - apply exits_one_bind; [|intros; apply IH].
    unfold parse_file_spec, unpack2, stderr_write. exits_auto.
Qed.

Lemma validate_file_path_exits_one (file_path : string) :
  exits_one (_validate_file_path env file_path).
Proof.
  unfold _validate_file_path, path_cwd, path_exists, path_is_file,
    path_stat_size, stderr_write; cbv zeta.
  exits_auto.
Qed.

Lemma read_file_content_exits_one (file_path : string) :
  exits_one (_read_file_content env file_path).
Proof.
  unfold _read_file_content, path_read_text, stderr_write. exits_auto.
Qed.

Lemma show_dry_run_exits_one
      (repository title body base_branch head_branch : string)
      (files : Dict.dict) (labels assignees reviewers : list string)
      (draft : bool) :
  exits_one (_show_dry_run env repository title body base_branch head_branch
                           files labels assignees reviewers draft).
Proof.
  assert (Hloop : forall items, exits_one (show_dry_run_files env items)).
  { induction items as [|[l r] items IH]; cbn [show_dry_run_files].
    - exits_auto.
    - apply exits_one_bind; [|intros; apply IH].
      unfold show_dry_run_file, path_stat_size, stdout_write.
      apply exits_one_try_except; [|exits_handler; exits_auto].
      apply exits_one_bind; [apply validate_file_path_exits_one|]. intros.
      exits_auto. }
  unfold _show_dry_run, stdout_write.
  repeat (apply exits_one_bind; [|intros]);
    try (apply exits_one_if);
    try (apply exits_one_bind; [|intros]);
    try apply Hloop;
    exits_auto.
Qed.

Lemma upload_file_exits_one (head_branch local_path remote_path : string) :
  exits_one (upload_file env head_branch local_path remote_path).
Proof.
  unfold upload_file.
  apply exits_one_try_except; [|exits_handler; unfold stderr_write; exits_auto].
  apply exits_one_bind; [apply validate_file_path_exits_one|]. intros.
  apply exits_one_bind; [apply read_file_content_exits_one|]. intros.
  unfold repo_get_contents, repo_update_file, repo_create_file, logger_info.
  exits_auto.
Qed.

Lemma upload_files_exits_one (head_branch : string) (files : Dict.dict) :
  exits_one (_upload_files env head_branch files).
Proof.
  assert (Hloop : forall items, exits_one (upload_each env head_branch items)).
  { induction items as [|[l r] items IH]; cbn [upload_each].
    - exits_auto.
    - apply exits_one_bind; [apply upload_file_exits_one | intros; apply IH]. }
  unfold _upload_files, create_head_branch, upload_failed, repo_get_branch,
    repo_create_git_ref, logger_info, stderr_write.
  apply exits_one_try_except; [|exits_handler; exits_auto].
  apply exits_one_bind; [exits_auto|]. intros.
  apply exits_one_bind; [exits_auto|]. intros.
  apply Hloop.
Qed.

Lemma handle_try_exits_one (options : Options) :
  exits_one (handle_try env options).
Proof.
  unfold handle_try.
  repeat (apply exits_one_bind; [|intros]).
  all: try apply parse_files_exits_one.
  all: try (apply exits_one_if; [apply show_dry_run_exits_one|]).
  all: repeat (apply exits_one_bind; [|intros]).
  all: try (apply exits_one_if; [apply upload_files_exits_one|]).
  all: unfold _create_pull_request, _add_labels, _add_assignees,
         _add_reviewers, warn, unpack2, sys_exit, stdout_write, stderr_write,
         logger_info, gh_new, gh_get_repo, repo_get_branch, repo_create_pull,
         pr_add_to_labels, pr_add_to_assignees, pr_add_to_reviewers.
  all: exits_auto.
Qed.

(** X10. [handle] never lets an exception escape, and the only exit
    status it uses is 1: whatever the options and the answers of the
    collaborators, a run either ends normally or exits with status 1. *)
Theorem handle_returns_or_exits_with_one (options : Options)
        (h : list event) :
  fst (handle env options h) = Return tt
  \/ fst (handle env options h) = Raise (SystemExit 1).
Proof.
  pose proof (handle_try_exits_one options h) as Htry.
  unfold handle, try_except. cbv zeta.
  destruct (handle_try env options h) as [[[]|[code|err]] w];
    cbn [fst snd handle_except] in *.
  - left. now destruct (gh_in_locals w).
  - right. cbn in Htry. subst code. now destruct (gh_in_locals w).
  - right. unfold after, bind, stderr_write, logger_exception, sys_exit,
      emit, raise.
    destruct (is_BadCredentialsException err); cbn [fst snd];
      now destruct (gh_in_locals _).
Qed.

End ExitStatus.

(* ===================================================================== *)
(** ** One pass of the upload loop *)
(* ===================================================================== *)

(** Finds an event in a run assembled from events and segments. *)
Ltac find_event :=
  flatten;
  repeat first
         [ left; reflexivity
         | apply in_or_app; left; eassumption
         | right
         | apply in_or_app; right ].

Section UploadCalls.

Variable env : Env.

Lemma read_file_content_returns (file_path : string) (h : list event) :
  wp (_read_file_content env file_path) h
     (fun r w =>
        forallb is_local w = true
        /\ match r with
           | Return content =>
               exists mode, In (EReadText file_path mode (Ok content)) w
           | Raise e => status_one e
           end).
Proof.
  split; [apply read_file_content_emits|].
  pose proof (read_file_content_exits_one env file_path h) as Hexit.
  revert Hexit.
  unfold _read_file_content, try_except, path_read_text, call, after, bind,
    stderr_write, sys_exit, emit, raise.
  destruct (read_text env h file_path strict) as [content|err];
    cbn [fst snd]; [exists strict; now left|].
  destruct err; cbn [fst snd app]; try exact (fun H => H).
  destruct (read_text env _ file_path replace) as [content|err];
    cbn [fst snd app]; [|exact (fun H => H)].
  intros _. exists replace. right. now left.
Qed.

Lemma validate_file_path_fails (file_path : string) (h : list event) :
  wp (_validate_file_path env file_path) h
     (fun r w =>
        forallb is_local w = true
        /\ match r with
           | Return _ => True
           | Raise e => status_one e
           end).
Proof.
  split; [apply validate_file_path_emits|].
  exact (validate_file_path_exits_one env file_path h).
Qed.

Ltac wp_file :=
  lazymatch goal with
  | |- wp (_validate_file_path _ _) _ _ =>
      eapply wp_use;
      [apply validate_file_path_fails | intros [?|[?|?]] ? [? ?]; wp_open]
  | |- wp (_read_file_content _ _) _ _ =>
      eapply wp_use;
      [apply read_file_content_returns | intros [?|[?|?]] ? [? ?]; wp_open]
  end.

(** X11. In one pass of the upload loop every remote call is about the
    remote path of the entry and the head branch; an update carries the
    message "Update <remote path>", the blob identifier that the lookup
    of this pass returned and a content read from a local file; a
    creation carries the message "Create <remote path>" and such a
    content. *)
Theorem upload_calls_carry_the_entry
        (head_branch local_path remote_path : string) (h : list event)
        (ev : event) :
  In ev (snd (upload_file env head_branch local_path remote_path h)) ->
  carries_upload head_branch remote_path
                 (snd (upload_file env head_branch local_path remote_path h))
                 ev.
Proof.
  revert ev.
  change (wp (upload_file env head_branch local_path remote_path) h
             (fun r w => forall ev, In ev w ->
                carries_upload head_branch remote_path w ev)).
  unfold upload_file, repo_get_contents, repo_update_file, repo_create_file,
    logger_info, stderr_write.
  repeat first [wp_step | wp_file].
  all: wp_done.
  all: repeat match goal with
              | H : exists mode, In _ _ |- _ => destruct H as [? H]
              end.
  all: intros ev;
    match goal with
    | |- In _ ?W -> _ =>
        let W0 := fresh "W" in
        let HW := fresh "HW" in
        remember W as W0 eqn:HW; intros Hin; rewrite HW in Hin
    end.
  all: in_cases Hin.
  all: try (subst ev; cbn [carries_upload]; try exact I).
  all: try match goal with
           | H : In ?ev ?w, F : forallb is_local ?w = true |- _ =>
               destruct ev; try exact I;
               apply (in_footprint _ _ _ F) in H; discriminate H
           end.
  all: subst; repeat split; try reflexivity.
  all: try (eexists; split; [find_event | reflexivity]).
  all: try (eexists _, _; find_event).
  all: match goal with
       | H : In ?ev ?w, F : forallb is_local ?w = true |- _ =>
           destruct ev; try exact I;
           apply (in_footprint _ _ _ F) in H; discriminate H
       end.
Qed.

(** X12. In one pass of the upload loop, a [GithubException] raised by
    the lookup of the remote file, or by its update, is followed at once
    by the creation of the file on the head branch, with the message
    "Create <remote path>". *)
Theorem failed_lookup_or_update_creates
        (head_branch local_path remote_path : string) (h : list event)
        (ev : event) (e : error) :
  In ev (snd (upload_file env head_branch local_path remote_path h)) ->
  remote_miss ev = Some e ->
  is_GithubException e = true ->
  exists content res,
    follows ev
            (ECreateFile remote_path ("Create " ++ remote_path) content
                         head_branch res)
            (snd (upload_file env head_branch local_path remote_path h)).
Proof.
  change (wp (upload_file env head_branch local_path remote_path) h
             (fun r w =>
                In ev w -> remote_miss ev = Some e ->
                is_GithubException e = true ->
                exists content res,
                  follows ev
                          (ECreateFile remote_path ("Create " ++ remote_path)
                                       content head_branch res) w)).
  unfold upload_file, repo_get_contents, repo_update_file, repo_create_file,
    logger_info, stderr_write.
  repeat first [wp_step | wp_file].
  all: wp_done.
  all: intros Hin Hmiss Hgh; in_cases Hin.
  all: try match goal with
           | H : In ?ev ?w, F : forallb is_local ?w = true |- _ =>
               apply (in_footprint _ _ _ F) in H;
               destruct ev; try discriminate H; discriminate Hmiss
           end.
  all: subst ev; try discriminate Hmiss.
  all: injection Hmiss as ->; try congruence.
  all: eexists _, _; find_follows.
Qed.


(** X14. The upload loop stops at the first entry whose pass fails: the
    run is that of the entries before it followed by the failing pass,
    the exception is that of the pass, and no later entry is looked at. *)
Theorem upload_stops_at_first_failure
        (head_branch : string) (before rest : list (string * string))
        (local_path remote_path : string) (h w0 w : list event) (e : exn) :
  upload_each env head_branch before h = (Return tt, w0) ->
  upload_file env head_branch local_path remote_path (h ++ w0)
  = (Raise e, w) ->
  upload_each env head_branch (before ++ (local_path, remote_path) :: rest) h
  = (Raise e, w0 ++ w).
Proof.
  revert h w0. induction before as [|[l r] before IH]; intros h w0 Hbefore Hfail.
  - cbn in Hbefore. injection Hbefore as <-. rewrite app_nil_r in Hfail.
    cbn [app upload_each]. unfold bind. now rewrite Hfail.
  - cbn [app upload_each] in *. unfold bind in *.
    destruct (upload_file env head_branch l r h) as [[[]|e1] w1];
      [|discriminate Hbefore].
    destruct (upload_each env head_branch before (h ++ w1))
      as [[[]|e2] w2] eqn:Hrest; [|discriminate Hbefore].
    cbn in Hbefore. injection Hbefore as <-.
    rewrite app_assoc in Hfail. rewrite (IH _ _ Hrest Hfail).
    unfold after. cbn [fst snd]. now rewrite app_assoc.
Qed.

(** X15. When the lookup of the branch "main" fails, [_upload_files]
    stops there: no reference is created and no file is looked up or
    written. The error is raised again, after the report "Failed to
    upload files: <error>" if it is a [GithubException]. *)
Theorem upload_needs_main
        (head_branch : string) (files : Dict.dict) (h : list event)
        (e : error) :
  get_branch env h "main" = Err e ->
  _upload_files env head_branch files h
  = (Raise (Exc e),
     EGetBranch "main" (Err e)
     :: if is_GithubException e
        then [EStderr ERROR ("Failed to upload files: " ++ str e)]
        else []).
Proof.
  intros Hmain.
  unfold _upload_files, try_except, bind, repo_get_branch, call, upload_failed.
  rewrite Hmain. destruct (is_GithubException e); reflexivity.
Qed.

End UploadCalls.

Lemma upload_calls_carry_the_entry_witness :
  carries_upload
    "feature/test" "test.txt"
    (snd (upload_file (sample_env no_fault sample_fs) "feature/test"
                      "/tmp/f1.txt" "test.txt" []))
    (EUpdateFile "test.txt" "Update test.txt" "Hello World" "f00"
                 "feature/test" (Ok tt)).
Proof.
  apply (upload_calls_carry_the_entry (sample_env no_fault sample_fs)
                                      "feature/test" "/tmp/f1.txt" "test.txt"
                                      []).
  vm_compute. repeat first [left; reflexivity | right].
Defined.

Lemma failed_lookup_or_update_creates_witness :
  exists content res,
    follows
      (EUpdateFile "test.txt" "Update test.txt" "Hello World" "f00"
                   "feature/test" (Err (GithubException "409 Conflict")))
      (ECreateFile "test.txt" ("Create " ++ "test.txt") content
                   "feature/test" res)
      (snd (upload_file
              (sample_env (fault_at "update_file"
                                    (GithubException "409 Conflict"))
                          sample_fs)
              "feature/test" "/tmp/f1.txt" "test.txt" [])).
Proof.
  apply (failed_lookup_or_update_creates
           (sample_env (fault_at "update_file"
                                 (GithubException "409 Conflict"))
                       sample_fs)
           "feature/test" "/tmp/f1.txt" "test.txt" []
           (EUpdateFile "test.txt" "Update test.txt" "Hello World" "f00"
                        "feature/test" (Err (GithubException "409 Conflict")))
           (GithubException "409 Conflict")).
  - vm_compute. repeat first [left; reflexivity | right].
  - reflexivity.
  - reflexivity.
Defined.

Lemma upload_stops_at_first_failure_witness :
  upload_each (sample_env fresh_remote sample_fs) "feature/test"
              ([("/tmp/f1.txt", "test.txt")]
               ++ ("/tmp/absent.txt", "a.txt")
               :: [("/tmp/f2.py", "src/test.py")]) []
  = (Raise (SystemExit 1),
     snd (upload_file (sample_env fresh_remote sample_fs) "feature/test"
                      "/tmp/f1.txt" "test.txt" [])
     ++ [EExists "/tmp/absent.txt" (Ok false);
         EStderr ERROR "File not found: /tmp/absent.txt"]).
Proof.
  apply (upload_stops_at_first_failure
           (sample_env fresh_remote sample_fs) "feature/test"
           [("/tmp/f1.txt", "test.txt")] [("/tmp/f2.py", "src/test.py")]
           "/tmp/absent.txt" "a.txt" []).
  - vm_compute. reflexivity.
  - vm_compute. reflexivity.
Defined.

Lemma upload_needs_main_witness :
  _upload_files (sample_env (fault_at "get_branch"
                                      (GithubException "404 Not Found"))
                            sample_fs)
                "feature/test" [("/tmp/f1.txt", "test.txt")] []
  = (Raise (Exc (GithubException "404 Not Found")),
     EGetBranch "main" (Err (GithubException "404 Not Found"))
     :: if is_GithubException (GithubException "404 Not Found")
        then [EStderr ERROR ("Failed to upload files: "
                             ++ str (GithubException "404 Not Found"))]
        else []).
Proof.
  apply (upload_needs_main
           (sample_env (fault_at "get_branch"
                                 (GithubException "404 Not Found"))
                       sample_fs)
           "feature/test" [("/tmp/f1.txt", "test.txt")] []
           (GithubException "404 Not Found")).
  reflexivity.
Defined.

(* ===================================================================== *)
(** ** What a run of [handle] passes on, and how it ends *)
(* ===================================================================== *)

Lemma same_list_refl (xs : list string) : same_list xs xs = true.
Proof. unfold same_list. now destruct (list_eq_dec string_dec xs xs). Qed.

Section HandleBody.

Variable env : Env.
Variable o : Options.

Lemma local_in_handle_body (ev : event) :
  is_local ev = true -> in_handle_body o ev = true.
Proof. destruct ev; intros H; try reflexivity; discriminate H. Qed.

Ltac body_call :=
  apply emits_call; intros;
  unfold in_handle_body; cbn [carries_options is_close negb];
  rewrite ?String.eqb_refl, ?Bool.eqb_reflx, ?same_list_refl, ?orb_true_r;
  repeat match goal with H : nonempty _ = true |- _ => rewrite H end;
  reflexivity.

Ltac body_step :=
  first
    [ apply emits_ret
    | apply emits_raise
    | apply emits_sys_exit
    | apply emits_emit; reflexivity
    | body_call
    | apply emits_bind; [|intros]
    | apply emits_try_except; [|emits_handler]
    | match goal with
      | |- emits _ (if ?b then _ else _) => destruct b eqn:?
      | |- emits _ (match ?x with _ => _ end) => destruct x
      end ].

Lemma upload_files_in_handle_body (files : Dict.dict) :
  emits (in_handle_body o) (_upload_files env (head_branch o) files).
Proof.
  assert (Hloop : forall items,
             emits (in_handle_body o) (upload_each env (head_branch o) items)).
  { induction items as [|[l r] items IH]; cbn [upload_each].
    - apply emits_ret.
    - apply emits_bind; [|intros; apply IH].
      unfold upload_file.
      apply emits_try_except;
        [|emits_handler; unfold stderr_write; repeat body_step].
      apply emits_bind.
      { eapply emits_weaken;
          [exact local_in_handle_body | apply validate_file_path_emits]. }
      intros. apply emits_bind.
      { eapply emits_weaken;
          [exact local_in_handle_body | apply read_file_content_emits]. }
      intros.
      unfold repo_get_contents, repo_update_file, repo_create_file,
        logger_info.
      repeat body_step. }
  unfold _upload_files, create_head_branch, upload_failed, repo_get_branch,
    repo_create_git_ref, logger_info, stderr_write.
  apply emits_try_except; [|emits_handler; repeat body_step].
  apply emits_bind; [repeat body_step|]. intros.
  apply emits_bind; [repeat body_step|]. intros.
  apply Hloop.
Qed.

Lemma handle_body_emits :
  emits (in_handle_body o) (try_except (handle_try env o) handle_except).
Proof.
  unfold handle_except. apply emits_try_except.
  2:{ emits_handler; unfold stderr_write, logger_exception;
      repeat body_step. }
  unfold handle_try. cbv zeta.
  repeat (apply emits_bind; [|intros]).
  all: try (eapply emits_weaken;
            [|apply parse_files_emits];
            intros ev Hev; destruct ev; try reflexivity; discriminate Hev).
  all: try match goal with
           | |- emits _ (if dry_run _ then _ else _) =>
               destruct (dry_run o);
               [ eapply emits_weaken;
                 [exact local_in_handle_body | apply show_dry_run_emits]
               | repeat (apply emits_bind; [|intros]) ]
           end.
  all: try match goal with
           | |- emits _ (if Dict.truthy _ then _ else _) =>
               destruct (Dict.truthy _);
               [apply upload_files_in_handle_body | apply emits_ret]
           end.
  all: unfold _create_pull_request, _add_labels, _add_assignees,
         _add_reviewers, warn, unpack2, sys_exit, stdout_write, stderr_write,
         logger_info, gh_new, gh_get_repo, repo_get_branch, repo_create_pull,
         pr_add_to_labels, pr_add_to_assignees, pr_add_to_reviewers.
  all: repeat body_step.
Qed.

(** X16. Every remote call of a run of [handle] carries the options as
    they were given: the repository is fetched by the identifier of the
    options; the only branches looked up are the base branch and "main";
    the reference created is "refs/heads/<head branch>"; every lookup,
    update and creation of a file is on the head branch; the pull request
    is opened with the title, the body, the base branch, the head branch
    and the draft flag of the options; and the label, assignee and
    reviewer calls are made only with a list that is not empty, the one
    [_parse_list] returns for the option. *)
Theorem remote_calls_carry_the_options (h : list event) :
  forallb (carries_options o) (snd (handle env o h)) = true.
Proof.
  pose proof (handle_body_emits h) as Hbody.
  unfold handle. cbv zeta.
  destruct (gh_in_locals _); cbn [snd];
    rewrite ?forallb_app; cbn [forallb carries_options andb];
    rewrite ?andb_true_r;
    (eapply forallb_weaken; [|exact Hbody]);
    intros ev Hev; unfold in_handle_body in Hev;
    now apply andb_true_iff in Hev as [Hev _].
Qed.

(** X17. The [finally] clause: a run of [handle] in which the token
    call returned a client ends with the release of that client, and
    releases it once; a run in which it did not return one never
    releases anything. *)
Theorem client_is_closed_once_and_last (h : list event) :
  let w := snd (handle env o h) in
  (In (EGetClient (Ok tt)) w ->
   exists body, w = body ++ [EClose] /\ ~ In EClose body)
  /\ (~ In (EGetClient (Ok tt)) w -> ~ In EClose w).
Proof.
  cbv zeta.
  pose proof (handle_body_emits h) as Hbody.
  assert (Hquiet : ~ In EClose
                     (snd (try_except (handle_try env o) handle_except h))).
  { intros Hin. apply (in_footprint _ _ _ Hbody) in Hin. discriminate Hin. }
  unfold handle. cbv zeta.
  destruct (gh_in_locals _) eqn:Hgh; cbn [snd].
  - split.
    + intros _. eexists. split; [reflexivity | exact Hquiet].
    + intros Hnot. exfalso. apply Hnot.
      unfold gh_in_locals in Hgh. apply existsb_exists in Hgh as (ev & Hev & Hok).
      apply in_or_app. left.
      destruct ev; try discriminate Hok.
      destruct r as [[]|]; [exact Hev | discriminate Hok].
  - split; [|intros _; exact Hquiet].
    intros Hin. exfalso.
    assert (Hex : gh_in_locals
                    (snd (try_except (handle_try env o) handle_except h))
                  = true).
    { unfold gh_in_locals. apply existsb_exists. eexists. split; [exact Hin|].
      reflexivity. }
    rewrite Hex in Hgh. discriminate Hgh.
Qed.

End HandleBody.

Lemma client_is_closed_once_and_last_witness :
  exists body,
    snd (handle (sample_env no_fault sample_fs) sample_options [])
    = body ++ [EClose]
    /\ ~ In EClose body.
Proof.
  apply (proj1 (client_is_closed_once_and_last
                  (sample_env no_fault sample_fs) sample_options [])).
  vm_compute. repeat first [left; reflexivity | right].
Defined.

(* ===================================================================== *)
(** ** Runs of [handle] that fail early *)
(* ===================================================================== *)

(** The answers met along a run are identified with those assumed, and
    a path that contradicts an assumption is closed. *)
Ltac settle :=
  repeat match goal with u : unit |- _ => destruct u end;
  repeat match goal with
         | H : _ = Ok _ |- _ =>
             progress (rewrite ?app_nil_r in H; rewrite <- ?app_assoc in H;
                       cbn [app] in H)
         | H : _ = Err _ |- _ =>
             progress (rewrite ?app_nil_r in H; rewrite <- ?app_assoc in H;
                       cbn [app] in H)
         end;
  repeat match goal with
         | H1 : ?x = Ok _, H2 : ?x = Err _ |- _ =>
             rewrite H1 in H2; discriminate H2
         | H1 : ?x = Ok _, H2 : ?x = Ok _ |- _ =>
             rewrite H1 in H2; injection H2 as <-
         | H1 : ?x = Err _, H2 : ?x = Err _ |- _ =>
             rewrite H1 in H2; injection H2 as <-
         | H : negb (str_in ?c ?s) = true, H' : str_in ?c ?s = true |- _ =>
             rewrite H' in H; discriminate H
         end.

Ltac wp_run_known :=
  repeat (first [wp_step | wp_known]; try settle); wp_done.

Lemma wp_pair {A} (m : M A) h (r : outcome A) (w : list event) :
  wp m h (fun r' w' => r' = r /\ w' = w) -> m h = (r, w).
Proof.
  unfold wp. destruct (m h) as [r' w']. cbn. now intros [-> ->].
Qed.

Section EarlyFailures.

Variable env : Env.
Variable o : Options.

(** X18. When the token call raises, nothing else is called, the client
    is not released (there is none) and the command exits with status 1:
    after the line "GitHub authentication failed. ..." for a
    [BadCredentialsException], after the record and the line of an
    unexpected error for anything else. *)
Theorem authentication_failure (h : list event) (e : error) :
  str_in "/" (repository o) = true ->
  get_github_client_with_installation_token env h = Err e ->
  handle env o h
  = (Raise (SystemExit 1),
     EGetClient (Err e)
     :: if is_BadCredentialsException e
        then [EStderr ERROR
                "GitHub authentication failed. Please check your GitHub App configuration."]
        else unexpected e).
Proof.
  intros Hslash Hauth. apply wp_pair.
  wp_enter. wp_run_known.
  all: cbn [gh_in_locals existsb app orb]; cbv beta iota.
  all: split; reflexivity.
Qed.

(** X19. When the client is there and the lookup of the repository
    raises, no branch is looked up and nothing is changed; the client is
    released and the command exits with status 1, after the line "Failed
    to access repository <repository>: <error>" for a [GithubException],
    after the record and the line of an unexpected error for anything
    else. *)
Theorem repository_lookup_failure (h : list event) (e : error) :
  str_in "/" (repository o) = true ->
  get_github_client_with_installation_token env h = Ok tt ->
  get_repo env (h ++ authenticated) (repository o) = Err e ->
  handle env o h
  = (Raise (SystemExit 1),
     authenticated
     ++ EGetRepo (repository o) (Err e)
     :: (if is_GithubException e
         then [EStderr ERROR ("Failed to access repository " ++ repository o
                              ++ ": " ++ str e)]
         else unexpected e)
     ++ [EClose]).
Proof.
  unfold authenticated. intros Hslash Hauth Hrepo. apply wp_pair.
  wp_enter. wp_run_known.
  all: try solve [absurd_class].
  all: cbn [gh_in_locals existsb app orb]; cbv beta iota.
  all: split; reflexivity.
Qed.

(** X20. When the client and the repository are there and the lookup of
    the base branch raises, nothing is changed; the client is released
    and the command exits with status 1, after the line "Base branch
    '<base branch>' not found: <error>" for a [GithubException], after the
    record and the line of an unexpected error for anything else. *)
Theorem base_branch_lookup_failure
        (h : list event) (repo : Repository) (e : error) :
  let found :=
    authenticated
    ++ [EGetRepo (repository o) (Ok repo);
        ELogInfo ("Found repository: " ++ full_name repo)] in
  str_in "/" (repository o) = true ->
  get_github_client_with_installation_token env h = Ok tt ->
  get_repo env (h ++ authenticated) (repository o) = Ok repo ->
  get_branch env (h ++ found) (base_branch o) = Err e ->
  handle env o h
  = (Raise (SystemExit 1),
     found
     ++ EGetBranch (base_branch o) (Err e)
     :: (if is_GithubException e
         then [EStderr ERROR ("Base branch '" ++ base_branch o
                              ++ "' not found: " ++ str e)]
         else unexpected e)
     ++ [EClose]).
Proof.
  unfold authenticated. cbn [app]. intros Hslash Hauth Hrepo Hbase.
  apply wp_pair.
  wp_enter. wp_run_known.
  all: try solve [absurd_class].
  all: cbn [gh_in_locals existsb app orb]; cbv beta iota.
  all: split; reflexivity.
Qed.

End EarlyFailures.

Lemma authentication_failure_witness :
  handle (sample_env (fault_at "get_github_client_with_installation_token"
                               (BadCredentialsException "401"))
                     sample_fs)
         sample_options []
  = (Raise (SystemExit 1),
     EGetClient (Err (BadCredentialsException "401"))
     :: if is_BadCredentialsException (BadCredentialsException "401")
        then [EStderr ERROR
                "GitHub authentication failed. Please check your GitHub App configuration."]
        else unexpected (BadCredentialsException "401")).
Proof.
  apply (authentication_failure
           (sample_env (fault_at "get_github_client_with_installation_token"
                                 (BadCredentialsException "401"))
                       sample_fs)
           sample_options [] (BadCredentialsException "401")).
  - reflexivity.
  - reflexivity.
Defined.

Lemma repository_lookup_failure_witness :
  handle (sample_env (fault_at "get_repo" (GithubException "404 Not Found"))
                     sample_fs)
         sample_options []
  = (Raise (SystemExit 1),
     authenticated
     ++ EGetRepo (repository sample_options)
                 (Err (GithubException "404 Not Found"))
     :: (if is_GithubException (GithubException "404 Not Found")
         then [EStderr ERROR ("Failed to access repository "
                              ++ repository sample_options
                              ++ ": " ++ str (GithubException "404 Not Found"))]
         else unexpected (GithubException "404 Not Found"))
     ++ [EClose]).
Proof.
  apply (repository_lookup_failure
           (sample_env (fault_at "get_repo" (GithubException "404 Not Found"))
                       sample_fs)
           sample_options [] (GithubException "404 Not Found")).
  - reflexivity.
  - reflexivity.
  - reflexivity.
Defined.

Lemma base_branch_lookup_failure_witness :
  handle (sample_env (fault_at "get_branch" (OtherException "timeout"))
                     sample_fs)
         sample_options []
  = (Raise (SystemExit 1),
     (authenticated
      ++ [EGetRepo (repository sample_options)
                   (Ok {| full_name := "OWASP/Nest" |});
          ELogInfo ("Found repository: "
                    ++ full_name {| full_name := "OWASP/Nest" |})])
     ++ EGetBranch (base_branch sample_options)
                   (Err (OtherException "timeout"))
     :: (if is_GithubException (OtherException "timeout")
         then [EStderr ERROR ("Base branch '" ++ base_branch sample_options
                              ++ "' not found: "
                              ++ str (OtherException "timeout"))]
         else unexpected (OtherException "timeout"))
     ++ [EClose]).
Proof.
  apply (base_branch_lookup_failure
           (sample_env (fault_at "get_branch" (OtherException "timeout"))
                       sample_fs)
           sample_options [] {| full_name := "OWASP/Nest" |}
           (OtherException "timeout")).
  - reflexivity.
  - reflexivity.
  - reflexivity.
  - reflexivity.
Defined.

(* ===================================================================== *)
(** ** Runs of [handle] without files *)
(* ===================================================================== *)

Lemma emits_bind_ret {A B} (P : event -> bool) (a : A) (f : A -> M B) :
  emits P (f a) -> emits P (bind (ret a) f).
Proof. intros Hf h. unfold bind, ret, after. cbn. apply Hf. Qed.

Section WithoutFiles.

Variable env : Env.
Variable o : Options.

(** X21. Without a file mapping (the option absent or empty) the file
    publisher is not entered: the run creates no reference and looks up,
    updates or creates no remote file, whatever else happens. The head
    branch is then not created by the command. *)
Theorem no_files_no_publication (h : list event) :
  files o = None \/ files o = Some EmptyString ->
  forallb (fun ev => negb (is_publication ev)) (snd (handle env o h)) = true.
Proof.
  intros Hfiles.
  assert (Hparse : _parse_files (files o) = ret []).
  { destruct Hfiles as [-> | ->]; reflexivity. }
  enough (Hbody : emits (fun ev => negb (is_publication ev))
                        (try_except (handle_try env o) handle_except)).
  { specialize (Hbody h). unfold handle. cbv zeta.
    destruct (gh_in_locals _); cbn [snd]; [|exact Hbody].
    rewrite forallb_app, Hbody. reflexivity. }
  unfold handle_except. apply emits_try_except.
  2:{ emits_handler; unfold stderr_write, logger_exception; emits_auto. }
  unfold handle_try. cbv zeta. rewrite Hparse.
  repeat first [ apply emits_bind_ret; cbn [Dict.truthy]
               | apply emits_bind; [|intros] ].
  all: try match goal with
           | |- emits _ (if dry_run _ then _ else _) =>
               destruct (dry_run o);
               [ eapply emits_weaken; [|apply show_dry_run_emits];
                 intros ev Hev; destruct ev; try reflexivity; discriminate Hev
               | repeat (apply emits_bind; [|intros]) ]
           end.
  all: unfold _create_pull_request, _add_labels, _add_assignees,
         _add_reviewers, warn, unpack2, sys_exit, stdout_write, stderr_write,
         logger_info, gh_new, gh_get_repo, repo_get_branch, repo_create_pull,
         pr_add_to_labels, pr_add_to_assignees, pr_add_to_reviewers.
  all: emits_auto.
Qed.

End WithoutFiles.

Lemma no_files_no_publication_witness :
  forallb (fun ev => negb (is_publication ev))
          (snd (handle (sample_env no_fault sample_fs) sample_options []))
  = true.
Proof.
  apply (no_files_no_publication (sample_env no_fault sample_fs)
                                 sample_options []).
  left. reflexivity.
Defined.

(* ===================================================================== *)
(** ** The pull request comes after the files *)
(* ===================================================================== *)

Lemma parse_files_history_free (files_str : option string)
      (h h' : list event) :
  _parse_files files_str h = _parse_files files_str h'.
Proof.
  unfold _parse_files. destruct files_str as [s|]; [|reflexivity].
  destruct (negb (truthy s)); [reflexivity|].
  generalize (@nil (string * string)) as d. revert h h'.
  induction (split "," s) as [|x xs IH]; intros h h' d; [reflexivity|].
  cbn [parse_file_specs]. unfold bind.
  rewrite !parse_file_spec_cases.
  destruct (malformed x); [reflexivity|].
  destruct (split1 ":" x) as [|l [|r [|? ?]]]; try reflexivity.
  now rewrite (IH (h ++ []) (h' ++ [])).
Qed.

Lemma written_quiet (w : list event) :
  forallb (fun ev => negb (is_file_write ev)) w = true -> written w = [].
Proof.
  induction w as [|ev w IH]; intros Hw; [reflexivity|].
  cbn [forallb] in Hw. apply andb_true_iff in Hw as [Hev Hw].
  cbn [written flat_map]. fold (written w). rewrite (IH Hw).
  destruct ev; try reflexivity; discriminate Hev.
Qed.

(** The segments of a run that write no file. *)
Ltac quiet_writes :=
  repeat match goal with
         | F : forallb ?P ?w = true |- _ =>
             lazymatch P with
             | in_upload => fail
             | _ => idtac
             end;
             let Hq := fresh "Hq" in
             assert (Hq : written w = [])
               by (apply written_quiet; eapply forallb_weaken; [|exact F];
                   let ev := fresh "ev" in
                   let Hev := fresh "Hev" in
                   intros ev Hev; destruct ev;
                   first [reflexivity | discriminate Hev]);
             clear F
         end.

Section PullAfterFiles.

Variable env : Env.

Lemma upload_each_written (head_branch : string)
      (items : list (string * string)) (h : list event) :
  wp (upload_each env head_branch items) h
     (fun r w =>
        forallb in_upload_loop w = true
        /\ (r = Return tt -> written w = map snd items)).
Proof.
  split; [apply upload_each_emits|].
  revert h. induction items as [|[l r] items IH]; intros h; [reflexivity|].
  cbn [upload_each map snd]. unfold bind.
  pose proof (upload_file_one_pass env head_branch l r h) as Hone.
  unfold wp in Hone.
  destruct (upload_file env head_branch l r h) as [[[]|e] w];
    cbn [fst snd] in *; [|discriminate].
  destruct Hone as [_ Hw]. specialize (IH (h ++ w)).
  destruct (upload_each env head_branch items (h ++ w)) as [[[]|e] w'];
    unfold after; cbn [fst snd] in *; [|discriminate].
  intros _. rewrite written_app, Hw, (IH eq_refl). reflexivity.
Qed.

Lemma upload_files_written (head_branch : string) (files : Dict.dict)
      (h : list event) :
  wp (_upload_files env head_branch files) h
     (fun r w =>
        forallb in_upload w = true
        /\ (r = Return tt -> written w = map snd (Dict.items files))).
Proof.
  split; [apply upload_files_emits|].
  change (wp (_upload_files env head_branch files) h
             (fun r w => r = Return tt ->
                         written w = map snd (Dict.items files))).
  unfold _upload_files, create_head_branch, upload_failed, repo_get_branch,
    repo_create_git_ref, logger_info, stderr_write.
  repeat first
         [ wp_step
         | lazymatch goal with
           | |- wp (upload_each _ _ _) _ _ =>
               eapply wp_use;
               [apply upload_each_written | intros [[]|?] ? [? ?]; wp_open]
           end ].
  all: wp_done; try discriminate.
  all: intros _; flatten; rewrite ?written_app; cbn [written flat_map app];
    auto.
Qed.

Lemma parse_files_anywhere (files_str : option string) (h : list event) :
  wp (_parse_files files_str) h
     (fun r w =>
        forallb (fun ev => match ev with EStderr _ _ => true | _ => false end)
                w = true
        /\ fst (_parse_files files_str []) = r).
Proof.
  split; [apply parse_files_emits|].
  now rewrite (parse_files_history_free files_str h []).
Qed.

Variable o : Options.

Lemma handle_publishes (h : list event) :
  wp (handle env o) h
     (fun r w =>
        (forall d t b ba hd dr res,
            fst (_parse_files (files o) []) = Return d ->
            In (ECreatePull t b ba hd dr res) w ->
            written w = map snd (Dict.items d))
        /\ (r = Return tt -> dry_run o = false ->
            exists pr,
              In (ECreatePull (title o) (body o) (base_branch o)
                              (head_branch o) (draft o) (Ok pr)) w
              /\ ends_with
                   [EStdout SUCCESS ("Successfully created Pull Request: "
                                     ++ html_url pr);
                    EClose] w)).
Proof.
  wp_enter.
  repeat first
         [ wp_step
         | lazymatch goal with
           | |- wp (_parse_files _) _ _ =>
               eapply wp_use;
               [apply parse_files_anywhere | intros [?|?] ? [? ?]; wp_open]
           | |- wp (_upload_files _ _ _) _ _ =>
               eapply wp_use;
               [apply upload_files_written | intros [[]|?] ? [? ?]; wp_open]
           end
         | wp_known ].
  all: wp_done.
  all: cbn [gh_in_locals existsb app orb]; cbv beta iota.
  all: split;
    [ intros d t b ba hd dr res Hd Hin; in_cases Hin; try solve [absurd_class]
    | intros Hret Hdry; try discriminate Hret; try congruence ].
  all: try (eexists; split; [find_event | find_end]).
  all: match goal with
       | H : fst (_parse_files _ _) = Return ?a, Hd : _ = Return ?d |- _ =>
           assert (d = a) as -> by congruence
       end.
  all: quiet_writes.
  all: repeat match goal with
              | H : Return tt = Return tt -> _ |- _ => specialize (H eq_refl)
              end.
  all: unfold written in *; flatten;
    repeat (cbn [flat_map app]; rewrite ?flat_map_app).
  all: repeat match goal with
              | Hq : flat_map _ _ = _ |- _ => rewrite ?Hq; clear Hq
              end.
  all: cbn [app]; rewrite ?app_nil_r.
  all: try reflexivity.
  all: match goal with
       | H : Dict.truthy ?a = false |- _ =>
           destruct a; [reflexivity | discriminate H]
       end.
Qed.

(** X22. When a run of [handle] reaches the creation of the pull
    request, every entry of the file mapping has been written to the
    repository with success, once, and in the order of the mapping: the
    pull request is never opened on a partial upload. *)
Theorem pull_request_after_all_files
        (h : list event) (d : Dict.dict) (t b ba hd : string) (dr : bool)
        (res : result PullRequest) :
  fst (_parse_files (files o) []) = Return d ->
  In (ECreatePull t b ba hd dr res) (snd (handle env o h)) ->
  written (snd (handle env o h)) = map snd (Dict.items d).
Proof.
  intros Hd Hin.
  exact (proj1 (handle_publishes h) d t b ba hd dr res Hd Hin).
Qed.

(** X23. A run of [handle] that ends normally without the dry-run flag
    has created the pull request, with the texts, the branches and the
    draft flag of the options, and its last two actions are the line
    "Successfully created Pull Request: <url>" and the release of the
    client. *)
Theorem normal_end_means_pull_request (h : list event) :
  fst (handle env o h) = Return tt ->
  dry_run o = false ->
  exists pr,
    In (ECreatePull (title o) (body o) (base_branch o) (head_branch o)
                    (draft o) (Ok pr))
       (snd (handle env o h))
    /\ ends_with [EStdout SUCCESS ("Successfully created Pull Request: "
                                   ++ html_url pr);
                  EClose]
                 (snd (handle env o h)).
Proof. exact (proj2 (handle_publishes h)). Qed.

End PullAfterFiles.

Lemma pull_request_after_all_files_witness :
  written (snd (handle (sample_env fresh_remote sample_fs)
                       (with_files two_files sample_options) []))
  = map snd (Dict.items [("/tmp/f1.txt", "test.txt");
                         ("/tmp/f2.py", "src/test.py")]).
Proof.
  apply (pull_request_after_all_files
           (sample_env fresh_remote sample_fs)
           (with_files two_files sample_options) []
           [("/tmp/f1.txt", "test.txt"); ("/tmp/f2.py", "src/test.py")]
           "Test PR" "Test description" "main" "feature/test" false
           (Ok sample_pr)).
  - vm_compute. reflexivity.
  - vm_compute. repeat first [left; reflexivity | right].
Defined.

Lemma normal_end_means_pull_request_witness :
  exists pr,
    In (ECreatePull "Test PR" "Test description" "main" "feature/test" false
                    (Ok pr))
       (snd (handle (sample_env no_fault sample_fs) sample_options []))
    /\ ends_with [EStdout SUCCESS ("Successfully created Pull Request: "
                                   ++ html_url pr);
                  EClose]
                 (snd (handle (sample_env no_fault sample_fs)
                              sample_options [])).
Proof.
  apply (normal_end_means_pull_request (sample_env no_fault sample_fs)
                                       sample_options []).
  - vm_compute. reflexivity.
  - reflexivity.
Defined.
